(** * Bundle validator (scripts/validate.mjs): shallow embedding and properties

    The script walks a plugin bundle, reads [.cursor-plugin/plugin.json],
    checks the manifest, then the [skills], [rules], [commands] and [agents]
    directories, accumulating error and warning messages in two module-level
    arrays, printing a report and choosing the exit code of the process.

    Strings are JavaScript strings: sequences of UTF-16 code units, modelled
    as [list N].  The frontmatter mapping is a JavaScript object used as a
    map, modelled as a [gmap].  The filesystem is an oracle answering the
    three read operations the script performs. *)

From Stdlib Require Import Ascii String NArith DecimalString.
From stdpp Require Import base strings list gmap.

Open Scope N_scope.
Set Warnings "-register-all".

(** ** JavaScript strings *)

Abbreviation jsstring := (list N).

(** An ASCII literal as a JavaScript string. *)
Definition lit (s : string) : jsstring :=
  (fun a => N_of_ascii a) <$> list_ascii_of_string s.
Arguments lit : simpl never.

Definition LF : N := 10.
Definition CR : N := 13.
Definition COLON : N := 58.
Definition HYPHEN : N := 45.
Definition DQUOTE : N := 34.

Definition in_range (lo hi c : N) : bool := (lo <=? c) && (c <=? hi).

Definition is_digit (c : N) : bool := in_range 48 57 c.
Definition is_lower (c : N) : bool := in_range 97 122 c.
Definition is_upper (c : N) : bool := in_range 65 90 c.

(** [\w] without the unicode or ignore-case flags: [A-Za-z0-9_]. *)
Definition is_word (c : N) : bool :=
  is_lower c || is_upper c || is_digit c || (c =? 95).

(** [[\w-]]. *)
Definition is_key_char (c : N) : bool := is_word c || (c =? HYPHEN).

(** The line terminators of ECMAScript: LF, CR, U+2028, U+2029. *)
Definition is_line_terminator (c : N) : bool :=
  (c =? 10) || (c =? 13) || (c =? 8232) || (c =? 8233).

(** [\s], which is also the set [String.prototype.trim] strips: the
    WhiteSpace code points together with the line terminators. *)
Definition is_space (c : N) : bool :=
  (c =? 9) || (c =? 11) || (c =? 12) || (c =? 32) || (c =? 160)
  || (c =? 5760) || in_range 8192 8202 c || (c =? 8239) || (c =? 8287)
  || (c =? 12288) || (c =? 65279) || is_line_terminator c.

(** [.] without the dotAll flag: anything but a line terminator. *)
Definition is_dot (c : N) : bool := negb (is_line_terminator c).

(** [s.startsWith(p)]. *)
Fixpoint starts_with (p s : jsstring) : bool :=
  match p, s with
  | [], _ => true
  | _ :: _, [] => false
  | a :: p', b :: s' => (a =? b) && starts_with p' s'
  end.

(** [s.endsWith(p)]. *)
Definition ends_with (p s : jsstring) : bool :=
  starts_with (reverse p) (reverse s).

(** [content.replace(/\r\n/g, "\n")]: every CR LF pair, scanned left to
    right, becomes a single LF; a CR that no LF follows stays. *)
Fixpoint normalize (s : jsstring) : jsstring :=
  match s with
  | [] => []
  | c :: t =>
      match t with
      | d :: t' =>
          if (c =? CR) && (d =? LF) then LF :: normalize t'
          else c :: normalize t
      | [] => [c]
      end
  end.

(** Leftmost occurrence of [needle] in [hay], where [hay] is the part of the
    string that starts at absolute index [i]. *)
Fixpoint index_from (needle hay : jsstring) (i : nat) : option nat :=
  if starts_with needle hay then Some i
  else match hay with
       | [] => None
       | _ :: t => index_from needle t (S i)
       end.

(** [hay.indexOf(needle, from)] for a non-empty [needle]; [None] is the
    [-1] of JavaScript. *)
Definition indexOf (needle hay : jsstring) (from : nat) : option nat :=
  index_from needle (drop from hay) from.

(** [s.slice(a, b)] for [0 <= a <= b]. *)
Definition slice (a b : nat) (s : jsstring) : jsstring :=
  take (b - a) (drop a s).

(** [s.split(sep)] for a one-character separator: never empty, and the
    empty string splits into one empty piece. *)
Fixpoint split_on (sep : N) (s : jsstring) : list jsstring :=
  match s with
  | [] => [[]]
  | c :: t =>
      if c =? sep then [] :: split_on sep t
      else match split_on sep t with
           | [] => [[c]]
           | l :: ls => (c :: l) :: ls
           end
  end.

Fixpoint drop_spaces (s : jsstring) : jsstring :=
  match s with
  | [] => []
  | c :: t => if is_space c then drop_spaces t else s
  end.

(** [s.trim()]. *)
Definition trim (s : jsstring) : jsstring :=
  reverse (drop_spaces (reverse (drop_spaces s))).

(** Longest prefix of characters satisfying [p], and the rest. *)
Fixpoint span (p : N -> bool) (s : jsstring) : jsstring * jsstring :=
  match s with
  | [] => ([], [])
  | c :: t =>
      if p c then let '(a, b) := span p t in (c :: a, b)
      else ([], s)
  end.

(** ** The frontmatter line pattern

    The pattern is [/^(KEY):\s*(.+)$/] where KEY stands for [\w[\w-]*]. *)

(** The tail [\s*(.+)$] of the pattern, with the backtracking order of the
    regular expression engine: the greedy [\s*] first tries to take one more
    white-space character, and gives it back only when the rest cannot
    match.  The result is the second capture group. *)
Fixpoint match_value (s : jsstring) : option jsstring :=
  match s with
  | [] => None
  | c :: t =>
      let stop_here := if forallb is_dot s then Some s else None in
      if is_space c then
        match match_value t with
        | Some v => Some v
        | None => stop_here
        end
      else stop_here
  end.

(** [line.match(pattern)]: the two capture groups.  The greedy
    repetition of [[\w-]] never has to give characters back, since the character
    that must follow it, a colon, is not in its class. *)
Definition match_line (line : jsstring) : option (jsstring * jsstring) :=
  match line with
  | [] => None
  | c :: t =>
      if is_word c then
        let '(ks, rest) := span is_key_char t in
        match rest with
        | d :: after =>
            if d =? COLON then
              match match_value after with
              | Some v => Some (c :: ks, v)
              | None => None
              end
            else None
        | [] => None
        end
      else None
  end.

(** ** The frontmatter mapping *)

Definition proto_key : jsstring := lit "__proto__".

(** [fields[k] = v] on an object created by [{}].  The object inherits the
    [__proto__] accessor of [Object.prototype], whose setter ignores a value
    that is neither an object nor null: assigning a string under that key
    creates no property. *)
Definition fields_set (k v : jsstring) (fields : gmap (list N) (list N))
  : gmap (list N) (list N) :=
  if decide (k = proto_key) then fields else <[k := v]> fields.

(** One iteration of [for (const line of block.split("\n"))]. *)
Definition absorb_line (fields : gmap (list N) (list N)) (line : jsstring)
  : gmap (list N) (list N) :=
  match match_line line with
  | Some (k, v) => fields_set k (trim v) fields
  | None => fields
  end.

Definition OPENING : jsstring := lit "---" ++ [LF].
Definition CLOSING : jsstring := [LF] ++ lit "---" ++ [LF].

(** [parseFrontmatter(content)]; [None] is the [null] result. *)
Definition parseFrontmatter (content : jsstring)
  : option (gmap (list N) (list N)) :=
  let normalized := normalize content in
  if negb (starts_with OPENING normalized) then None
  else match indexOf CLOSING normalized 4 with
       | None => None
       | Some closing =>
           let block := slice 4 closing normalized in
           Some (foldl absorb_line ∅ (split_on LF block))
       end.

(** ** Values returned by [JSON.parse] *)

(** A JavaScript value as [JSON.parse] builds it, plus [undefined], which
    reading an absent property gives.  Of a number the script observes only
    whether it is zero (its truthiness) and its decimal rendering (in a
    template literal or under a regular expression), so a number is carried
    as those two observations.  The property list of an object holds its own
    properties, each key once. *)
Inductive JsValue : Type :=
  | JUndefined
  | JNull
  | JBool (b : bool)
  | JNum (zero : bool) (repr : jsstring)
  | JStr (s : jsstring)
  | JArr (items : list JsValue)
  | JObj (props : list (jsstring * JsValue)).

(** [!!v]. *)
Definition truthy (v : JsValue) : bool :=
  match v with
  | JUndefined | JNull => false
  | JBool b => b
  | JNum zero _ => negb zero
  | JStr s => match s with [] => false | _ :: _ => true end
  | JArr _ | JObj _ => true
  end.

Fixpoint assoc (k : jsstring) (props : list (jsstring * JsValue)) : JsValue :=
  match props with
  | [] => JUndefined
  | (k', v) :: rest => if decide (k = k') then v else assoc k rest
  end.

(** [v[k]] for the keys the script reads ([name], [description], [version],
    [author], [license], [logo]), none of which a prototype defines: an
    object answers with its own property, every other value with
    [undefined]. *)
Definition get (v : JsValue) (k : jsstring) : JsValue :=
  match v with
  | JObj props => assoc k props
  | _ => JUndefined
  end.

(** Whether an object has an own property [k]. *)
Fixpoint has_key (k : jsstring) (props : list (jsstring * JsValue)) : bool :=
  match props with
  | [] => false
  | (k', _) :: rest => bool_decide (k = k') || has_key k rest
  end.

(** [String(v)], as a template literal and [RegExp.prototype.test] apply it;
    [None]: the conversion throws a TypeError.  An array joins its elements
    with commas, [null] elements rendering as the empty string.  An object
    renders as [[object Object]] through the [toString] it inherits; an own
    property [toString], which in a parsed document is never callable,
    hides that method, [valueOf] gives the object back, and the conversion
    throws. *)
Fixpoint toString (v : JsValue) : option jsstring :=
  match v with
  | JUndefined => Some (lit "undefined")
  | JNull => Some (lit "null")
  | JBool true => Some (lit "true")
  | JBool false => Some (lit "false")
  | JNum _ repr => Some repr
  | JStr s => Some s
  | JArr items =>
      (fix join (l : list JsValue) : option jsstring :=
         match l with
         | [] => Some []
         | x :: rest =>
             match (match x with
                    | JUndefined | JNull => Some []
                    | _ => toString x
                    end) with
             | None => None
             | Some sx =>
                 match rest with
                 | [] => Some sx
                 | _ :: _ =>
                     match join rest with
                     | Some sr => Some (sx ++ lit "," ++ sr)
                     | None => None
                     end
                 end
             end
         end) items
  | JObj props =>
      if has_key (lit "toString") props then None
      else Some (lit "[object Object]")
  end.

(** [fm[k]] on a frontmatter mapping, for [name] and [description]. *)
Definition fm_get (fm : gmap (list N) (list N)) (k : jsstring) : JsValue :=
  match fm !! k with
  | Some v => JStr v
  | None => JUndefined
  end.

(** ** The manifest name pattern [/^[a-z0-9](?:[a-z0-9.-]*[a-z0-9])?$/] *)

Definition is_name_edge (c : N) : bool := is_lower c || is_digit c.
Definition is_name_inner (c : N) : bool :=
  is_name_edge c || (c =? 46) || (c =? HYPHEN).

(** The optional group followed by the end anchor, on a non-empty rest:
    inner characters, the last of which is an edge character. *)
Fixpoint name_tail (t : jsstring) : bool :=
  match t with
  | [] => false
  | c :: t' =>
      match t' with
      | [] => is_name_edge c
      | _ :: _ => is_name_inner c && name_tail t'
      end
  end.

(** [namePattern.test(s)] on a string. *)
Definition namePattern_test (s : jsstring) : bool :=
  match s with
  | [] => false
  | c :: t =>
      is_name_edge c && match t with [] => true | _ :: _ => name_tail t end
  end.

(** ** The filesystem and the process *)

(** A path is the list of arguments given to [path.join] after [root]. *)
Abbreviation path := (list (list N)).

(** What the three read operations answer: whether [fs.access] resolves,
    what [fs.readFile(p, "utf8")] resolves to ([None]: it rejects), what
    [fs.readdir] resolves to ([None]: it rejects). *)
Record FS : Type := {
  fs_access : path -> bool;
  fs_readFile : path -> option jsstring;
  fs_readdir : path -> option (list jsstring)
}.

Inductive FsOp : Type :=
  | OpAccess (p : path)
  | OpReadFile (p : path)
  | OpReaddir (p : path).

Inductive Exn : Type :=
  | AccessFailed (p : path)
  | ReadFileFailed (p : path)
  | ReaddirFailed (p : path)
  | JsonSyntaxError
  | PathArgNotString (v : JsValue)
  | NotPrimitive (v : JsValue).

(** The two module-level accumulators, the lines given to [console.log],
    and, as a record of what the run touched, the filesystem operations it
    performed. *)
Record State : Type := {
  errors : list jsstring;
  warnings : list jsstring;
  stdout : list jsstring;
  trace : list FsOp
}.

Definition initial : State :=
  {| errors := []; warnings := []; stdout := []; trace := [] |}.

(** How a computation ends: with a value, with an exception in flight, or
    with the process exited. *)
Inductive Res (A : Type) : Type :=
  | Done (a : A)
  | Thrown (e : Exn)
  | Exited (code : N).
Arguments Done {A} a.
Arguments Thrown {A} e.
Arguments Exited {A} code.

Definition M (A : Type) : Type := State -> State * Res A.

Definition ret {A} (a : A) : M A := fun s => (s, Done a).

Definition bind {A B} (m : M A) (k : A -> M B) : M B :=
  fun s =>
    match m s with
    | (s', Done a) => k a s'
    | (s', Thrown e) => (s', Thrown e)
    | (s', Exited c) => (s', Exited c)
    end.

Declare Scope js_scope.
Delimit Scope js_scope with js.
Notation "x <- m ;; k" := (bind m (fun x => k))
  (at level 100, m at next level, right associativity) : js_scope.
Notation "m ;;; k" := (bind m (fun _ => k))
  (at level 100, right associativity) : js_scope.
Open Scope js_scope.

Definition throw {A} (e : Exn) : M A := fun s => (s, Thrown e).

(** [try { m } catch { h }]; an exit of the process is not caught. *)
Definition try_catch {A} (m : M A) (h : Exn -> M A) : M A :=
  fun s =>
    match m s with
    | (s', Thrown e) => h e s'
    | r => r
    end.

(** [process.exit(code)]. *)
Definition exit {A} (code : N) : M A := fun s => (s, Exited code).

Definition get_state : M State := fun s => (s, Done s).

(** [errors.push(msg)]. *)
Definition error (msg : jsstring) : M unit :=
  fun s => ({| errors := errors s ++ [msg]; warnings := warnings s;
               stdout := stdout s; trace := trace s |}, Done tt).

(** [warnings.push(msg)]. *)
Definition warn (msg : jsstring) : M unit :=
  fun s => ({| errors := errors s; warnings := warnings s ++ [msg];
               stdout := stdout s; trace := trace s |}, Done tt).

(** [console.log(line)]. *)
Definition console_log (line : jsstring) : M unit :=
  fun s => ({| errors := errors s; warnings := warnings s;
               stdout := stdout s ++ [line]; trace := trace s |}, Done tt).

Definition touch (op : FsOp) : M unit :=
  fun s => ({| errors := errors s; warnings := warnings s;
               stdout := stdout s; trace := trace s ++ [op] |}, Done tt).

Definition when (b : bool) (m : M unit) : M unit := if b then m else ret tt.

(** [for (const x of l) body(x)]. *)
Fixpoint for_each {A} (l : list A) (body : A -> M unit) : M unit :=
  match l with
  | [] => ret tt
  | x :: rest => body x ;;; for_each rest body
  end.

(** [String(v)] where it can throw. *)
Definition to_string (v : JsValue) : M jsstring :=
  match toString v with
  | Some s => ret s
  | None => throw (NotPrimitive v)
  end.

(** A length or count in a template literal. *)
Definition decimal (n : nat) : jsstring :=
  lit (NilEmpty.string_of_uint (Nat.to_uint n)).

(** ** The validator *)

Definition MANIFEST : path := [lit ".cursor-plugin"; lit "plugin.json"].
Definition SKILLS : jsstring := lit "skills".
Definition RULES : jsstring := lit "rules".
Definition COMMANDS : jsstring := lit "commands".
Definition AGENTS : jsstring := lit "agents".
Definition SKILL_MD : jsstring := lit "SKILL.md".
Definition NAME : jsstring := lit "name".
Definition DESCRIPTION : jsstring := lit "description".
Definition LOGO : jsstring := lit "logo".

Definition required_fields : list jsstring :=
  [lit "name"; lit "description"; lit "version"; lit "author"; lit "license"].

Definition msg_manifest_invalid : jsstring :=
  lit ".cursor-plugin/plugin.json is missing or invalid".
Definition msg_name_pattern (name : jsstring) : jsstring :=
  lit "plugin.json name " ++ [DQUOTE] ++ name ++ [DQUOTE]
  ++ lit " doesn't match pattern".
Definition msg_missing_field (field : jsstring) : jsstring :=
  lit "plugin.json missing required field: " ++ field.
Definition msg_logo (logo : jsstring) : jsstring :=
  lit "Logo file not found: " ++ logo.
Definition msg_skill_no_file (skill : jsstring) : jsstring :=
  lit "Skill " ++ skill ++ lit " is missing SKILL.md".
Definition msg_skill_no_fm (skill : jsstring) : jsstring :=
  lit "Skill " ++ skill ++ lit "/SKILL.md is missing frontmatter".
Definition msg_skill_no_key (skill key : jsstring) : jsstring :=
  lit "Skill " ++ skill ++ lit "/SKILL.md missing " ++ key
  ++ lit " in frontmatter".
Definition msg_skills_missing : jsstring := lit "skills/ directory is missing".
Definition msg_rule (rule : jsstring) : jsstring :=
  lit "Rule " ++ rule ++ lit " missing description in frontmatter".
Definition msg_entry_no_fm (kind entry : jsstring) : jsstring :=
  kind ++ lit " " ++ entry ++ lit " missing frontmatter".
Definition msg_entry_no_key (kind entry key : jsstring) : jsstring :=
  kind ++ lit " " ++ entry ++ lit " missing " ++ key ++ lit " in frontmatter".

(** What a run leaves behind: the final accumulators and output, the
    failure the top-level [catch] reported, if any, and the exit code. *)
Record Report : Type := {
  final : State;
  uncaught : option Exn;
  exit_code : N
}.

Section Validator.

(** [JSON.parse], a builtin of the runtime; [None]: it throws. *)
Variable JSON_parse : jsstring -> option JsValue.

(** The bundle under [process.cwd()]. *)
Variable fs : FS.

Definition access (p : path) : M unit :=
  touch (OpAccess p) ;;;
  if fs_access fs p then ret tt else throw (AccessFailed p).

Definition readFile (p : path) : M jsstring :=
  touch (OpReadFile p) ;;;
  match fs_readFile fs p with
  | Some content => ret content
  | None => throw (ReadFileFailed p)
  end.

Definition readdir (p : path) : M (list jsstring) :=
  touch (OpReaddir p) ;;;
  match fs_readdir fs p with
  | Some entries => ret entries
  | None => throw (ReaddirFailed p)
  end.

Definition parse (raw : jsstring) : M JsValue :=
  match JSON_parse raw with
  | Some v => ret v
  | None => throw JsonSyntaxError
  end.

(** [exists(p)]. *)
Definition exists_ (p : path) : M bool :=
  try_catch (access p ;;; ret true) (fun _ => ret false).

(** [readJson(filePath)]. *)
Definition readJson (p : path) : M JsValue :=
  try_catch (raw <- readFile p ;; parse raw) (fun _ => ret JNull).

(** [path.join(root, arg)] throws a TypeError unless [arg] is a string. *)
Definition path_join (arg : JsValue) : M path :=
  match arg with
  | JStr p => ret [p]
  | _ => throw (PathArgNotString arg)
  end.

(** The name check of [validatePlugin]: the test converts the name to a
    string, and so does the template literal of the message. *)
Definition checkName (pluginJson : JsValue) : M unit :=
  name <- to_string (get pluginJson NAME) ;;
  when (negb (namePattern_test name))
       (shown <- to_string (get pluginJson NAME) ;;
        error (msg_name_pattern shown)).

(** The line that announces the plugin. *)
Definition logName (pluginJson : JsValue) : M unit :=
  name <- to_string (get pluginJson NAME) ;;
  console_log (lit "Validating plugin: " ++ name ++ [LF]).

(** The loop over the required fields. *)
Definition checkRequiredFields (pluginJson : JsValue) : M unit :=
  for_each required_fields (fun field =>
    when (negb (truthy (get pluginJson field)))
         (error (msg_missing_field field))).

(** The logo check. *)
Definition checkLogo (pluginJson : JsValue) : M unit :=
  if truthy (get pluginJson LOGO) then
    p <- path_join (get pluginJson LOGO) ;;
    found <- exists_ p ;;
    when (negb found)
         (shown <- to_string (get pluginJson LOGO) ;; warn (msg_logo shown))
  else ret tt.

(** The two key checks shared by skills, commands and agents. *)
Definition checkKeys (fm : gmap (list N) (list N))
    (no_key : jsstring -> jsstring) : M unit :=
  when (negb (truthy (fm_get fm NAME))) (error (no_key NAME)) ;;;
  when (negb (truthy (fm_get fm DESCRIPTION))) (error (no_key DESCRIPTION)).

(** The body of the loop over [skills]. *)
Definition checkSkill (skill : jsstring) : M unit :=
  let skillPath := [SKILLS; skill; SKILL_MD] in
  found <- exists_ skillPath ;;
  if negb found then error (msg_skill_no_file skill)
  else
    content <- readFile skillPath ;;
    match parseFrontmatter content with
    | None => error (msg_skill_no_fm skill)
    | Some fm => checkKeys fm (msg_skill_no_key skill)
    end.

(** The [skills] block. *)
Definition checkSkills : M unit :=
  found <- exists_ [SKILLS] ;;
  if found then
    skills <- readdir [SKILLS] ;;
    for_each skills checkSkill ;;;
    console_log (lit "  Skills: " ++ decimal (length skills) ++ lit " found")
  else error msg_skills_missing.

(** The body of the loop over [rules]. *)
Definition checkRule (rule : jsstring) : M unit :=
  content <- readFile [RULES; rule] ;;
  match parseFrontmatter content with
  | None => error (msg_rule rule)
  | Some fm =>
      when (negb (truthy (fm_get fm DESCRIPTION))) (error (msg_rule rule))
  end.

(** The [rules] block. *)
Definition checkRules : M unit :=
  found <- exists_ [RULES] ;;
  if found then
    listing <- readdir [RULES] ;;
    let rules :=
      filter (fun f => ends_with (lit ".mdc") f || ends_with (lit ".md") f)
             listing in
    for_each rules checkRule ;;;
    console_log (lit "  Rules: " ++ decimal (length rules) ++ lit " found")
  else ret tt.

(** The body of the loops over [commands] and [agents]; [kind] is
    [Command] or [Agent]. *)
Definition checkEntry (dir kind entry : jsstring) : M unit :=
  content <- readFile [dir; entry] ;;
  match parseFrontmatter content with
  | None => error (msg_entry_no_fm kind entry)
  | Some fm => checkKeys fm (msg_entry_no_key kind entry)
  end.

(** The [commands] and [agents] blocks, which differ in the directory and
    in the two words of their messages. *)
Definition checkEntries (dir kind plural : jsstring) : M unit :=
  found <- exists_ [dir] ;;
  if found then
    listing <- readdir [dir] ;;
    let entries := filter (fun f => ends_with (lit ".md") f) listing in
    for_each entries (checkEntry dir kind) ;;;
    console_log (lit "  " ++ plural ++ lit ": " ++ decimal (length entries)
                 ++ lit " found")
  else ret tt.

Definition checkCommands : M unit :=
  checkEntries COMMANDS (lit "Command") (lit "Commands").

Definition checkAgents : M unit :=
  checkEntries AGENTS (lit "Agent") (lit "Agents").

(** The end of [validatePlugin]: the warnings block, the errors block with
    [process.exit(1)], or the success line. *)
Definition printReport : M unit :=
  console_log [] ;;;
  s <- get_state ;;
  when (negb (Nat.eqb (length (warnings s)) 0))
    (console_log (lit "Warnings (" ++ decimal (length (warnings s))
                  ++ lit "):") ;;;
     for_each (warnings s) (fun w =>
       console_log (lit "  " ++ [9888] ++ lit " " ++ w)) ;;;
     console_log []) ;;;
  s <- get_state ;;
  when (negb (Nat.eqb (length (errors s)) 0))
    (console_log (lit "Errors (" ++ decimal (length (errors s))
                  ++ lit "):") ;;;
     for_each (errors s) (fun e =>
       console_log (lit "  " ++ [10007] ++ lit " " ++ e)) ;;;
     console_log [] ;;;
     exit 1) ;;;
  console_log ([10003] ++ lit " Plugin validation passed").

(** The directory blocks, in the order of the source. *)
Definition checkDirectories : M unit :=
  checkSkills ;;; checkRules ;;; checkCommands ;;; checkAgents.

(** The checks [validatePlugin] makes once the manifest is read as a
    truthy value. *)
Definition checkBundle (pluginJson : JsValue) : M unit :=
  checkName pluginJson ;;;
  checkRequiredFields pluginJson ;;;
  logName pluginJson ;;;
  checkLogo pluginJson ;;;
  checkDirectories.

(** The checks, then the report. *)
Definition validateManifest (pluginJson : JsValue) : M unit :=
  checkBundle pluginJson ;;; printReport.

(** [validatePlugin()]. *)
Definition validatePlugin : M unit :=
  pluginJson <- readJson MANIFEST ;;
  if negb (truthy pluginJson) then error msg_manifest_invalid
  else validateManifest pluginJson.

(** The script: [validatePlugin().catch(...)].  A promise that resolves
    lets the process end with code 0; a rejection is reported and the
    process exits with code 1. *)
Definition run : Report :=
  match validatePlugin initial with
  | (s, Done _) => {| final := s; uncaught := None; exit_code := 0 |}
  | (s, Exited code) => {| final := s; uncaught := None; exit_code := code |}
  | (s, Thrown e) => {| final := s; uncaught := Some e; exit_code := 1 |}
  end.

End Validator.

(** ** Concrete bundles *)

(** A directory tree; the oracle of a tree answers as a POSIX filesystem
    does: a path exists when it resolves to a node, only a file can be read,
    only a directory can be listed. *)
Inductive Node : Type :=
  | File (content : jsstring)
  | Dir (entries : list (jsstring * Node)).

Fixpoint child (name : jsstring) (entries : list (jsstring * Node))
  : option Node :=
  match entries with
  | [] => None
  | (n, node) :: rest => if decide (name = n) then Some node else child name rest
  end.

Fixpoint resolve (node : Node) (segments : list jsstring) : option Node :=
  match segments with
  | [] => Some node
  | seg :: rest =>
      match node with
      | Dir entries =>
          match child seg entries with
          | Some c => resolve c rest
          | None => None
          end
      | File _ => None
      end
  end.

(** The segments of the arguments of [path.join], split at slashes, without
    the empty and the [.] segments.  A [..] segment is left as it is and
    names no entry of a tree. *)
Definition segments_of (p : path) : list jsstring :=
  filter (fun seg => negb (bool_decide (seg = []) || bool_decide (seg = lit ".")))
         (concat (split_on 47 <$> p)).

(** The oracle of a tree.  A directory is listed in the order in which
    its entries are written, so a tree stands for a directory whose listing
    has that order; the examples write the entries in sorted order.  The
    paths the validator builds have no [..] segment unless the manifest's
    [logo] holds one. *)
Definition tree_fs (root : Node) : FS :=
  {| fs_access := fun p =>
       match resolve root (segments_of p) with
       | Some _ => true
       | None => false
       end;
     fs_readFile := fun p =>
       match resolve root (segments_of p) with
       | Some (File content) => Some content
       | _ => None
       end;
     fs_readdir := fun p =>
       match resolve root (segments_of p) with
       | Some (Dir entries) => Some (fst <$> entries)
       | _ => None
       end |}.

(** A parser that knows the listed documents only, each with the value
    [JSON.parse] gives for it. *)
Fixpoint parse_table (table : list (jsstring * JsValue)) (raw : jsstring)
  : option JsValue :=
  match table with
  | [] => None
  | (text, v) :: rest =>
      if decide (raw = text) then Some v else parse_table rest raw
  end.

Module Example.

(** A JSON object whose values are strings, as a document and as the
    value [JSON.parse] gives for it.  The keys and the values are taken
    free of quotes, backslashes and control characters, and the keys
    distinct. *)
Definition member (kv : string * string) : jsstring :=
  [DQUOTE] ++ lit kv.1 ++ [DQUOTE] ++ lit ":" ++ [DQUOTE] ++ lit kv.2
  ++ [DQUOTE].

Fixpoint members (kvs : list (string * string)) : jsstring :=
  match kvs with
  | [] => []
  | [kv] => member kv
  | kv :: rest => member kv ++ lit "," ++ members rest
  end.

Definition object_text (kvs : list (string * string)) : jsstring :=
  lit "{" ++ members kvs ++ lit "}".

Definition object_value (kvs : list (string * string)) : JsValue :=
  JObj ((fun kv => (lit kv.1, JStr (lit kv.2))) <$> kvs).

(** The manifest of the repository. *)
Definition manifest : list (string * string) :=
  [("name", "typescript-best-practices"); ("description", "TS rules");
   ("version", "1.0.0"); ("author", "ofershap"); ("license", "MIT")]%string.

(** Variants of it: a name that the pattern rejects, no license, and a
    logo. *)
Definition manifest_bad_name : list (string * string) :=
  [("name", "My_Plugin"); ("description", "TS rules");
   ("version", "1.0.0"); ("author", "ofershap"); ("license", "MIT")]%string.

Definition manifest_no_license : list (string * string) :=
  [("name", "typescript-best-practices"); ("description", "TS rules");
   ("version", "1.0.0"); ("author", "ofershap")]%string.

Definition manifest_logo : list (string * string) :=
  manifest ++ [("logo", "logo.png")]%string.

(** A manifest whose name is an object with a property [toString]:
    [{"name":{"toString":0}}]. *)
Definition unprintable_text : jsstring :=
  lit "{" ++ [DQUOTE] ++ lit "name" ++ [DQUOTE] ++ lit ":{" ++ [DQUOTE]
  ++ lit "toString" ++ [DQUOTE] ++ lit ":0}}".

Definition unprintable_value : JsValue :=
  JObj [(lit "name", JObj [(lit "toString", JNum true (lit "0"))])].

Definition json : jsstring -> option JsValue :=
  parse_table ((unprintable_text, unprintable_value)
               :: ((fun kvs => (object_text kvs, object_value kvs))
                   <$> [manifest; manifest_bad_name; manifest_no_license;
                        manifest_logo])).

(** A document with a [name] and a [description] in its frontmatter. *)
Definition document (name description : string) : jsstring :=
  lit "---" ++ [LF] ++ lit "name: " ++ lit name ++ [LF]
  ++ lit "description: " ++ lit description ++ [LF]
  ++ lit "---" ++ [LF] ++ [LF] ++ lit "Body." ++ [LF].

Definition manifest_dir (kvs : list (string * string)) : jsstring * Node :=
  (lit ".cursor-plugin", Dir [(lit "plugin.json", File (object_text kvs))]).

(** The directories of the repository: one skill, one rule, one
    command. *)
Definition directories : list (jsstring * Node) :=
  [(lit "skills",
    Dir [(lit "typescript-best-practices",
          Dir [(lit "SKILL.md",
                File (document "typescript-best-practices" "Use it"))])]);
   (lit "rules",
    Dir [(lit "best-practices.mdc", File (document "rule" "A rule"))]);
   (lit "commands",
    Dir [(lit "audit.md", File (document "audit" "Audit the code"))])].

Definition bundle_with (kvs : list (string * string)) : Node :=
  Dir (manifest_dir kvs :: directories).

Definition bundle : Node := bundle_with manifest.

(** The bundle with a file beside it that the validator never looks at. *)
Definition bundle_and_readme : Node :=
  Dir (manifest_dir manifest
       :: directories ++ [(lit "README.md", File (lit "# Best practices"))]).

(** The directories of the repository under the manifest whose name does
    not convert to a string. *)
Definition unprintable_name : Node :=
  Dir ((lit ".cursor-plugin", Dir [(lit "plugin.json", File unprintable_text)])
       :: directories).

(** A bundle with a regular file where [skills] should be: the path
    exists, and listing it fails. *)
Definition skills_is_a_file (kvs : list (string * string)) : Node :=
  Dir [manifest_dir kvs; (lit "skills", File (lit "not a directory"))].

(** A bundle with a rule and no [skills], [commands] or [agents]. *)
Definition only_rules : Node :=
  Dir [manifest_dir manifest;
       (lit "rules",
        Dir [(lit "best-practices.mdc", File (document "rule" "A rule"))])].

(** A bundle with two skills, one of which has no [SKILL.md]. *)
Definition skill_without_file : Node :=
  Dir [manifest_dir manifest;
       (lit "skills",
        Dir [(lit "draft", Dir []);
             (lit "typescript-best-practices",
              Dir [(lit "SKILL.md",
                    File (document "typescript-best-practices" "Use it"))])])].

(** A bundle whose one skill has the given [SKILL.md]. *)
Definition skill_with (content : jsstring) : Node :=
  Dir [manifest_dir manifest;
       (lit "skills",
        Dir [(lit "draft", Dir [(lit "SKILL.md", File content)])])].

(** The opening line, at once followed by the closing line. *)
Definition empty_block : jsstring := lit "---" ++ [LF] ++ lit "---" ++ [LF].

(** A closing line that no newline follows. *)
Definition unterminated : jsstring :=
  lit "---" ++ [LF] ++ lit "name: draft" ++ [LF] ++ lit "---".

(** A frontmatter block whose one line has the key [__proto__]. *)
Definition proto_document : jsstring :=
  lit "---" ++ [LF] ++ lit "__proto__: x" ++ [LF] ++ lit "---" ++ [LF].

(** A document without frontmatter. *)
Definition plain_document : jsstring :=
  lit "# Draft" ++ [LF] ++ [LF] ++ lit "Body." ++ [LF].





(** A bundle with no manifest. *)
Definition no_manifest : Node :=
  Dir [(lit "skills", Dir [])].

End Example.

(** ** Vocabulary of the properties *)

(** The key of a frontmatter line: a word character, then word characters
    and hyphens. *)
Definition key_syntax (k : jsstring) : Prop :=
  exists c ks, k = c :: ks /\ is_word c = true /\ forallb is_key_char ks = true.

(** [key: value] syntax: the key, a colon, white space, and a non-empty
    value that runs to the end of the line and holds no line terminator. *)
Definition line_syntax (line k v : jsstring) : Prop :=
  exists ws, line = k ++ [COLON] ++ ws ++ v /\ key_syntax k
    /\ forallb is_space ws = true /\ v <> [] /\ forallb is_dot v = true.

(** [needle] occurs in [hay] at index [i]. *)
Definition occurs_at (needle hay : jsstring) (i : nat) : Prop :=
  exists before after, hay = before ++ needle ++ after /\ length before = i.

(** The value the last line with key [k] gives, if a line has that key. *)
Definition last_line_with (k : jsstring) (lines : list jsstring)
    (v : jsstring) : Prop :=
  exists before line after v0,
    lines = before ++ line :: after /\ line_syntax line k v0 /\ v = trim v0
    /\ forall l' v', l' ∈ after -> ~ line_syntax l' k v'.

(** What a computation adds to the accumulators, the output and the trace
    when it starts from the empty state, and how it ends. *)
Definition recorded {A} (m : M A) : State := (m initial).1.
Definition outcome {A} (m : M A) : Res A := (m initial).2.

(** A state with more appended to each of its four lists. *)
Definition extend (s d : State) : State :=
  {| errors := errors s ++ errors d;
     warnings := warnings s ++ warnings d;
     stdout := stdout s ++ stdout d;
     trace := trace s ++ trace d |}.

(** A computation that only appends, and whose additions and outcome do
    not depend on what was accumulated before. *)
Definition frames {A} (m : M A) : Prop :=
  forall s, m s = (extend s (recorded m), outcome m).

(** Such a computation that, moreover, never exits the process. *)
Definition framed {A} (m : M A) : Prop :=
  frames m /\ forall c, outcome m <> Exited c.

(** The value [readJson] gives for the manifest: what [JSON.parse] makes of
    the file, and [null] when the file cannot be read or parsed. *)
Definition manifest_read (JSON_parse : jsstring -> option JsValue) (fs : FS)
  : JsValue :=
  match fs_readFile fs MANIFEST with
  | Some raw => match JSON_parse raw with Some v => v | None => JNull end
  | None => JNull
  end.

(** A state that holds the given operations and nothing else. *)
Definition touched (ops : list FsOp) : State :=
  {| errors := []; warnings := []; stdout := []; trace := ops |}.

(** A state that holds the given errors and nothing else. *)
Definition failed (es : list jsstring) : State :=
  {| errors := es; warnings := []; stdout := []; trace := [] |}.

(** The additions of a computation satisfy [Q]. *)
Definition records {A} (Q : State -> Prop) (m : M A) : Prop := Q (recorded m).

(** The errors the name check and the required-field loop record. *)
Definition name_errors (pluginJson : JsValue) : list jsstring :=
  match toString (get pluginJson NAME) with
  | Some name => if namePattern_test name then [] else [msg_name_pattern name]
  | None => []
  end.

Definition missing_fields (pluginJson : JsValue) : list jsstring :=
  filter (fun field => negb (truthy (get pluginJson field))) required_fields.

Definition field_errors (pluginJson : JsValue) : list jsstring :=
  msg_missing_field <$> missing_fields pluginJson.

(** What follows the checks of the manifest's own fields: the logo and the
    four directories. *)
Definition checkFiles (fs : FS) (pluginJson : JsValue) : M unit :=
  checkLogo fs pluginJson ;;; checkDirectories fs.

(** An error message about the manifest. *)
Definition is_manifest_error (e : jsstring) : bool :=
  starts_with (lit "plugin.json ") e.

(** Additions without a warning, whose errors all satisfy [P]. *)
Definition additions (P : jsstring -> bool) (d : State) : Prop :=
  warnings d = [] /\ Forall (fun e => P e = true) (errors d).

(** An error message about an entry of a directory: it starts with
    [Skill], [Rule], [Command] or [Agent], that is, with a capital. *)
Definition is_entry_error (e : jsstring) : bool :=
  match e with
  | c :: _ => is_upper c
  | [] => false
  end.

Definition not_manifest_error (e : jsstring) : bool :=
  negb (is_manifest_error e).

Definition not_skills_missing (e : jsstring) : bool :=
  negb (bool_decide (e = lit "skills/ directory is missing")).

(** An error message of the name check. *)
Definition is_name_pattern_error (e : jsstring) : bool :=
  starts_with (lit "plugin.json name ") e.

(** How many times a message was recorded. *)
Definition occurrences (msg : jsstring) (l : list jsstring) : nat :=
  length (filter (fun e => e = msg) l).

(** The manifest declares no logo, or declares it as a string. *)
Definition logo_well_typed (pluginJson : JsValue) : Prop :=
  truthy (get pluginJson LOGO) = false \/ exists p, get pluginJson LOGO = JStr p.

(** What [validatePlugin] still has to do after the name check, and after
    the loop over the required fields. *)
Definition afterFields (fs : FS) (pluginJson : JsValue) : M unit :=
  (logName pluginJson ;;; checkLogo fs pluginJson ;;; checkDirectories fs) ;;;
  printReport.

Definition afterName (fs : FS) (pluginJson : JsValue) : M unit :=
  (checkRequiredFields pluginJson ;;;
   logName pluginJson ;;; checkLogo fs pluginJson ;;; checkDirectories fs) ;;;
  printReport.

(** Two filesystems that answer every operation alike. *)
Definition same_answers (fs1 fs2 : FS) : Prop :=
  (forall p, fs_access fs1 p = fs_access fs2 p)
  /\ (forall p, fs_readFile fs1 p = fs_readFile fs2 p)
  /\ (forall p, fs_readdir fs1 p = fs_readdir fs2 p).


(** Additions that hold neither the error of a skill without [SKILL.md]
    nor a read of that file. *)
Definition apart_from (skill : jsstring) (d : State) : Prop :=
  Forall (fun e => e <> msg_skill_no_file skill) (errors d)
  /\ Forall (fun op => op <> OpReadFile [SKILLS; skill; SKILL_MD]) (trace d).

(** The three blocks that follow the [skills] block. *)
Definition checkOptional (fs : FS) : M unit :=
  checkRules fs ;;; checkCommands fs ;;; checkAgents fs.

(** What the [skills] block adds when the directory is absent. *)
Definition skills_missing : State :=
  {| errors := [msg_skills_missing]; warnings := []; stdout := [];
     trace := [OpAccess [SKILLS]] |}.

(** The names the pattern accepts: a lowercase letter or digit, alone or
    followed by letters, digits, dots and hyphens that end with a letter or
    digit. *)
Definition name_syntax (s : jsstring) : Prop :=
  exists c,
    is_name_edge c = true
    /\ (s = [c]
        \/ exists inner e,
             s = c :: inner ++ [e] /\ forallb is_name_inner inner = true
             /\ is_name_edge e = true).

(** Two filesystems answer an operation alike. *)
Definition answers_alike (fs1 fs2 : FS) (op : FsOp) : Prop :=
  match op with
  | OpAccess p => fs_access fs1 p = fs_access fs2 p
  | OpReadFile p => fs_readFile fs1 p = fs_readFile fs2 p
  | OpReaddir p => fs_readdir fs1 p = fs_readdir fs2 p
  end.

(** The second computation does what the first does, provided the
    operations the first performs are answered alike by both filesystems. *)
Definition follows (fs1 fs2 : FS) {A} (m1 m2 : M A) : Prop :=
  Forall (answers_alike fs1 fs2) (trace (recorded m1)) ->
  recorded m2 = recorded m1 /\ outcome m2 = outcome m1.

(** ** Vocabulary of the further properties *)

(** The text with every LF written as CR LF. *)
Fixpoint to_crlf (s : jsstring) : jsstring :=
  match s with
  | [] => []
  | c :: t => if c =? LF then CR :: LF :: to_crlf t else c :: to_crlf t
  end.

(** A frontmatter line for a key and a value, and a frontmatter block for
    a list of them, as an author writes it. *)
Definition render_line (kv : jsstring * jsstring) : jsstring :=
  kv.1 ++ lit ": " ++ kv.2.

Fixpoint join_lines (lines : list jsstring) : jsstring :=
  match lines with
  | [] => []
  | l :: rest =>
      match rest with
      | [] => l
      | _ :: _ => l ++ LF :: join_lines rest
      end
  end.

Definition render_frontmatter (kvs : list (jsstring * jsstring)) : jsstring :=
  OPENING ++ join_lines (render_line <$> kvs) ++ CLOSING.

(** A key and a value that can be written on one line and read back: the
    key has the syntax of a key and is not [__proto__], the value is not
    empty, holds no line terminator and has no white space around it. *)
Definition field_ok (kv : jsstring * jsstring) : Prop :=
  key_syntax kv.1 /\ kv.1 <> proto_key /\ kv.2 <> []
  /\ forallb is_dot kv.2 = true /\ trim kv.2 = kv.2.

(** The lines of the report that ends [validatePlugin]: a blank line, the
    warnings block when there are warnings, then the errors block or the
    line that announces success. *)
Definition warning_line (w : jsstring) : jsstring :=
  lit "  " ++ [9888] ++ lit " " ++ w.

Definition error_line (e : jsstring) : jsstring :=
  lit "  " ++ [10007] ++ lit " " ++ e.

Definition success_line : jsstring := [10003] ++ lit " Plugin validation passed".

Definition report_lines (ws es : list jsstring) : list jsstring :=
  [[]]
  ++ match ws with
     | [] => []
     | _ :: _ =>
         (lit "Warnings (" ++ decimal (length ws) ++ lit "):")
         :: (warning_line <$> ws) ++ [[]]
     end
  ++ match es with
     | [] => [success_line]
     | _ :: _ =>
         (lit "Errors (" ++ decimal (length es) ++ lit "):")
         :: (error_line <$> es) ++ [[]]
     end.

(** A line printed while the checks run: the line that announces the
    plugin, or the count of a directory. *)
Definition is_progress_line (line : jsstring) : bool :=
  starts_with (lit "Validating plugin: ") line
  || starts_with (lit "  Skills: ") line
  || starts_with (lit "  Rules: ") line
  || starts_with (lit "  Commands: ") line
  || starts_with (lit "  Agents: ") line.

(** Additions whose output is progress lines only. *)
Definition progress_only (d : State) : Prop :=
  Forall (fun line => is_progress_line line = true) (stdout d).

(** The operations a run may perform on a bundle whose manifest declares
    [logo]: reading the manifest, testing the logo, testing and listing the
    four directories, testing and reading the [SKILL.md] of a skill, and
    reading a rule, command or agent file with the right extension. *)
Definition within_bundle (logo : JsValue) (op : FsOp) : Prop :=
  match op with
  | OpAccess p =>
      (exists dir, dir ∈ [SKILLS; RULES; COMMANDS; AGENTS] /\ p = [dir])
      \/ (exists skill, p = [SKILLS; skill; SKILL_MD])
      \/ (exists q, logo = JStr q /\ p = [q])
  | OpReaddir p =>
      exists dir, dir ∈ [SKILLS; RULES; COMMANDS; AGENTS] /\ p = [dir]
  | OpReadFile p =>
      p = MANIFEST
      \/ (exists skill, p = [SKILLS; skill; SKILL_MD])
      \/ (exists f, p = [RULES; f]
            /\ ends_with (lit ".mdc") f || ends_with (lit ".md") f = true)
      \/ (exists dir f, dir ∈ [COMMANDS; AGENTS] /\ p = [dir; f]
            /\ ends_with (lit ".md") f = true)
  end.

(** Additions whose operations all stay within the bundle. *)
Definition confined (logo : JsValue) (d : State) : Prop :=
  Forall (within_bundle logo) (trace d).

(** Additions that print nothing. *)
Definition silent (d : State) : Prop := stdout d = [].

(** A document whose frontmatter gives each of the keys a non-empty
    value. *)
Definition has_keys (keys : list jsstring) (content : jsstring) : Prop :=
  exists fm : gmap (list N) (list N),
    parseFrontmatter content = Some fm
    /\ forall k : jsstring, k ∈ keys -> exists v, fm !! k = Some v /\ v <> [].

(** A skill with a [SKILL.md] that names and describes it. *)
Definition skill_ok (fs : FS) (skill : jsstring) : Prop :=
  fs_access fs [SKILLS; skill; SKILL_MD] = true
  /\ exists content,
       fs_readFile fs [SKILLS; skill; SKILL_MD] = Some content
       /\ has_keys [NAME; DESCRIPTION] content.

(** A readable file of a directory whose frontmatter has the keys. *)
Definition file_ok (fs : FS) (dir : jsstring) (keys : list jsstring)
    (f : jsstring) : Prop :=
  exists content,
    fs_readFile fs [dir; f] = Some content /\ has_keys keys content.

(** The [skills] directory exists, can be listed, and holds skills that
    conform. *)
Definition skills_ok (fs : FS) : Prop :=
  fs_access fs [SKILLS] = true
  /\ exists skills,
       fs_readdir fs [SKILLS] = Some skills /\ Forall (skill_ok fs) skills.

(** An optional directory: when it exists it can be listed and the files
    the block selects conform. *)
Definition directory_ok (fs : FS) (dir : jsstring) (sel : jsstring -> bool)
    (keys : list jsstring) : Prop :=
  fs_access fs [dir] = true ->
  exists listing,
    fs_readdir fs [dir] = Some listing
    /\ Forall (file_ok fs dir keys) (filter (fun f => sel f) listing).

(** The manifest: a name the pattern accepts, the required fields, and no
    logo or the path of a file that exists. *)
Definition manifest_ok (fs : FS) (m : JsValue) : Prop :=
  (exists name, toString (get m NAME) = Some name
                /\ namePattern_test name = true)
  /\ (forall field, field ∈ required_fields -> truthy (get m field) = true)
  /\ (truthy (get m LOGO) = false
      \/ exists p, get m LOGO = JStr p /\ fs_access fs [p] = true).

Definition conformant (JSON_parse : jsstring -> option JsValue) (fs : FS)
  : Prop :=
  manifest_ok fs (manifest_read JSON_parse fs)
  /\ skills_ok fs
  /\ directory_ok fs RULES
       (fun f => ends_with (lit ".mdc") f || ends_with (lit ".md") f)
       [DESCRIPTION]
  /\ directory_ok fs COMMANDS (fun f => ends_with (lit ".md") f)
       [NAME; DESCRIPTION]
  /\ directory_ok fs AGENTS (fun f => ends_with (lit ".md") f)
       [NAME; DESCRIPTION].

(** A computation that completes and records neither an error nor a
    warning. *)
Definition passes (m : M unit) : Prop :=
  errors (recorded m) = [] /\ warnings (recorded m) = []
  /\ outcome m = Done tt.

(** The files the [rules] block selects, and those the [commands] and
    [agents] blocks select. *)
Definition rule_file (f : jsstring) : bool :=
  ends_with (lit ".mdc") f || ends_with (lit ".md") f.

Definition md_file (f : jsstring) : bool := ends_with (lit ".md") f.

(** What the block of an optional directory does, read off the filesystem:
    the existence test and, when the directory exists, its listing and the
    read of every file the block selects, in the order of the listing. *)
Definition block_ops (fs : FS) (dir : jsstring) (sel : jsstring -> bool)
  : list FsOp :=
  OpAccess [dir]
  :: if fs_access fs [dir] then
       OpReaddir [dir]
       :: match fs_readdir fs [dir] with
          | Some listing =>
              (fun f => OpReadFile [dir; f]) <$> filter (fun f => sel f) listing
          | None => []
          end
     else [].

(** What such a block prints: the count of the selected files, when the
    directory exists and is listed. *)
Definition block_out (fs : FS) (dir label : jsstring) (sel : jsstring -> bool)
  : list jsstring :=
  if fs_access fs [dir] then
    match fs_readdir fs [dir] with
    | Some listing =>
        [lit "  " ++ label ++ lit ": "
         ++ decimal (length (filter (fun f => sel f) listing)) ++ lit " found"]
    | None => []
    end
  else [].

(** A directory that, when it exists, can be listed and whose selected
    files can be read. *)
Definition listable (fs : FS) (dir : jsstring) (sel : jsstring -> bool)
  : Prop :=
  fs_access fs [dir] = true ->
  exists listing,
    fs_readdir fs [dir] = Some listing
    /\ Forall (fun f => is_Some (fs_readFile fs [dir; f]))
              (filter (fun f => sel f) listing).

(** The operation of the logo check: the existence test of a logo that is
    a non-empty string. *)
Definition logo_ops (pluginJson : JsValue) : list FsOp :=
  match get pluginJson LOGO with
  | JStr (c :: p) => [OpAccess [c :: p]]
  | _ => []
  end.

(** The text [console.log] writes for a list of arguments, each followed
    by a line break, and the lines of that text. *)
Definition printed (out : list jsstring) : jsstring :=
  concat ((fun line => line ++ [LF]) <$> out).

Definition printed_lines (out : list jsstring) : list jsstring :=
  split_on LF (printed out).

(** Additions none of whose output holds the check mark of the success
    line. *)
Definition unmarked (d : State) : Prop :=
  Forall (fun line : jsstring => 10003 ∉ line) (stdout d).

(** Further bundles: manifests that are valid JSON and not what the
    validator expects. *)
Module Cases.

(** The manifest [null]. *)
Definition null_manifest : Node :=
  Dir [(lit ".cursor-plugin", Dir [(lit "plugin.json", File (lit "null"))]);
       (lit "skills", Dir [])].

(** A manifest without a name, and one whose name is the empty string. *)
Definition manifest_no_name : list (string * string) :=
  [("description", "TS rules"); ("version", "1.0.0"); ("author", "ofershap");
   ("license", "MIT")]%string.

Definition manifest_empty_name : list (string * string) :=
  [("name", EmptyString); ("description", "TS rules"); ("version", "1.0.0");
   ("author", "ofershap"); ("license", "MIT")]%string.

(** A manifest that lacks a license and whose logo is [true]. *)
Definition logo_true_text : jsstring :=
  lit "{" ++ Example.members Example.manifest_no_license ++ lit ","
  ++ [DQUOTE] ++ lit "logo" ++ [DQUOTE] ++ lit ":true}".

Definition logo_true_value : JsValue :=
  JObj (((fun kv : string * string => (lit kv.1, JStr (lit kv.2)))
         <$> Example.manifest_no_license)
        ++ [(lit "logo", JBool true)]).

(** A manifest whose name holds a line break followed by the text of the
    success line; in the document the line break is the escape [\n]. *)
Definition forged_text : jsstring :=
  lit "{" ++ [DQUOTE] ++ lit "name" ++ [DQUOTE] ++ lit ":" ++ [DQUOTE]
  ++ lit "x" ++ [92; 110] ++ success_line ++ [DQUOTE] ++ lit ","
  ++ Example.members manifest_no_name ++ lit "}".

Definition forged_value : JsValue :=
  JObj ((lit "name", JStr (lit "x" ++ [LF] ++ success_line))
        :: ((fun kv : string * string => (lit kv.1, JStr (lit kv.2)))
            <$> manifest_no_name)).

Definition json : jsstring -> option JsValue :=
  parse_table [(lit "null", JNull);
               (Example.object_text manifest_no_name,
                Example.object_value manifest_no_name);
               (Example.object_text manifest_empty_name,
                Example.object_value manifest_empty_name);
               (logo_true_text, logo_true_value);
               (Example.unprintable_text, Example.unprintable_value);
               (forged_text, forged_value)].

Definition bundle_with_text (text : jsstring) : Node :=
  Dir ((lit ".cursor-plugin", Dir [(lit "plugin.json", File text)])
       :: Example.directories).

(** A bundle whose [rules] and [commands] hold other entries beside the
    files the validator reads.  As in the other examples the entries of a
    directory are written in the sorted order in which it is listed. *)
Definition mixed : Node :=
  Dir [Example.manifest_dir Example.manifest;
       (lit "skills", Dir []);
       (lit "rules",
        Dir [(lit "best-practices.mdc", File (Example.document "rule" "A rule"));
             (lit "drafts", Dir []);
             (lit "notes.txt", File (lit "not a rule"));
             (lit "style.md", File (Example.document "style" "A rule"))]);
       (lit "commands",
        Dir [(lit "README", File (lit "notes"));
             (lit "audit.md", File (Example.document "audit" "Audit the code"));
             (lit "audit.mdc", File (lit "not a command"))])].

(** A bundle whose [rules] holds a directory named like a rule. *)
Definition rule_directory : Node :=
  Dir [Example.manifest_dir Example.manifest;
       (lit "skills", Dir []);
       (lit "rules",
        Dir [(lit "first.md", File (Example.document "first" "A rule"));
             (lit "legacy.md", Dir []);
             (lit "style.md", File (Example.document "style" "A rule"))])].

(** A bundle without [skills], with a rule, a command beside a file that
    is none, and an agent. *)
Definition no_skills : Node :=
  Dir [Example.manifest_dir Example.manifest;
       (lit "agents",
        Dir [(lit "planner.md", File (Example.document "planner" "Plans"))]);
       (lit "commands",
        Dir [(lit "README", File (lit "notes"));
             (lit "audit.md", File (Example.document "audit" "Audit the code"))]);
       (lit "rules",
        Dir [(lit "best-practices.mdc", File (Example.document "rule" "A rule"))])].

(** A document whose one line has the key [constructor], a name that
    [Object.prototype] defines as [__proto__] is. *)
Definition constructor_document : jsstring :=
  lit "---" ++ [LF] ++ lit "constructor: x" ++ [LF] ++ lit "---" ++ [LF].

(** The head of the [SKILL.md] of the repository, whose description is
    written on the lines that follow its key, and a bundle with that
    skill. *)
Definition repository_skill : jsstring :=
  lit "---" ++ [LF]
  ++ lit "name: typescript-best-practices" ++ [LF]
  ++ lit "description:" ++ [LF]
  ++ lit "  Modern TypeScript patterns your AI agent should use. Strict mode, discriminated unions, satisfies"
  ++ [LF]
  ++ lit "  operator, const assertions, and type-safe patterns for TypeScript 5.x."
  ++ [LF]
  ++ lit "metadata:" ++ [LF]
  ++ lit "  tags: typescript, type-safety, best-practices" ++ [LF]
  ++ lit "---" ++ [LF] ++ [LF] ++ lit "## When to use" ++ [LF].

Definition repository : Node :=
  Dir [Example.manifest_dir Example.manifest;
       (lit "skills",
        Dir [(lit "typescript-best-practices",
              Dir [(lit "SKILL.md", File repository_skill)])])].

End Cases.

(** ** Properties *)

Lemma starts_with_prefix p s :
  starts_with p s = true <-> exists r, s = p ++ r.
Proof.
  revert s. induction p as [|a p IH]; intros s; simpl.
  - split; [eauto | done].
  - destruct s as [|b s].
    + split; [done | intros [r Hr]; discriminate].
    + rewrite andb_true_iff, N.eqb_eq, IH. split.
      * intros [-> [r ->]]. eauto.
      * intros [r Hr]. injection Hr as -> ->. eauto.
Qed.

Lemma index_from_bound needle hay i j :
  index_from needle hay i = Some j ->
  exists k, j = (i + k)%nat /\ starts_with needle (drop k hay) = true
    /\ forall k', (k' < k)%nat -> starts_with needle (drop k' hay) = false.
Proof.
  revert i. induction hay as [|c t IH]; intros i; simpl.
  - destruct (starts_with needle []) eqn:E; [|done].
    intros [= <-]. exists 0%nat. simpl. split; [lia|]. split; [done|]. lia.
  - destruct (starts_with needle (c :: t)) eqn:E.
    + intros [= <-]. exists 0%nat. simpl. split; [lia|]. split; [done|]. lia.
    + intros H. destruct (IH _ H) as (k & -> & Hk & Hmin).
      exists (S k). simpl. split; [lia|]. split; [done|].
      intros [|k'] ?; simpl; [done|]. apply Hmin. lia.
Qed.

Lemma index_from_none needle hay i :
  index_from needle hay i = None ->
  forall k, starts_with needle (drop k hay) = false.
Proof.
  revert i. induction hay as [|c t IH]; intros i; simpl.
  - destruct (starts_with needle []) eqn:E; [done|].
    intros _ k. by rewrite drop_nil.
  - destruct (starts_with needle (c :: t)) eqn:E; [done|].
    intros H [|k]; simpl; [done|]. by eapply IH.
Qed.

Lemma indexOf_Some needle hay from j :
  indexOf needle hay from = Some j ->
  (from <= j)%nat /\ starts_with needle (drop j hay) = true
  /\ forall j', (from <= j' < j)%nat -> starts_with needle (drop j' hay) = false.
Proof.
  unfold indexOf. intros H.
  destruct (index_from_bound _ _ _ _ H) as (k & -> & Hk & Hmin).
  rewrite drop_drop in Hk. split; [lia|]. split; [done|].
  intros j' Hj'. specialize (Hmin (j' - from)%nat).
  rewrite drop_drop in Hmin. replace (from + (j' - from))%nat with j' in Hmin by lia.
  apply Hmin. lia.
Qed.

Lemma indexOf_None needle hay from :
  indexOf needle hay from = None ->
  forall j, (from <= j)%nat -> starts_with needle (drop j hay) = false.
Proof.
  unfold indexOf. intros H j Hj.
  pose proof (index_from_none _ _ _ H (j - from)%nat) as Hn.
  rewrite drop_drop in Hn. by replace (from + (j - from))%nat with j in Hn by lia.
Qed.

Lemma split_on_nonempty sep s : split_on sep s <> [].
Proof.
  destruct s as [|c t]; simpl; [done|].
  destruct (c =? sep); [done|]. by destruct (split_on sep t).
Qed.

Lemma split_on_app sep a b :
  split_on sep (a ++ sep :: b) = split_on sep a ++ split_on sep b.
Proof.
  induction a as [|c a IH]; simpl.
  - by rewrite N.eqb_refl.
  - destruct (c =? sep); [by rewrite IH|].
    rewrite IH. pose proof (split_on_nonempty sep a).
    by destruct (split_on sep a).
Qed.

Lemma drop_spaces_app ws v :
  forallb is_space ws = true -> drop_spaces (ws ++ v) = drop_spaces v.
Proof.
  induction ws as [|c ws IH]; simpl; [done|].
  intros [Hc Hws]%andb_true_iff. rewrite Hc. auto.
Qed.

Lemma trim_app_spaces ws v :
  forallb is_space ws = true -> trim (ws ++ v) = trim v.
Proof. intros H. unfold trim. by rewrite drop_spaces_app. Qed.

Lemma match_value_sound s v :
  match_value s = Some v ->
  exists ws, s = ws ++ v /\ forallb is_space ws = true
    /\ v <> [] /\ forallb is_dot v = true.
Proof.
  revert v. induction s as [|c t IH]; intros v; [done|].
  assert (Hstop : (if forallb is_dot (c :: t) then Some (c :: t) else None)
                  = Some v ->
          exists ws, c :: t = ws ++ v /\ forallb is_space ws = true
            /\ v <> [] /\ forallb is_dot v = true).
  { destruct (forallb is_dot (c :: t)) eqn:E; [|done].
    intros [= <-]. exists []. done. }
  cbn [match_value]. cbv zeta.
  destruct (is_space c) eqn:Hc; [|done].
  destruct (match_value t) as [v'|] eqn:Ht; [|done].
  intros [= ->]. destruct (IH _ eq_refl) as (ws & -> & Hws & Hv).
  exists (c :: ws). simpl. by rewrite Hc, Hws.
Qed.

Lemma match_value_complete ws v :
  forallb is_space ws = true -> v <> [] -> forallb is_dot v = true ->
  is_Some (match_value (ws ++ v)).
Proof.
  intros Hws Hv Hdot. induction ws as [|c ws IH].
  - destruct v as [|c t]; [done|]. cbn [app match_value]. cbv zeta.
    rewrite Hdot. destruct (is_space c); [|done].
    destruct (match_value t); done.
  - apply andb_true_iff in Hws as [Hc Hws]. specialize (IH Hws).
    cbn [app match_value]. cbv zeta. rewrite Hc.
    destruct IH as [v' ->]. done.
Qed.

Lemma match_value_trim s v : match_value s = Some v -> trim v = trim s.
Proof.
  intros (ws & -> & Hws & _)%match_value_sound. by rewrite trim_app_spaces.
Qed.

Lemma span_spec p s a b :
  span p s = (a, b) ->
  s = a ++ b /\ forallb p a = true /\ (match b with [] => True | c :: _ => p c = false end).
Proof.
  revert a b. induction s as [|c t IH]; intros a b; simpl.
  - by intros [= <- <-].
  - destruct (p c) eqn:Hc.
    + destruct (span p t) as [a' b'] eqn:E. intros [= <- <-].
      destruct (IH _ _ eq_refl) as (-> & Ha & Hb). simpl. by rewrite Hc, Ha.
    + intros [= <- <-]. simpl. by rewrite Hc.
Qed.

Lemma span_app p a c r :
  forallb p a = true -> p c = false -> span p (a ++ c :: r) = (a, c :: r).
Proof.
  intros Ha Hc. induction a as [|x a IH]; simpl.
  - by rewrite Hc.
  - apply andb_true_iff in Ha as [Hx Ha]. by rewrite Hx, IH.
Qed.

Lemma match_line_sound line k v :
  match_line line = Some (k, v) -> line_syntax line k v.
Proof.
  unfold match_line. destruct line as [|c t]; [done|].
  destruct (is_word c) eqn:Hc; [|done].
  destruct (span is_key_char t) as [ks rest] eqn:Hspan.
  apply span_spec in Hspan as (-> & Hks & _).
  destruct rest as [|d after]; [done|].
  destruct (d =? COLON) eqn:Hd; [|done]. apply N.eqb_eq in Hd as ->.
  destruct (match_value after) as [v'|] eqn:Hv; [|done].
  intros [= <- <-]. apply match_value_sound in Hv as (ws & -> & Hws & Hne & Hdot).
  exists ws. split; [by simplify_list_eq|]. split; [|done].
  by exists c, ks.
Qed.

Lemma match_line_complete line k v :
  line_syntax line k v ->
  exists v', match_line line = Some (k, v') /\ trim v' = trim v.
Proof.
  intros (ws & -> & (c & ks & -> & Hc & Hks) & Hws & Hne & Hdot).
  destruct (match_value_complete ws v Hws Hne Hdot) as [v' Hv'].
  exists v'. split.
  - cbn [app match_line]. rewrite Hc.
    rewrite (span_app is_key_char ks COLON (ws ++ v) Hks eq_refl).
    by rewrite N.eqb_refl, Hv'.
  - rewrite (match_value_trim _ _ Hv'). by apply trim_app_spaces.
Qed.

(** The matcher decides the syntax, and its second group trims to the
    value of every reading of the line. *)
Lemma match_line_none line :
  match_line line = None <-> forall k v, ~ line_syntax line k v.
Proof.
  split.
  - intros H k v (v' & Hv' & _)%match_line_complete. congruence.
  - intros H. destruct (match_line line) as [[k v]|] eqn:E; [|done].
    apply match_line_sound in E. by destruct (H k v).
Qed.

Lemma line_syntax_key_unique line k1 v1 k2 v2 :
  line_syntax line k1 v1 -> line_syntax line k2 v2 ->
  k1 = k2 /\ trim v1 = trim v2.
Proof.
  intros (a & Ha & Hta)%match_line_complete (b & Hb & Htb)%match_line_complete.
  rewrite Ha in Hb. injection Hb as -> ->. split; congruence.
Qed.

Lemma occurs_at_starts needle hay i :
  needle <> [] ->
  occurs_at needle hay i <-> starts_with needle (drop i hay) = true.
Proof.
  intros Hne. rewrite starts_with_prefix. split.
  - intros (before & after & -> & <-). exists after.
    by rewrite drop_app_length.
  - intros [after Hafter]. exists (take i hay), after.
    rewrite <- Hafter, take_drop. split; [done|].
    apply length_take_le. destruct (decide (i <= length hay)%nat); [done|].
    rewrite drop_ge in Hafter by lia. by destruct needle.
Qed.

Lemma fields_set_lookup (k v : jsstring) (fields : gmap (list N) (list N))
    (j : jsstring) :
  j <> proto_key ->
  fields_set k v fields !! j = if decide (k = j) then Some v else fields !! j.
Proof.
  intros Hj. unfold fields_set. destruct (decide (k = proto_key)) as [->|Hk].
  - by rewrite decide_False.
  - by rewrite lookup_insert.
Qed.

Lemma fields_set_proto (k v : jsstring) (fields : gmap (list N) (list N)) :
  fields_set k v fields !! proto_key = fields !! proto_key.
Proof.
  unfold fields_set. destruct (decide (k = proto_key)) as [->|Hk]; [done|].
  by rewrite lookup_insert_ne.
Qed.

Lemma foldl_absorb_proto (lines : list jsstring) (fields : gmap (list N) (list N)) :
  foldl absorb_line fields lines !! proto_key = fields !! proto_key.
Proof.
  revert fields. induction lines as [|x l IH]; intros fields; simpl; [done|].
  rewrite IH. unfold absorb_line.
  destruct (match_line x) as [[k v]|]; [apply fields_set_proto | done].
Qed.

Lemma last_line_with_nil k v : ~ last_line_with k [] v.
Proof. intros (before & line & after & v0 & H & _). by destruct before. Qed.

Lemma last_line_with_cons k x l v :
  last_line_with k (x :: l) v <->
  last_line_with k l v
  \/ ((exists v0, line_syntax x k v0 /\ v = trim v0)
      /\ forall l' v', l' ∈ l -> ~ line_syntax l' k v').
Proof.
  split.
  - intros (before & line & after & v0 & H & Hline & -> & Hafter).
    destruct before as [|b before]; simplify_list_eq.
    + right. eauto.
    + left. by exists before, line, after, v0.
  - intros [(before & line & after & v0 & -> & Hline & -> & Hafter)
           |[(v0 & Hline & ->) Hafter]].
    + by exists (x :: before), line, after, v0.
    + by exists [], x, l, v0.
Qed.

Lemma foldl_absorb_lookup (lines : list jsstring) (fields : gmap (list N) (list N))
    (j v : jsstring) :
  j <> proto_key ->
  foldl absorb_line fields lines !! j = Some v <->
  last_line_with j lines v
  \/ ((forall l' v', l' ∈ lines -> ~ line_syntax l' j v')
      /\ fields !! j = Some v).
Proof.
  intros Hj. revert fields.
  induction lines as [|x l IH]; intros fields; simpl.
  - split; [intros H; right; split; [|done] | intros [H|[_ H]]; [|done]].
    + intros l' v' Hl'. by apply elem_of_nil in Hl'.
    + by apply last_line_with_nil in H.
  - rewrite IH, last_line_with_cons. unfold absorb_line.
    destruct (match_line x) as [[k v1]|] eqn:Hx.
    + pose proof (match_line_sound _ _ _ Hx) as Hsyn.
      rewrite fields_set_lookup by done.
      destruct (decide (k = j)) as [->|Hk].
      * split.
        -- intros [H|[Hl [= <-]]]; [by left; left|]. left. right.
           split; [by exists v1 | done].
        -- intros [[H|[(v0 & Hv0 & ->) Hl]]|[Hno _]]; [by left| |].
           ++ right. split; [done|]. f_equal.
              by destruct (line_syntax_key_unique _ _ _ _ _ Hsyn Hv0).
           ++ destruct (Hno x v1); [apply elem_of_cons; by left | done].
      * split.
        -- intros [H|[Hl Hf]]; [by left; left|]. right. split; [|done].
           intros l' v' [->|Hl']%elem_of_cons; [|by apply Hl].
           intros Hv'. by destruct (line_syntax_key_unique _ _ _ _ _ Hsyn Hv').
        -- intros [[H|[(v0 & Hv0 & ->) Hl]]|[Hno Hf]]; [by left| |].
           ++ by destruct (line_syntax_key_unique _ _ _ _ _ Hsyn Hv0).
           ++ right. split; [|done]. intros l' v' Hl'. apply Hno.
              apply elem_of_cons; by right.
    + pose proof (proj1 (match_line_none _) Hx) as Hx'. clear Hx.
      rename Hx' into Hx. split.
      * intros [H|[Hl Hf]]; [by left; left|]. right. split; [|done].
        intros l' v' [->|Hl']%elem_of_cons; [apply Hx | by apply Hl].
      * intros [[H|[(v0 & Hv0 & ->) Hl]]|[Hno Hf]]; [by left| |].
        -- by destruct (Hx j v0).
        -- right. split; [|done]. intros l' v' Hl'. apply Hno.
           apply elem_of_cons; by right.
Qed.

(** The shape of a document that has frontmatter. *)
Lemma parseFrontmatter_Some content fields :
  parseFrontmatter content = Some fields ->
  exists block rest,
    normalize content = OPENING ++ block ++ CLOSING ++ rest
    /\ fields = foldl absorb_line ∅ (split_on LF block)
    /\ forall j, (4 <= j < 4 + length block)%nat ->
         ~ occurs_at CLOSING (normalize content) j.
Proof.
  unfold parseFrontmatter. cbv zeta.
  destruct (starts_with OPENING (normalize content)) eqn:Hopen; [|done].
  simpl negb. cbv iota.
  destruct (indexOf CLOSING (normalize content) 4) as [closing|] eqn:Hidx;
    [|done].
  intros [= <-].
  apply indexOf_Some in Hidx as (Hge & Hat & Hmin).
  apply starts_with_prefix in Hopen as [r Hr].
  apply starts_with_prefix in Hat as [rest Hrest].
  set (n := normalize content) in *.
  assert (Hlen : (closing + length CLOSING <= length n)%nat).
  { assert (length (drop closing n) = length (CLOSING ++ rest)) as Hl
      by by rewrite Hrest.
    rewrite length_drop, length_app in Hl. simpl in Hl. simpl. lia. }
  exists (slice 4 closing n), rest. unfold slice.
  assert (Htake : take closing n = OPENING ++ take (closing - 4) (drop 4 n)).
  { replace closing with (4 + (closing - 4))%nat at 1 by lia.
    rewrite <- take_take_drop. f_equal. rewrite Hr. reflexivity. }
  split; [|split; [done|]].
  - rewrite <- (take_drop closing n) at 1. rewrite Htake, Hrest.
    by rewrite <- !app_assoc.
  - intros j Hj Hocc. apply occurs_at_starts in Hocc; [|done].
    rewrite Hmin in Hocc; [done|].
    rewrite length_take, length_drop in Hj. simpl in Hlen. lia.
Qed.

Lemma parseFrontmatter_is_Some content :
  is_Some (parseFrontmatter content) <->
  starts_with OPENING (normalize content) = true
  /\ exists i, (4 <= i)%nat /\ occurs_at CLOSING (normalize content) i.
Proof.
  unfold parseFrontmatter. cbv zeta.
  destruct (starts_with OPENING (normalize content)) eqn:Hopen; simpl.
  - destruct (indexOf CLOSING (normalize content) 4) as [closing|] eqn:Hidx.
    + split; [intros _; split; [done|] | done].
      apply indexOf_Some in Hidx as (Hge & Hat & _).
      exists closing. split; [done|]. by apply occurs_at_starts.
    + split; [by intros [? ?] | intros [_ (i & Hi & Hocc)]].
      apply occurs_at_starts in Hocc; [|done].
      by rewrite (indexOf_None _ _ _ Hidx i Hi) in Hocc.
  - split; [by intros [? ?] | by intros [? _]].
Qed.

Lemma parseFrontmatter_no_opening content :
  starts_with OPENING (normalize content) = false ->
  parseFrontmatter content = None.
Proof. unfold parseFrontmatter. cbv zeta. by intros ->. Qed.

(** *** Computations that only append *)

Lemma extend_initial_l d : extend initial d = d.
Proof. by destruct d. Qed.

Lemma extend_initial_r s : extend s initial = s.
Proof. destruct s. unfold extend. simpl. by rewrite !app_nil_r. Qed.

Lemma extend_assoc s d e : extend (extend s d) e = extend s (extend d e).
Proof. unfold extend. simpl. by rewrite !app_assoc. Qed.

Lemma framed_ret {A} (a : A) : framed (ret a).
Proof. split; [|done]. intros s. unfold recorded, outcome, ret. simpl. by rewrite extend_initial_r. Qed.

Lemma framed_throw {A} e : framed (@throw A e).
Proof. split; [|done]. intros s. unfold recorded, outcome, throw. simpl. by rewrite extend_initial_r. Qed.

Lemma framed_error msg : framed (error msg).
Proof. split; [|done]. intros s. unfold recorded, outcome, error, extend. simpl. by rewrite !app_nil_r. Qed.

Lemma framed_warn msg : framed (warn msg).
Proof. split; [|done]. intros s. unfold recorded, outcome, warn, extend. simpl. by rewrite !app_nil_r. Qed.

Lemma framed_console_log line : framed (console_log line).
Proof. split; [|done]. intros s. unfold recorded, outcome, console_log, extend. simpl. by rewrite !app_nil_r. Qed.

Lemma framed_touch op : framed (touch op).
Proof. split; [|done]. intros s. unfold recorded, outcome, touch, extend. simpl. by rewrite !app_nil_r. Qed.

(** How a sequence starts from the empty state, by the outcome of its
    first part. *)
Lemma bind_run {A B} (m : M A) (k : A -> M B) s :
  framed m ->
  bind m k s =
    match outcome m with
    | Done a => k a (extend s (recorded m))
    | Thrown e => (extend s (recorded m), Thrown e)
    | Exited c => (extend s (recorded m), Exited c)
    end.
Proof.
  intros [Hm _]. unfold bind. rewrite (Hm s). by destruct (outcome m).
Qed.

Lemma framed_bind {A B} (m : M A) (k : A -> M B) :
  framed m -> (forall a, framed (k a)) -> framed (bind m k).
Proof.
  intros Hm Hk. split.
  - intros s. unfold recorded at 1, outcome at 1.
    rewrite !(bind_run m k) by done. rewrite extend_initial_l.
    destruct (outcome m) as [a| |]; [|done..].
    destruct (Hk a) as [Hka _].
    rewrite (Hka (extend s (recorded m))), (Hka (recorded m)). simpl.
    by rewrite extend_assoc.
  - intros c. unfold outcome at 1. rewrite bind_run by done.
    rewrite extend_initial_l. destruct Hm as [_ Hm].
    destruct (outcome m) as [a|e|c'] eqn:E; [|done|by destruct (Hm c')].
    destruct (Hk a) as [Hka Hne]. rewrite (Hka (recorded m)). apply Hne.
Qed.

Lemma try_catch_run {A} (m : M A) (h : Exn -> M A) s :
  framed m ->
  try_catch m h s =
    match outcome m with
    | Thrown e => h e (extend s (recorded m))
    | r => (extend s (recorded m), r)
    end.
Proof.
  intros [Hm _]. unfold try_catch. rewrite (Hm s). by destruct (outcome m).
Qed.

Lemma framed_try_catch {A} (m : M A) (h : Exn -> M A) :
  framed m -> (forall e, framed (h e)) -> framed (try_catch m h).
Proof.
  intros Hm Hh. split.
  - intros s. unfold recorded at 1, outcome at 1.
    rewrite !(try_catch_run m h) by done. rewrite extend_initial_l.
    destruct (outcome m) as [a|e|c]; [done| |done].
    destruct (Hh e) as [Hhe _].
    rewrite (Hhe (extend s (recorded m))), (Hhe (recorded m)). simpl.
    by rewrite extend_assoc.
  - intros c. unfold outcome at 1. rewrite try_catch_run by done.
    rewrite extend_initial_l. destruct Hm as [_ Hm].
    destruct (outcome m) as [a|e|c'] eqn:E; [done| |by destruct (Hm c')].
    destruct (Hh e) as [Hhe Hne]. rewrite (Hhe (recorded m)). apply Hne.
Qed.

Lemma framed_when b m : framed m -> framed (when b m).
Proof. destruct b; [done|]. intros _. apply framed_ret. Qed.

Lemma framed_for_each {A} (l : list A) (body : A -> M unit) :
  (forall x, framed (body x)) -> framed (for_each l body).
Proof.
  intros Hbody. induction l as [|x l IH]; simpl.
  - apply framed_ret.
  - apply framed_bind; [apply Hbody | by intros _].
Qed.

Lemma framed_to_string v : framed (to_string v).
Proof. unfold to_string. destruct (toString v); [apply framed_ret | apply framed_throw]. Qed.

Create HintDb framed.
#[export] Hint Resolve framed_ret framed_throw framed_error framed_warn
  framed_console_log framed_touch framed_when framed_to_string : framed.

(** Reduces a goal [framed m] along the structure of [m]. *)
Ltac framed_step :=
  match goal with
  | |- forall _, framed _ => intros ?
  | |- framed (bind _ _) => apply framed_bind; [|intros ?]
  | |- framed (try_catch _ _) => apply framed_try_catch; [|intros ?]
  | |- framed (for_each _ _) => apply framed_for_each; intros ?
  | |- framed (when _ _) => apply framed_when
  | |- framed (match ?x with _ => _ end) => destruct x
  | |- framed _ => solve [auto with framed]
  end.
Ltac framed := repeat framed_step.

Section Framed.
Variable JSON_parse : jsstring -> option JsValue.
Variable fs : FS.

Lemma framed_access p : framed (access fs p).
Proof. unfold access. framed. Qed.

Lemma framed_readFile p : framed (readFile fs p).
Proof. unfold readFile. framed. Qed.

Lemma framed_readdir p : framed (readdir fs p).
Proof. unfold readdir. framed. Qed.

Lemma framed_parse raw : framed (parse JSON_parse raw).
Proof. unfold parse. framed. Qed.

Hint Resolve framed_access framed_readFile framed_readdir framed_parse
  : framed.

Lemma framed_exists_ p : framed (exists_ fs p).
Proof. unfold exists_. framed. Qed.

Lemma framed_readJson p : framed (readJson JSON_parse fs p).
Proof. unfold readJson. framed. Qed.

Lemma framed_path_join v : framed (path_join v).
Proof. unfold path_join. framed. Qed.

Hint Resolve framed_exists_ framed_readJson framed_path_join : framed.

Lemma framed_checkName m : framed (checkName m).
Proof. unfold checkName. framed. Qed.

Lemma framed_checkRequiredFields m : framed (checkRequiredFields m).
Proof. unfold checkRequiredFields. framed. Qed.

Lemma framed_logName m : framed (logName m).
Proof. unfold logName. framed. Qed.

Lemma framed_checkLogo m : framed (checkLogo fs m).
Proof. unfold checkLogo. framed. Qed.

Lemma framed_checkKeys fm no_key : framed (checkKeys fm no_key).
Proof. unfold checkKeys. framed. Qed.

Hint Resolve framed_checkName framed_checkRequiredFields framed_logName
  framed_checkLogo framed_checkKeys : framed.

Lemma framed_checkSkill skill : framed (checkSkill fs skill).
Proof. unfold checkSkill. framed. Qed.

Lemma framed_checkRule rule : framed (checkRule fs rule).
Proof. unfold checkRule. framed. Qed.

Lemma framed_checkEntry dir kind entry : framed (checkEntry fs dir kind entry).
Proof. unfold checkEntry. framed. Qed.

Hint Resolve framed_checkSkill framed_checkRule framed_checkEntry : framed.

Lemma framed_checkSkills : framed (checkSkills fs).
Proof. unfold checkSkills. framed. Qed.

Lemma framed_checkRules : framed (checkRules fs).
Proof. unfold checkRules. framed. Qed.

Lemma framed_checkEntries dir kind plural :
  framed (checkEntries fs dir kind plural).
Proof. unfold checkEntries. framed. Qed.

Hint Resolve framed_checkSkills framed_checkRules framed_checkEntries
  : framed.

Lemma framed_checkCommands : framed (checkCommands fs).
Proof. apply framed_checkEntries. Qed.

Lemma framed_checkAgents : framed (checkAgents fs).
Proof. apply framed_checkEntries. Qed.

Hint Resolve framed_checkCommands framed_checkAgents : framed.

Lemma framed_checkDirectories : framed (checkDirectories fs).
Proof. unfold checkDirectories. framed. Qed.

Hint Resolve framed_checkDirectories : framed.

Lemma framed_checkBundle m : framed (checkBundle fs m).
Proof. unfold checkBundle. framed. Qed.

End Framed.

#[export] Hint Resolve framed_access framed_readFile framed_readdir
  framed_parse framed_exists_ framed_readJson framed_path_join
  framed_checkName framed_checkRequiredFields framed_logName
  framed_checkLogo framed_checkKeys framed_checkSkill framed_checkRule framed_checkEntry
  framed_checkSkills framed_checkRules framed_checkEntries
  framed_checkCommands framed_checkAgents
  framed_checkDirectories framed_checkBundle : framed.

Lemma framed_checkOptional fs : framed (checkOptional fs).
Proof. unfold checkOptional. framed. Qed.

#[export] Hint Resolve framed_checkOptional : framed.

Lemma recorded_bind {A B} (m : M A) (k : A -> M B) :
  framed m -> (forall a, framed (k a)) ->
  recorded (bind m k) =
    match outcome m with
    | Done a => extend (recorded m) (recorded (k a))
    | _ => recorded m
    end.
Proof.
  intros Hm Hk. unfold recorded at 1. rewrite bind_run by done.
  rewrite extend_initial_l. destruct (outcome m) as [a| |]; [|done..].
  by rewrite (proj1 (Hk a) (recorded m)).
Qed.

Lemma outcome_bind {A B} (m : M A) (k : A -> M B) :
  framed m -> (forall a, framed (k a)) ->
  outcome (bind m k) =
    match outcome m with
    | Done a => outcome (k a)
    | Thrown e => Thrown e
    | Exited c => Exited c
    end.
Proof.
  intros Hm Hk. unfold outcome at 1. rewrite bind_run by done.
  rewrite extend_initial_l. destruct (outcome m) as [a| |]; [|done..].
  by rewrite (proj1 (Hk a) (recorded m)).
Qed.

(** *** Properties of everything a computation records *)

Section Records.
Variable Q : State -> Prop.
Hypothesis Q_initial : Q initial.
Hypothesis Q_extend : forall a b, Q a -> Q b -> Q (extend a b).

Lemma records_ret {A} (a : A) : records Q (ret a).
Proof. exact Q_initial. Qed.

Lemma records_bind {A B} (m : M A) (k : A -> M B) :
  framed m -> (forall a, framed (k a)) ->
  records Q m -> (forall a, records Q (k a)) -> records Q (bind m k).
Proof.
  intros Hm Hk Qm Qk. unfold records. rewrite recorded_bind by done.
  destruct (outcome m); [apply Q_extend|..]; try done. apply Qk.
Qed.

Lemma records_when b m : records Q m -> records Q (when b m).
Proof. destruct b; [done|]. intros _. apply records_ret. Qed.

Lemma records_for_each {A} (l : list A) (body : A -> M unit) :
  (forall x, framed (body x)) ->
  (forall x, x ∈ l -> records Q (body x)) -> records Q (for_each l body).
Proof.
  intros Hf Hbody. induction l as [|x l IH]; simpl.
  - apply records_ret.
  - apply records_bind; [done| |apply Hbody; by left|].
    + intros _. by apply framed_for_each.
    + intros _. apply IH. intros y Hy. apply Hbody. by right.
Qed.
End Records.

Lemma for_each_log_only {A} (l : list A) (f : A -> jsstring) s :
  exists out,
    for_each l (fun x => console_log (f x)) s
    = ({| errors := errors s; warnings := warnings s; stdout := out;
          trace := trace s |}, Done tt).
Proof.
  revert s. induction l as [|x l IH]; intros s; simpl.
  - exists (stdout s). by destruct s.
  - unfold bind at 1. unfold console_log at 1.
    edestruct IH as [out ->]. by exists out.
Qed.

Lemma printReport_spec s :
  exists out,
    printReport s
    = ({| errors := errors s; warnings := warnings s; stdout := out;
          trace := trace s |},
       match errors s with [] => Done tt | _ :: _ => Exited 1 end).
Proof.
  unfold printReport.
  unfold bind at 1. unfold console_log at 1.
  unfold bind at 1. unfold get_state at 1. cbn [warnings errors stdout trace].
  unfold bind at 1.
  destruct (warnings s) as [|w ws] eqn:Hw.
  - cbn [length Nat.eqb negb when ret].
    unfold bind at 1. unfold get_state at 1. cbn [warnings errors stdout trace].
    unfold bind at 1.
    destruct (errors s) as [|e es] eqn:He.
    + cbn [length Nat.eqb negb when ret console_log errors warnings stdout trace].
      eauto.
    + cbn [length Nat.eqb negb when]. 
      unfold bind at 1. unfold console_log at 1.
      unfold bind at 1.
      edestruct (for_each_log_only (e :: es)) as [out ->].
      unfold bind at 1. unfold console_log at 1. unfold exit.
      cbn [warnings errors stdout trace]. eauto.
  - cbn [length Nat.eqb negb when].
    unfold bind at 1. unfold console_log at 1.
    unfold bind at 1.
    edestruct (for_each_log_only (w :: ws)) as [out ->].
    unfold console_log at 1.
    unfold bind at 1. unfold get_state at 1. cbn [warnings errors stdout trace].
    unfold bind at 1.
    destruct (errors s) as [|e es] eqn:He.
    + cbn [length Nat.eqb negb when ret console_log errors warnings stdout trace].
      eauto.
    + cbn [length Nat.eqb negb when]. 
      unfold bind at 1. unfold console_log at 1.
      unfold bind at 1.
      edestruct (for_each_log_only (e :: es)) as [out' ->].
      unfold bind at 1. unfold console_log at 1. unfold exit.
      cbn [warnings errors stdout trace]. eauto.
Qed.

(** *** The run as a whole *)

Section Run.
Variable JSON_parse : jsstring -> option JsValue.
Variable fs : FS.

Lemma readJson_manifest s :
  readJson JSON_parse fs MANIFEST s
  = (extend s (touched [OpReadFile MANIFEST]),
     Done (manifest_read JSON_parse fs)).
Proof.
  rewrite (proj1 (framed_readJson JSON_parse fs MANIFEST) s). f_equal.
  - f_equal. unfold recorded, readJson, try_catch, bind, readFile, touch,
      parse. simpl.
    destruct (fs_readFile fs MANIFEST) as [raw|]; simpl; [|done].
    by destruct (JSON_parse raw).
  - unfold outcome, manifest_read, readJson, try_catch, bind, readFile,
      touch, parse. simpl.
    destruct (fs_readFile fs MANIFEST) as [raw|]; simpl; [|done].
    by destruct (JSON_parse raw).
Qed.

(** A manifest that is absent, unparseable or falsy: one error, and the
    promise resolves. *)
Lemma run_no_manifest :
  truthy (manifest_read JSON_parse fs) = false ->
  run JSON_parse fs
  = {| final := {| errors := [msg_manifest_invalid]; warnings := [];
                   stdout := []; trace := [OpReadFile MANIFEST] |};
       uncaught := None; exit_code := 0 |}.
Proof.
  intros Hm. unfold run, validatePlugin, bind.
  rewrite readJson_manifest. cbv beta iota. rewrite Hm. reflexivity.
Qed.

(** A truthy manifest: the checks run, and the report follows unless a
    check threw. *)
Lemma run_manifest :
  truthy (manifest_read JSON_parse fs) = true ->
  let m := manifest_read JSON_parse fs in
  let d := recorded (checkBundle fs m) in
  exists out,
    run JSON_parse fs
    = {| final := {| errors := errors d; warnings := warnings d;
                     stdout := out;
                     trace := OpReadFile MANIFEST :: trace d |};
         uncaught := match outcome (checkBundle fs m) with
                     | Thrown e => Some e
                     | _ => None
                     end;
         exit_code := match outcome (checkBundle fs m) with
                      | Thrown _ => 1
                      | _ => match errors d with [] => 0 | _ :: _ => 1 end
                      end |}.
Proof.
  intros Hm m d. unfold run, validatePlugin. unfold bind at 1.
  rewrite readJson_manifest. cbv beta iota. rewrite Hm. fold m. cbn [negb].
  unfold validateManifest. rewrite bind_run by apply framed_checkBundle.
  fold d. rewrite extend_initial_l.
  destruct (framed_checkBundle fs m) as [_ Hexit].
  destruct (outcome (checkBundle fs m)) as [[]|e|c] eqn:Ho.
  - destruct (printReport_spec (extend (touched [OpReadFile MANIFEST]) d))
      as [out ->].
    exists out. cbn [extend touched errors warnings trace app].
    by destruct (errors d).
  - exists (stdout d). reflexivity.
  - by destruct (Hexit c).
Qed.

End Run.

(** *** The manifest checks *)

Lemma checkName_spec m name :
  toString (get m NAME) = Some name ->
  recorded (checkName m) = failed (name_errors m)
  /\ outcome (checkName m) = Done tt.
Proof.
  intros Hname.
  unfold recorded, outcome, checkName, name_errors, bind, to_string.
  rewrite Hname. cbn [ret fst snd]. by destruct (namePattern_test name).
Qed.

Lemma checkName_throws m :
  toString (get m NAME) = None ->
  recorded (checkName m) = initial
  /\ outcome (checkName m) = Thrown (NotPrimitive (get m NAME)).
Proof.
  intros Hname. unfold recorded, outcome, checkName, bind, to_string.
  by rewrite Hname.
Qed.

Lemma logName_spec m name :
  toString (get m NAME) = Some name ->
  recorded (logName m)
  = {| errors := []; warnings := [];
       stdout := [lit "Validating plugin: " ++ name ++ [LF]]; trace := [] |}
  /\ outcome (logName m) = Done tt.
Proof.
  intros Hname. unfold recorded, outcome, logName, bind, to_string.
  by rewrite Hname.
Qed.

Lemma for_each_when_error {A} (l : list A) (p : A -> bool) (f : A -> jsstring) :
  recorded (for_each l (fun x => when (p x) (error (f x))))
  = failed (f <$> filter (fun x => p x) l)
  /\ outcome (for_each l (fun x => when (p x) (error (f x)))) = Done tt.
Proof.
  assert (Hbody : forall x, framed (when (p x) (error (f x)))).
  { intros x. framed. }
  induction l as [|x l [IHr IHo]]; [done|].
  cbn [for_each].
  assert (Hrest : forall u : unit,
             framed (for_each l (fun x => when (p x) (error (f x)))))
    by (intros _; by apply framed_for_each).
  rewrite recorded_bind, outcome_bind by done.
  rewrite filter_cons.
  destruct (p x) eqn:Hp; rewrite IHr, IHo; split; reflexivity.
Qed.

Lemma checkRequiredFields_spec m :
  recorded (checkRequiredFields m) = failed (field_errors m)
  /\ outcome (checkRequiredFields m) = Done tt.
Proof.
  unfold checkRequiredFields, field_errors, missing_fields.
  apply (for_each_when_error required_fields
           (fun field => negb (truthy (get m field))) msg_missing_field).
Qed.

Lemma checkBundle_spec fs m name :
  toString (get m NAME) = Some name ->
  recorded (checkBundle fs m)
  = extend (failed (name_errors m ++ field_errors m))
      (extend {| errors := []; warnings := [];
                 stdout := [lit "Validating plugin: " ++ name ++ [LF]];
                 trace := [] |}
              (recorded (checkFiles fs m)))
  /\ outcome (checkBundle fs m) = outcome (checkFiles fs m).
Proof.
  intros Hname. unfold checkBundle.
  destruct (checkName_spec m name Hname) as [Hnr Hno].
  destruct (checkRequiredFields_spec m) as [Hfr Hfo].
  destruct (logName_spec m name Hname) as [Hlr Hlo].
  rewrite recorded_bind, outcome_bind, Hnr, Hno by framed.
  rewrite recorded_bind, outcome_bind, Hfr, Hfo by framed.
  rewrite recorded_bind, outcome_bind, Hlr, Hlo by framed.
  fold (checkFiles fs m). split; [|reflexivity].
  unfold extend, failed. cbn [errors warnings stdout trace app].
  by rewrite app_assoc.
Qed.

Lemma checkBundle_throws fs m :
  toString (get m NAME) = None ->
  recorded (checkBundle fs m) = initial
  /\ outcome (checkBundle fs m) = Thrown (NotPrimitive (get m NAME)).
Proof.
  intros Hname. unfold checkBundle.
  destruct (checkName_throws m Hname) as [Hr Ho].
  by rewrite recorded_bind, outcome_bind, Hr, Ho by framed.
Qed.

Lemma checkBundle_errors fs m name :
  toString (get m NAME) = Some name ->
  errors (recorded (checkBundle fs m))
  = name_errors m ++ field_errors m ++ errors (recorded (checkFiles fs m)).
Proof.
  intros Hname. rewrite (proj1 (checkBundle_spec fs m name Hname)).
  cbn [extend failed errors app]. by rewrite <- app_assoc.
Qed.

Lemma checkBundle_warnings fs m name :
  toString (get m NAME) = Some name ->
  warnings (recorded (checkBundle fs m)) = warnings (recorded (checkFiles fs m)).
Proof. intros Hname. by rewrite (proj1 (checkBundle_spec fs m name Hname)). Qed.

Lemma checkBundle_trace fs m name :
  toString (get m NAME) = Some name ->
  trace (recorded (checkBundle fs m)) = trace (recorded (checkFiles fs m)).
Proof. intros Hname. by rewrite (proj1 (checkBundle_spec fs m name Hname)). Qed.

Lemma exists_spec fs p :
  recorded (exists_ fs p) = touched [OpAccess p]
  /\ outcome (exists_ fs p) = Done (fs_access fs p).
Proof.
  unfold recorded, outcome, exists_, try_catch, bind, access, touch. simpl.
  by destruct (fs_access fs p).
Qed.

Lemma readFile_spec fs p :
  recorded (readFile fs p) = touched [OpReadFile p]
  /\ outcome (readFile fs p)
     = match fs_readFile fs p with
       | Some content => Done content
       | None => Thrown (ReadFileFailed p)
       end.
Proof.
  unfold recorded, outcome, readFile, bind, touch. simpl.
  by destruct (fs_readFile fs p).
Qed.

Lemma readdir_spec fs p :
  recorded (readdir fs p) = touched [OpReaddir p]
  /\ outcome (readdir fs p)
     = match fs_readdir fs p with
       | Some entries => Done entries
       | None => Thrown (ReaddirFailed p)
       end.
Proof.
  unfold recorded, outcome, readdir, bind, touch. simpl.
  by destruct (fs_readdir fs p).
Qed.

(** The three ways of the logo check. *)
Lemma checkLogo_absent fs m :
  truthy (get m LOGO) = false ->
  recorded (checkLogo fs m) = initial /\ outcome (checkLogo fs m) = Done tt.
Proof. intros H. unfold recorded, outcome, checkLogo. by rewrite H. Qed.

Lemma checkLogo_string fs m p :
  get m LOGO = JStr p -> p <> [] ->
  recorded (checkLogo fs m)
  = {| errors := [];
       warnings := if fs_access fs [p] then [] else [msg_logo p];
       stdout := []; trace := [OpAccess [p]] |}
  /\ outcome (checkLogo fs m) = Done tt.
Proof.
  intros H Hp. unfold recorded, outcome, checkLogo. rewrite H.
  destruct p as [|c p]; [done|]. cbn [truthy path_join].
  unfold bind, ret, exists_, try_catch, bind, access, touch, to_string.
  cbn [fst snd toString].
  by destruct (fs_access fs [c :: p]).
Qed.

Lemma checkLogo_not_string fs m :
  truthy (get m LOGO) = true -> (forall p, get m LOGO <> JStr p) ->
  recorded (checkLogo fs m) = initial
  /\ outcome (checkLogo fs m) = Thrown (PathArgNotString (get m LOGO)).
Proof.
  intros H Hp. unfold recorded, outcome, checkLogo. rewrite H.
  destruct (get m LOGO) as [| | | | p | |]; try done. by destruct (Hp p).
Qed.

(** *** What the directory blocks record *)

Lemma additions_initial P : additions P initial.
Proof. by split. Qed.

Lemma additions_extend P a b :
  additions P a -> additions P b -> additions P (extend a b).
Proof.
  intros [Hwa Hea] [Hwb Heb]. split; simpl.
  - by rewrite Hwa, Hwb.
  - by apply Forall_app.
Qed.

Lemma additions_error P msg :
  P msg = true -> records (additions P) (error msg).
Proof. intros H. split; simpl; [done|]. by constructor. Qed.

Lemma additions_silent P {A} (m : M A) :
  errors (recorded m) = [] -> warnings (recorded m) = [] ->
  records (additions P) m.
Proof. intros He Hw. split; [done|]. by rewrite He. Qed.

Lemma additions_for_each P {A} (l : list A) (body : A -> M unit) :
  (forall x, framed (body x)) ->
  (forall x, records (additions P) (body x)) ->
  records (additions P) (for_each l body).
Proof.
  intros Hf Hb.
  apply records_for_each; auto using additions_initial, additions_extend.
Qed.

(** Splits a goal [records (additions P) m] along the structure of [m];
    the messages are left to [leaf]. *)
Ltac additions_step leaf :=
  match goal with
  | |- records _ (error _) => apply additions_error; leaf
  | |- records _ (exists_ _ _) =>
      apply additions_silent; rewrite (proj1 (exists_spec _ _)); reflexivity
  | |- records _ (readFile _ _) =>
      apply additions_silent; rewrite (proj1 (readFile_spec _ _)); reflexivity
  | |- records _ (readdir _ _) =>
      apply additions_silent; rewrite (proj1 (readdir_spec _ _)); reflexivity
  | |- records _ (console_log _) => apply additions_silent; reflexivity
  | |- records _ (bind _ _) =>
      apply records_bind;
      [apply additions_extend|solve [framed]|solve [framed]| |intros ?]
  | |- records _ (when _ _) => apply records_when; [apply additions_initial|]
  | |- records _ (ret _) => apply records_ret; apply additions_initial
  | |- records _ (match ?x with _ => _ end) => destruct x
  end.

Section Additions.
Variable P : jsstring -> bool.
Hypothesis P_entry : forall e, is_entry_error e = true -> P e = true.
Variable fs : FS.

Lemma checkSkill_additions skill : records (additions P) (checkSkill fs skill).
Proof.
  unfold checkSkill, checkKeys.
  repeat additions_step ltac:(apply P_entry; reflexivity).
Qed.

Lemma checkRule_additions rule : records (additions P) (checkRule fs rule).
Proof.
  unfold checkRule. repeat additions_step ltac:(apply P_entry; reflexivity).
Qed.

Lemma checkEntry_additions dir kind entry :
  (forall rest, is_entry_error (kind ++ rest) = true) ->
  records (additions P) (checkEntry fs dir kind entry).
Proof.
  intros Hkind. unfold checkEntry, checkKeys, msg_entry_no_fm, msg_entry_no_key.
  repeat additions_step ltac:(apply P_entry, Hkind).
Qed.

Lemma checkRules_additions : records (additions P) (checkRules fs).
Proof.
  unfold checkRules.
  repeat first [additions_step idtac
               | apply additions_for_each;
                 [intros ?; framed | apply checkRule_additions]].
Qed.

Lemma checkEntries_additions dir kind plural :
  (forall rest, is_entry_error (kind ++ rest) = true) ->
  records (additions P) (checkEntries fs dir kind plural).
Proof.
  intros Hkind. unfold checkEntries.
  repeat first [additions_step idtac
               | apply additions_for_each;
                 [intros ?; framed | intros ?; by apply checkEntry_additions]].
Qed.

Lemma checkOptional_additions : records (additions P) (checkOptional fs).
Proof.
  unfold checkOptional, checkCommands, checkAgents.
  apply records_bind;
    [apply additions_extend|framed|framed|apply checkRules_additions|intros _].
  apply records_bind;
    [apply additions_extend|framed|framed| |intros _];
    by apply checkEntries_additions.
Qed.

Lemma checkSkills_additions :
  P msg_skills_missing = true -> records (additions P) (checkSkills fs).
Proof.
  intros Hmissing. unfold checkSkills.
  repeat first [additions_step ltac:(exact Hmissing)
               | apply additions_for_each;
                 [intros ?; framed | apply checkSkill_additions]].
Qed.

End Additions.

Lemma entry_error_not_manifest e :
  is_entry_error e = true -> not_manifest_error e = true.
Proof.
  destruct e as [|c e]; [done|]. unfold not_manifest_error, is_manifest_error.
  cbn [is_entry_error]. unfold is_upper, in_range. intros H.
  apply andb_true_iff in H as [_ H]. apply N.leb_le in H.
  apply negb_true_iff.
  change (lit "plugin.json ") with (112 :: lit "lugin.json ").
  cbn [starts_with]. apply andb_false_iff. left. apply N.eqb_neq. lia.
Qed.

Lemma entry_error_not_skills_missing e :
  is_entry_error e = true -> not_skills_missing e = true.
Proof.
  intros H. unfold not_skills_missing. apply negb_true_iff.
  apply bool_decide_eq_false. intros ->. discriminate H.
Qed.

Lemma checkDirectories_additions fs :
  records (additions not_manifest_error) (checkDirectories fs).
Proof.
  unfold checkDirectories. fold (checkOptional fs).
  apply records_bind; [apply additions_extend|framed|intros _; apply framed_checkOptional| |intros _].
  - by apply checkSkills_additions; [apply entry_error_not_manifest|].
  - apply checkOptional_additions, entry_error_not_manifest.
Qed.

(** *** The exit code *)

Lemma run_exit_code JSON_parse fs :
  truthy (manifest_read JSON_parse fs) = true ->
  exit_code (run JSON_parse fs)
  = match uncaught (run JSON_parse fs), errors (final (run JSON_parse fs)) with
    | None, [] => 0
    | _, _ => 1
    end.
Proof.
  intros Hm. destruct (run_manifest JSON_parse fs Hm) as [out ->].
  cbn [exit_code uncaught final errors].
  destruct (outcome (checkBundle fs (manifest_read JSON_parse fs)));
    by destruct (errors (recorded (checkBundle fs (manifest_read JSON_parse fs)))).
Qed.

(** C1, as the code has it.  Once the manifest is read as a truthy value,
    the process exits with code 1 exactly when an error was recorded or a
    failure reached the top-level handler, and with code 0 exactly when no
    error was recorded and no failure occurred. *)
Theorem exit_code_of_run JSON_parse fs :
  truthy (manifest_read JSON_parse fs) = true ->
  (exit_code (run JSON_parse fs) = 1 <->
   errors (final (run JSON_parse fs)) <> []
   \/ uncaught (run JSON_parse fs) <> None)
  /\ (exit_code (run JSON_parse fs) = 0 <->
      errors (final (run JSON_parse fs)) = []
      /\ uncaught (run JSON_parse fs) = None).
Proof.
  intros Hm. rewrite (run_exit_code _ _ Hm).
  destruct (uncaught (run JSON_parse fs)) as [e|];
    destruct (errors (final (run JSON_parse fs))) as [|x l];
    (split; split; try done; try (intros [?|?]; done);
     try (intros [? ?]; done); intros _; (by left) || (by right)).
Qed.

Lemma exit_code_of_run_witness :
  truthy (manifest_read Example.json (tree_fs Example.bundle)) = true
  /\ (exit_code (run Example.json (tree_fs Example.bundle)) = 0 <->
      errors (final (run Example.json (tree_fs Example.bundle))) = []
      /\ uncaught (run Example.json (tree_fs Example.bundle)) = None).
Proof.
  split; [reflexivity|].
  apply (exit_code_of_run Example.json (tree_fs Example.bundle)). reflexivity.
Defined.

(** C1 as stated fails: with a regular file in the place of [skills], the
    listing is rejected, the handler exits with code 1, and no error was
    recorded. *)
Lemma exit_code_without_error :
  ~ (exit_code (run Example.json (tree_fs (Example.skills_is_a_file Example.manifest))) = 1 <->
     errors (final (run Example.json (tree_fs (Example.skills_is_a_file Example.manifest)))) <> []).
Proof.
  assert (Hrun : exit_code (run Example.json (tree_fs (Example.skills_is_a_file Example.manifest))) = 1
                 /\ errors (final (run Example.json (tree_fs (Example.skills_is_a_file Example.manifest)))) = []
                 /\ uncaught (run Example.json (tree_fs (Example.skills_is_a_file Example.manifest)))
                    = Some (ReaddirFailed [SKILLS])).
  { vm_compute. done. }
  destruct Hrun as (Hcode & Herr & _). intros [H _]. by apply H.
Qed.

(** The early return on a missing manifest records its error and lets the
    process end with code 0, with nothing printed. *)
Lemma no_manifest_exit_code :
  run Example.json (tree_fs Example.no_manifest)
  = {| final := {| errors := [msg_manifest_invalid]; warnings := [];
                   stdout := []; trace := [OpReadFile MANIFEST] |};
       uncaught := None; exit_code := 0 |}.
Proof. reflexivity. Qed.

(** A name that does not convert to a string stops the run at the name
    check, before any error is recorded. *)
Lemma unprintable_name_exit_code :
  let r := run Example.json (tree_fs Example.unprintable_name) in
  errors (final r) = []
  /\ uncaught r
     = Some (NotPrimitive (JObj [(lit "toString", JNum true (lit "0"))]))
  /\ exit_code r = 1.
Proof. vm_compute. by repeat split. Qed.

(** *** The fatal manifest error *)

(** C2.  When the manifest cannot be read or parsed, the run records the one
    fatal error and nothing else: no other error, no warning, no output,
    and no filesystem operation besides the read of the manifest. *)
Theorem manifest_unreadable JSON_parse fs :
  fs_readFile fs MANIFEST = None
  \/ (exists raw, fs_readFile fs MANIFEST = Some raw /\ JSON_parse raw = None) ->
  final (run JSON_parse fs)
  = {| errors := [msg_manifest_invalid]; warnings := []; stdout := [];
       trace := [OpReadFile MANIFEST] |}
  /\ uncaught (run JSON_parse fs) = None.
Proof.
  intros H. rewrite run_no_manifest; [done|].
  unfold manifest_read. destruct H as [->|(raw & -> & ->)]; done.
Qed.

Lemma manifest_unreadable_witness :
  fs_readFile (tree_fs Example.no_manifest) MANIFEST = None
  /\ final (run Example.json (tree_fs Example.no_manifest))
     = {| errors := [msg_manifest_invalid]; warnings := []; stdout := [];
          trace := [OpReadFile MANIFEST] |}.
Proof.
  split; [reflexivity|].
  apply (manifest_unreadable Example.json (tree_fs Example.no_manifest)).
  left. reflexivity.
Defined.

(** *** Telling the messages apart *)

Lemma filter_none {A} (P : A -> Prop) `{forall x, Decision (P x)} (l : list A) :
  Forall (fun x => ~ P x) l -> filter P l = [].
Proof.
  induction 1 as [|x l Hx Hl IH]; [done|]. by rewrite filter_cons_False.
Qed.

Lemma occurrences_app msg a b :
  occurrences msg (a ++ b) = (occurrences msg a + occurrences msg b)%nat.
Proof. unfold occurrences. by rewrite filter_app, length_app. Qed.

Lemma occurrences_none msg l :
  Forall (fun e => e <> msg) l -> occurrences msg l = 0%nat.
Proof. intros H. unfold occurrences. by rewrite filter_none. Qed.

Lemma occurrences_fmap_filter {A} (f : A -> jsstring) (p : A -> bool)
    (l : list A) (x : A) :
  (forall a b, f a = f b -> a = b) -> NoDup l -> x ∈ l ->
  occurrences (f x) (f <$> filter (fun a => p a) l)
  = if p x then 1%nat else 0%nat.
Proof.
  intros Hinj Hnd Hx. unfold occurrences.
  induction Hnd as [|y l Hy Hnd IH]; [by apply elem_of_nil in Hx|].
  rewrite filter_cons. cbv beta. apply elem_of_cons in Hx as [->|Hx].
  - assert (Hrest : filter (fun e => e = f y) (f <$> filter (fun a => p a) l) = []).
    { apply filter_none, Forall_forall. intros e He Heq. subst e.
      apply list_elem_of_fmap in He as (z & Hz & Hzl).
      apply Hinj in Hz. subst z. apply list_elem_of_filter in Hzl as [_ Hzl]. exact (Hy Hzl). }
    destruct (p y) eqn:Hp.
    + case_decide as Ht; [|by destruct Ht].
      rewrite fmap_cons, filter_cons_True by done.
      cbn [length]. by rewrite Hrest.
    + case_decide as Ht; [by destruct Ht|]. by rewrite Hrest.
  - specialize (IH Hx). destruct (decide (p y)) as [Hp|Hp]; [|done].
    rewrite fmap_cons, filter_cons_False; [done|].
    intros Heq. apply Hinj in Heq. subst y. exact (Hy Hx).
Qed.

Lemma name_error_is_manifest_error e :
  is_name_pattern_error e = true -> is_manifest_error e = true.
Proof.
  unfold is_name_pattern_error, is_manifest_error.
  rewrite !starts_with_prefix. intros [r ->]. exists (lit "name " ++ r).
  reflexivity.
Qed.

Lemma msg_name_pattern_is_name_error v :
  is_name_pattern_error (msg_name_pattern v) = true.
Proof. reflexivity. Qed.

Lemma msg_missing_field_not_name_error field :
  is_name_pattern_error (msg_missing_field field) = false.
Proof. reflexivity. Qed.

Lemma msg_missing_field_is_manifest_error field :
  is_manifest_error (msg_missing_field field) = true.
Proof. reflexivity. Qed.

Lemma msg_missing_field_inj a b :
  msg_missing_field a = msg_missing_field b -> a = b.
Proof. unfold msg_missing_field. apply (inj (app _)). Qed.

Lemma required_fields_NoDup : NoDup required_fields.
Proof. apply (bool_decide_unpack _). vm_compute. exact I. Qed.

(** *** The errors of a run *)

(** Only an object has properties, and an object is truthy. *)
Lemma get_defined_truthy m k : get m k <> JUndefined -> truthy m = true.
Proof. by destruct m. Qed.

Lemma pattern_violation_truthy m name :
  toString (get m NAME) = Some name -> namePattern_test name = false ->
  truthy m = true.
Proof.
  intros Hname Htest. apply (get_defined_truthy m NAME). intros Hundef.
  rewrite Hundef in Hname. injection Hname as <-. discriminate Htest.
Qed.

Lemma run_uncaught_name JSON_parse fs :
  truthy (manifest_read JSON_parse fs) = true ->
  uncaught (run JSON_parse fs) = None ->
  is_Some (toString (get (manifest_read JSON_parse fs) NAME)).
Proof.
  intros Hm. destruct (run_manifest JSON_parse fs Hm) as [out ->].
  cbn [uncaught].
  destruct (toString (get (manifest_read JSON_parse fs) NAME)) as [name|] eqn:E;
    [done|].
  by rewrite (proj2 (checkBundle_throws fs _ E)).
Qed.

Lemma run_errors JSON_parse fs name :
  truthy (manifest_read JSON_parse fs) = true ->
  toString (get (manifest_read JSON_parse fs) NAME) = Some name ->
  errors (final (run JSON_parse fs))
  = name_errors (manifest_read JSON_parse fs)
    ++ field_errors (manifest_read JSON_parse fs)
    ++ errors (recorded (checkFiles fs (manifest_read JSON_parse fs))).
Proof.
  intros Hm Hname. destruct (run_manifest JSON_parse fs Hm) as [out ->].
  by apply checkBundle_errors with name.
Qed.

Lemma run_warnings JSON_parse fs name :
  truthy (manifest_read JSON_parse fs) = true ->
  toString (get (manifest_read JSON_parse fs) NAME) = Some name ->
  warnings (final (run JSON_parse fs))
  = warnings (recorded (checkFiles fs (manifest_read JSON_parse fs))).
Proof.
  intros Hm Hname. destruct (run_manifest JSON_parse fs Hm) as [out ->].
  by apply checkBundle_warnings with name.
Qed.

Lemma run_trace JSON_parse fs name :
  truthy (manifest_read JSON_parse fs) = true ->
  toString (get (manifest_read JSON_parse fs) NAME) = Some name ->
  trace (final (run JSON_parse fs))
  = OpReadFile MANIFEST
    :: trace (recorded (checkFiles fs (manifest_read JSON_parse fs))).
Proof.
  intros Hm Hname. destruct (run_manifest JSON_parse fs Hm) as [out ->].
  cbn [final trace]. by rewrite (checkBundle_trace _ _ name).
Qed.

Lemma checkFiles_spec fs m :
  recorded (checkFiles fs m)
  = match outcome (checkLogo fs m) with
    | Done _ => extend (recorded (checkLogo fs m)) (recorded (checkDirectories fs))
    | _ => recorded (checkLogo fs m)
    end
  /\ outcome (checkFiles fs m)
     = match outcome (checkLogo fs m) with
       | Done _ => outcome (checkDirectories fs)
       | Thrown e => Thrown e
       | Exited c => Exited c
       end.
Proof. unfold checkFiles. by rewrite recorded_bind, outcome_bind by framed. Qed.

Lemma checkLogo_errors fs m : errors (recorded (checkLogo fs m)) = [].
Proof.
  unfold recorded, checkLogo. destruct (truthy (get m LOGO)); [|done].
  destruct (get m LOGO) as [| | | | p | |] eqn:Hlogo; try done.
  unfold bind, path_join, ret, exists_, try_catch, bind, access, touch,
    to_string.
  cbn [fst snd toString].
  by destruct (fs_access fs [p]).
Qed.

Lemma checkFiles_errors fs m :
  Forall (fun e => is_manifest_error e = false)
         (errors (recorded (checkFiles fs m))).
Proof.
  rewrite (proj1 (checkFiles_spec fs m)).
  destruct (outcome (checkLogo fs m)); cbn [extend errors];
    rewrite checkLogo_errors; [|done..].
  eapply Forall_impl; [apply (checkDirectories_additions fs)|].
  cbn beta. unfold not_manifest_error. by intros e ?%negb_true_iff.
Qed.

(** *** The directories are reached *)

Lemma checkSkills_trace fs :
  exists rest, trace (recorded (checkSkills fs)) = OpAccess [SKILLS] :: rest.
Proof.
  unfold checkSkills. rewrite recorded_bind by framed.
  destruct (exists_spec fs [SKILLS]) as [-> ->]. cbn [extend touched trace app].
  eauto.
Qed.

Lemma checkDirectories_trace fs :
  exists rest,
    trace (recorded (checkDirectories fs)) = OpAccess [SKILLS] :: rest.
Proof.
  unfold checkDirectories. rewrite recorded_bind by framed.
  destruct (checkSkills_trace fs) as [rest Hrest].
  destruct (outcome (checkSkills fs)); cbn [extend trace]; rewrite Hrest;
    cbn [app]; eauto.
Qed.

Lemma checkLogo_well_typed fs m :
  logo_well_typed m -> outcome (checkLogo fs m) = Done tt.
Proof.
  intros [H|[p H]].
  - by apply checkLogo_absent.
  - destruct p as [|c p].
    + apply checkLogo_absent. by rewrite H.
    + by apply (checkLogo_string fs m (c :: p)).
Qed.

Lemma checkFiles_reaches_skills fs m :
  logo_well_typed m -> OpAccess [SKILLS] ∈ trace (recorded (checkFiles fs m)).
Proof.
  intros H. rewrite (proj1 (checkFiles_spec fs m)).
  rewrite (checkLogo_well_typed fs m H). cbn [extend trace].
  destruct (checkDirectories_trace fs) as [rest ->].
  apply elem_of_app. right. by left.
Qed.

(** *** The name pattern *)

Lemma name_tail_spec t :
  name_tail t = true <->
  exists inner e,
    t = inner ++ [e] /\ forallb is_name_inner inner = true
    /\ is_name_edge e = true.
Proof.
  induction t as [|c t IH].
  - split; [done|]. intros (inner & e & H & _). by destruct inner.
  - cbn [name_tail]. destruct t as [|d t].
    + split.
      * intros Hc. by exists [], c.
      * intros (inner & e & H & _ & He).
        destruct inner as [|x [|y inner]]; simplify_list_eq; done.
    + rewrite andb_true_iff, IH. split.
      * intros (Hc & inner & e & Ht & Hinner & He).
        exists (c :: inner), e. rewrite Ht. cbn [forallb app].
        by rewrite Hc, Hinner.
      * intros (inner & e & Ht & Hinner & He).
        destruct inner as [|x inner]; [by simplify_list_eq|].
        cbn [app forallb] in Ht, Hinner. injection Ht as -> Ht.
        apply andb_true_iff in Hinner as [Hx Hinner].
        split; [done|]. by exists inner, e.
Qed.

Lemma namePattern_test_spec s : namePattern_test s = true <-> name_syntax s.
Proof.
  unfold namePattern_test, name_syntax. destruct s as [|c t].
  - split; [done|]. intros (c & _ & [H|(inner & e & H & _)]); done.
  - rewrite andb_true_iff. destruct t as [|d t].
    + split.
      * intros [Hc _]. exists c. split; [done|]. by left.
      * intros (c' & Hc & [[= ->]|(inner & e & H & _)]); [done|].
        destruct inner; simplify_list_eq.
    + rewrite name_tail_spec. split.
      * intros (Hc & inner & e & Ht & Hinner & He). exists c. split; [done|].
        right. exists inner, e. by rewrite Ht.
      * intros (c' & Hc & [H|(inner & e & H & Hinner & He)]); [done|].
        injection H as -> Ht. split; [done|]. by exists inner, e.
Qed.

(** C4.  The pattern, which accepts a lowercase letter or digit alone or
    followed by letters, digits, dots and hyphens ending with a letter or
    digit, is tested on the name converted to a string.  When
    the name of the manifest fails the pattern, the run records the
    pattern error once, and [validatePlugin] goes on with the loop over the
    required fields, the logo and the directories: the errors of the run
    are the pattern error, then those of the missing fields, then those the
    later checks record, and the directories are reached whenever the logo
    is absent or a string. *)
Theorem name_pattern_violation JSON_parse fs :
  (forall s, namePattern_test s = true <-> name_syntax s)
  /\ forall name,
      let m := manifest_read JSON_parse fs in
      toString (get m NAME) = Some name ->
      namePattern_test name = false ->
      validatePlugin JSON_parse fs initial
      = afterName fs m
          {| errors := [msg_name_pattern name]; warnings := [];
             stdout := []; trace := [OpReadFile MANIFEST] |}
      /\ errors (final (run JSON_parse fs))
         = msg_name_pattern name
           :: field_errors m ++ errors (recorded (checkFiles fs m))
      /\ filter (fun e => is_name_pattern_error e)
                (errors (final (run JSON_parse fs)))
         = [msg_name_pattern name]
      /\ (logo_well_typed m ->
          OpAccess [SKILLS] ∈ trace (final (run JSON_parse fs))).
Proof.
  split; [apply namePattern_test_spec|].
  intros name m Hname Htest.
  pose proof (pattern_violation_truthy m name Hname Htest) as Hm.
  split; [|split; [|split]].
  - unfold validatePlugin. unfold bind at 1. rewrite readJson_manifest.
    cbv beta iota. fold m. rewrite Hm. cbn [negb].
    unfold validateManifest, afterName, checkBundle.
    unfold bind at 1 2. unfold checkName, bind, to_string.
    rewrite Hname. cbn [ret]. rewrite Htest. reflexivity.
  - rewrite (run_errors _ _ name) by done. fold m. unfold name_errors.
    by rewrite Hname, Htest.
  - rewrite (run_errors _ _ name) by done. fold m. unfold name_errors.
    rewrite Hname, Htest.
    cbn [app]. rewrite filter_cons_True by done. f_equal.
    rewrite filter_app. rewrite !filter_none; [done|..].
    + eapply Forall_impl; [apply checkFiles_errors|]. cbn beta.
      intros e He Hp. apply Is_true_true in Hp.
      apply name_error_is_manifest_error in Hp. congruence.
    + apply Forall_forall. intros e (f & -> & _)%list_elem_of_fmap.
      rewrite msg_missing_field_not_name_error. by intros [].
  - intros Hlogo. rewrite (run_trace _ _ name) by done. right.
    by apply checkFiles_reaches_skills.
Qed.

Lemma name_pattern_violation_witness :
  let fs := tree_fs (Example.bundle_with Example.manifest_bad_name) in
  toString (get (manifest_read Example.json fs) NAME) = Some (lit "My_Plugin")
  /\ namePattern_test (lit "My_Plugin") = false
  /\ ~ name_syntax (lit "My_Plugin")
  /\ filter (fun e => is_name_pattern_error e)
            (errors (final (run Example.json fs)))
     = [msg_name_pattern (lit "My_Plugin")]
  /\ OpAccess [SKILLS] ∈ trace (final (run Example.json fs)).
Proof.
  intros fs.
  destruct (name_pattern_violation Example.json fs) as [Hsyntax Hrun].
  destruct (Hrun (lit "My_Plugin")) as (_ & _ & Hone & Hdirs);
    [reflexivity..|].
  split; [reflexivity|]. split; [reflexivity|]. split; [|split].
  - by rewrite <- Hsyntax.
  - exact Hone.
  - apply Hdirs. left. reflexivity.
Defined.

(** *** The required fields *)

Lemma field_errors_occurrences m field :
  field ∈ required_fields ->
  occurrences (msg_missing_field field) (field_errors m)
  = if truthy (get m field) then 0%nat else 1%nat.
Proof.
  intros Hfield. unfold field_errors, missing_fields.
  rewrite (occurrences_fmap_filter msg_missing_field
             (fun f => negb (truthy (get m f))) required_fields field
             msg_missing_field_inj required_fields_NoDup Hfield).
  by destruct (truthy (get m field)).
Qed.

Lemma name_errors_occurrences m field :
  occurrences (msg_missing_field field) (name_errors m) = 0%nat.
Proof.
  apply occurrences_none. unfold name_errors.
  destruct (toString (get m NAME)) as [name|]; [|done].
  destruct (namePattern_test name); [done|].
  constructor; [|done]. intros Heq.
  pose proof (msg_name_pattern_is_name_error name) as Hp.
  rewrite Heq in Hp. by rewrite msg_missing_field_not_name_error in Hp.
Qed.

(** C5.  For every manifest value, the loop over the required fields
    records, for each of the five fields, exactly one error naming it when
    its value is falsy and none otherwise, and completes.  In the run on a
    truthy manifest whose name converts to a string, no other error names a
    required field.  When moreover the name matches the pattern and
    [license] is the only field that is missing, the manifest checks record
    the one error naming [license], and [validatePlugin] goes on with the
    logo and the directories, which are reached whenever the logo is absent
    or a string. *)
Theorem missing_required_fields JSON_parse fs :
  let m := manifest_read JSON_parse fs in
  (forall pluginJson field, field ∈ required_fields ->
     occurrences (msg_missing_field field)
                 (errors (recorded (checkRequiredFields pluginJson)))
     = (if truthy (get pluginJson field) then 0%nat else 1%nat)
     /\ outcome (checkRequiredFields pluginJson) = Done tt)
  /\ (forall name field,
        truthy m = true -> toString (get m NAME) = Some name ->
        field ∈ required_fields ->
        occurrences (msg_missing_field field)
                    (errors (final (run JSON_parse fs)))
        = if truthy (get m field) then 0%nat else 1%nat)
  /\ (forall name,
        toString (get m NAME) = Some name ->
        namePattern_test name = true ->
        missing_fields m = [lit "license"] ->
        validatePlugin JSON_parse fs initial
        = afterFields fs m
            {| errors := [msg_missing_field (lit "license")]; warnings := [];
               stdout := []; trace := [OpReadFile MANIFEST] |}
        /\ errors (final (run JSON_parse fs))
           = msg_missing_field (lit "license")
             :: errors (recorded (checkFiles fs m))
        /\ (logo_well_typed m ->
            OpAccess [SKILLS] ∈ trace (final (run JSON_parse fs)))).
Proof.
  intros m. split; [|split].
  - intros pluginJson field Hfield.
    destruct (checkRequiredFields_spec pluginJson) as [-> ->].
    split; [|done]. by apply field_errors_occurrences.
  - intros name field Hm Hname Hfield.
    rewrite (run_errors _ _ name) by done. fold m.
    rewrite !occurrences_app, name_errors_occurrences.
    rewrite field_errors_occurrences by done.
    assert (Hfiles : occurrences (msg_missing_field field)
                       (errors (recorded (checkFiles fs m))) = 0%nat).
    { apply occurrences_none.
      eapply Forall_impl; [apply checkFiles_errors|]. cbn beta.
      intros e He ->. by rewrite msg_missing_field_is_manifest_error in He. }
    rewrite Hfiles. lia.
  - intros name Hname Htest Hmissing.
    assert (Hm : truthy m = true).
    { apply (get_defined_truthy m NAME). intros Hundef.
      assert (Hin : NAME ∈ missing_fields m).
      { unfold missing_fields. apply list_elem_of_filter.
        split; [by rewrite Hundef | by left]. }
      rewrite Hmissing in Hin. by apply list_elem_of_singleton in Hin. }
    split; [|split].
    + unfold validatePlugin. unfold bind at 1. rewrite readJson_manifest.
      cbv beta iota. fold m. rewrite Hm. cbn [negb].
      unfold validateManifest, afterFields, checkBundle.
      unfold bind at 1 2. unfold checkName, bind, to_string.
      rewrite Hname. cbn [ret]. rewrite Htest. cbn [negb when ret].
      rewrite (proj1 (framed_checkRequiredFields m)).
      destruct (checkRequiredFields_spec m) as [-> ->].
      unfold field_errors. rewrite Hmissing. reflexivity.
    + rewrite (run_errors _ _ name) by done. fold m.
      unfold name_errors, field_errors.
      by rewrite Hname, Htest, Hmissing.
    + intros Hlogo. rewrite (run_trace _ _ name) by done. right.
      by apply checkFiles_reaches_skills.
Qed.

Lemma missing_required_fields_witness :
  let fs := tree_fs (Example.bundle_with Example.manifest_no_license) in
  missing_fields (manifest_read Example.json fs) = [lit "license"]
  /\ occurrences (msg_missing_field (lit "license"))
                 (errors (final (run Example.json fs))) = 1%nat
  /\ errors (final (run Example.json fs)) = [msg_missing_field (lit "license")]
  /\ OpAccess [SKILLS] ∈ trace (final (run Example.json fs)).
Proof.
  intros fs.
  destruct (missing_required_fields Example.json fs)
    as (_ & Hcount & Hlicense).
  destruct (Hlicense (lit "typescript-best-practices"))
    as (_ & Herrors & Hdirs); [reflexivity..|].
  split; [reflexivity|]. split; [|split].
  - rewrite (Hcount (lit "typescript-best-practices") (lit "license"));
      [reflexivity..|].
    unfold required_fields. rewrite !elem_of_cons. tauto.
  - rewrite Herrors. reflexivity.
  - apply Hdirs. left. reflexivity.
Defined.

(** *** The logo *)

(** C7, as the code has it.  When the manifest declares a logo as a
    non-empty string and no file is found at that path, the logo check
    records exactly one warning, naming that path, and no error, and
    completes.  In a run that reaches the check, which is every run on a
    manifest whose name converts to a string and so every run without an
    uncaught failure, this is the only warning, and the errors are those of
    the manifest checks and of the directories.  The exit code is 1 exactly
    when an error was recorded or a failure reached the top-level handler,
    whatever the warnings: a run with no uncaught failure and no recorded
    error exits with code 0. *)
Theorem missing_logo_warning JSON_parse fs p :
  let m := manifest_read JSON_parse fs in
  get m LOGO = JStr p -> p <> [] -> fs_access fs [p] = false ->
  (recorded (checkLogo fs m)
   = {| errors := []; warnings := [msg_logo p]; stdout := [];
        trace := [OpAccess [p]] |}
   /\ outcome (checkLogo fs m) = Done tt)
  /\ (is_Some (toString (get m NAME)) ->
      warnings (final (run JSON_parse fs)) = [msg_logo p]
      /\ errors (final (run JSON_parse fs))
         = name_errors m ++ field_errors m
           ++ errors (recorded (checkDirectories fs)))
  /\ (uncaught (run JSON_parse fs) = None ->
      warnings (final (run JSON_parse fs)) = [msg_logo p]
      /\ (errors (final (run JSON_parse fs)) = [] ->
          exit_code (run JSON_parse fs) = 0))
  /\ exit_code (run JSON_parse fs)
     = match uncaught (run JSON_parse fs),
             errors (final (run JSON_parse fs)) with
       | None, [] => 0
       | _, _ => 1
       end.
Proof.
  intros m Hlogo Hp Hmissing.
  assert (Hm : truthy m = true).
  { apply (get_defined_truthy m LOGO). by rewrite Hlogo. }
  destruct (checkLogo_string fs m p Hlogo Hp) as [Hrec Hout].
  rewrite Hmissing in Hrec.
  pose proof (proj1 (checkFiles_spec fs m)) as Hfiles.
  rewrite Hout, Hrec in Hfiles.
  destruct (checkDirectories_additions fs) as [Hw _].
  assert (Hreached : is_Some (toString (get m NAME)) ->
            warnings (final (run JSON_parse fs)) = [msg_logo p]
            /\ errors (final (run JSON_parse fs))
               = name_errors m ++ field_errors m
                 ++ errors (recorded (checkDirectories fs))).
  { intros [name Hname]. split.
    - rewrite (run_warnings _ _ name) by done. fold m. rewrite Hfiles.
      cbn [extend warnings]. by rewrite Hw.
    - rewrite (run_errors _ _ name) by done. fold m. by rewrite Hfiles. }
  split; [done|]. split; [done|]. split.
  - intros Hu. split.
    + by apply Hreached, run_uncaught_name.
    + intros He. by rewrite run_exit_code, Hu, He.
  - by apply run_exit_code.
Qed.

Lemma missing_logo_warning_witness :
  let fs := tree_fs (Example.bundle_with Example.manifest_logo) in
  get (manifest_read Example.json fs) LOGO = JStr (lit "logo.png")
  /\ fs_access fs [lit "logo.png"] = false
  /\ warnings (final (run Example.json fs)) = [msg_logo (lit "logo.png")]
  /\ exit_code (run Example.json fs) = 0.
Proof.
  intros fs.
  destruct (missing_logo_warning Example.json fs (lit "logo.png"))
    as (_ & _ & Hrun & _); [reflexivity|done|reflexivity|].
  destruct (Hrun eq_refl) as [Hwarn Hexit].
  split; [reflexivity|]. split; [reflexivity|]. split; [exact Hwarn|].
  apply Hexit. reflexivity.
Defined.

(** C7 as stated fails: the logo is missing and nothing records an error,
    yet the listing of a regular file named [skills] is rejected and the
    process exits with code 1. *)
Lemma missing_logo_exit_code_one :
  let fs := tree_fs (Example.skills_is_a_file Example.manifest_logo) in
  get (manifest_read Example.json fs) LOGO = JStr (lit "logo.png")
  /\ fs_access fs [lit "logo.png"] = false
  /\ warnings (final (run Example.json fs)) = [msg_logo (lit "logo.png")]
  /\ errors (final (run Example.json fs)) = []
  /\ exit_code (run Example.json fs) <> 0.
Proof. vm_compute. repeat split; done. Qed.

(** *** Determinism *)



Lemma recorded_try_catch {A} (m : M A) (h : Exn -> M A) :
  framed m -> (forall e, framed (h e)) ->
  recorded (try_catch m h) =
    match outcome m with
    | Thrown e => extend (recorded m) (recorded (h e))
    | _ => recorded m
    end.
Proof.
  intros Hm Hh. unfold recorded at 1. rewrite try_catch_run by done.
  rewrite extend_initial_l. destruct (outcome m) as [a|e|c]; [done| |done].
  by rewrite (proj1 (Hh e) (recorded m)).
Qed.

Lemma outcome_try_catch {A} (m : M A) (h : Exn -> M A) :
  framed m -> (forall e, framed (h e)) ->
  outcome (try_catch m h) =
    match outcome m with
    | Thrown e => outcome (h e)
    | r => r
    end.
Proof.
  intros Hm Hh. unfold outcome at 1. rewrite try_catch_run by done.
  rewrite extend_initial_l. destruct (outcome m) as [a|e|c]; [done| |done].
  by rewrite (proj1 (Hh e) (recorded m)).
Qed.

Section Follows.
Variable JSON_parse : jsstring -> option JsValue.
Variables fs1 fs2 : FS.

Lemma follows_refl {A} (m : M A) : follows fs1 fs2 m m.
Proof. by intros _. Qed.

Lemma follows_bind {A B} (m1 m2 : M A) (k1 k2 : A -> M B) :
  framed m1 -> framed m2 ->
  (forall a, framed (k1 a)) -> (forall a, framed (k2 a)) ->
  follows fs1 fs2 m1 m2 -> (forall a, follows fs1 fs2 (k1 a) (k2 a)) ->
  follows fs1 fs2 (bind m1 k1) (bind m2 k2).
Proof.
  intros Hf1 Hf2 Hk1 Hk2 Hm Hk. unfold follows.
  rewrite !recorded_bind, !outcome_bind by done. intros Hall.
  assert (Hfirst : Forall (answers_alike fs1 fs2) (trace (recorded m1))).
  { destruct (outcome m1); [|done..].
    cbn [extend trace] in Hall. by apply Forall_app in Hall as [? _]. }
  destruct (Hm Hfirst) as [-> ->].
  destruct (outcome m1) as [a| |]; [|done..].
  cbn [extend trace] in Hall. apply Forall_app in Hall as [_ Hrest].
  by destruct (Hk a Hrest) as [-> ->].
Qed.

Lemma follows_try_catch {A} (m1 m2 : M A) (h1 h2 : Exn -> M A) :
  framed m1 -> framed m2 ->
  (forall e, framed (h1 e)) -> (forall e, framed (h2 e)) ->
  follows fs1 fs2 m1 m2 -> (forall e, follows fs1 fs2 (h1 e) (h2 e)) ->
  follows fs1 fs2 (try_catch m1 h1) (try_catch m2 h2).
Proof.
  intros Hf1 Hf2 Hh1 Hh2 Hm Hh. unfold follows.
  rewrite !recorded_try_catch, !outcome_try_catch by done. intros Hall.
  assert (Hfirst : Forall (answers_alike fs1 fs2) (trace (recorded m1))).
  { destruct (outcome m1); [done| |done].
    cbn [extend trace] in Hall. by apply Forall_app in Hall as [? _]. }
  destruct (Hm Hfirst) as [-> ->].
  destruct (outcome m1) as [|e|]; [done| |done].
  cbn [extend trace] in Hall. apply Forall_app in Hall as [_ Hrest].
  by destruct (Hh e Hrest) as [-> ->].
Qed.

Lemma follows_for_each {A} (l : list A) (b1 b2 : A -> M unit) :
  (forall x, framed (b1 x)) -> (forall x, framed (b2 x)) ->
  (forall x, follows fs1 fs2 (b1 x) (b2 x)) ->
  follows fs1 fs2 (for_each l b1) (for_each l b2).
Proof.
  intros Hf1 Hf2 Hb. induction l as [|x l IH]; [apply follows_refl|].
  cbn [for_each]. apply follows_bind; try done; intros _;
    by apply framed_for_each.
Qed.

Lemma follows_access p : follows fs1 fs2 (access fs1 p) (access fs2 p).
Proof.
  intros Hall.
  assert (Heq : fs_access fs1 p = fs_access fs2 p).
  { assert (Htrace : trace (recorded (access fs1 p)) = [OpAccess p]).
    { unfold recorded, access, bind, touch. cbn [fst snd].
      by destruct (fs_access fs1 p). }
    rewrite Htrace in Hall. by inversion Hall. }
  unfold access. by rewrite Heq.
Qed.

Lemma follows_readFile p : follows fs1 fs2 (readFile fs1 p) (readFile fs2 p).
Proof.
  intros Hall.
  assert (Heq : fs_readFile fs1 p = fs_readFile fs2 p).
  { assert (Htrace : trace (recorded (readFile fs1 p)) = [OpReadFile p]).
    { unfold recorded, readFile, bind, touch. cbn [fst snd].
      by destruct (fs_readFile fs1 p). }
    rewrite Htrace in Hall. by inversion Hall. }
  unfold readFile. by rewrite Heq.
Qed.

Lemma follows_readdir p : follows fs1 fs2 (readdir fs1 p) (readdir fs2 p).
Proof.
  intros Hall.
  assert (Heq : fs_readdir fs1 p = fs_readdir fs2 p).
  { assert (Htrace : trace (recorded (readdir fs1 p)) = [OpReaddir p]).
    { unfold recorded, readdir, bind, touch. cbn [fst snd].
      by destruct (fs_readdir fs1 p). }
    rewrite Htrace in Hall. by inversion Hall. }
  unfold readdir. by rewrite Heq.
Qed.

Hint Resolve follows_access follows_readFile follows_readdir follows_refl
  : core.

Ltac follows_step :=
  match goal with
  | |- forall _, follows _ _ _ _ => intros ?
  | |- follows _ _ (bind _ _) (bind _ _) =>
      apply follows_bind; [solve [framed]..| |]
  | |- follows _ _ (try_catch _ _) (try_catch _ _) =>
      apply follows_try_catch; [solve [framed]..| |]
  | |- follows _ _ (for_each _ _) (for_each _ _) =>
      apply follows_for_each; [solve [framed]..|]
  | |- follows _ _ (match ?x with _ => _ end) (match ?x with _ => _ end) =>
      destruct x
  | |- follows _ _ _ _ => solve [auto]
  end.

Lemma follows_exists_ p : follows fs1 fs2 (exists_ fs1 p) (exists_ fs2 p).
Proof. unfold exists_. repeat follows_step. Qed.

Lemma follows_readJson p :
  follows fs1 fs2 (readJson JSON_parse fs1 p) (readJson JSON_parse fs2 p).
Proof. unfold readJson. repeat follows_step. Qed.

Hint Resolve follows_exists_ follows_readJson : core.

Lemma follows_checkLogo m : follows fs1 fs2 (checkLogo fs1 m) (checkLogo fs2 m).
Proof. unfold checkLogo. repeat follows_step. Qed.

Lemma follows_checkSkill skill :
  follows fs1 fs2 (checkSkill fs1 skill) (checkSkill fs2 skill).
Proof. unfold checkSkill. repeat follows_step. Qed.

Lemma follows_checkRule rule :
  follows fs1 fs2 (checkRule fs1 rule) (checkRule fs2 rule).
Proof. unfold checkRule. repeat follows_step. Qed.

Lemma follows_checkEntry dir kind entry :
  follows fs1 fs2 (checkEntry fs1 dir kind entry) (checkEntry fs2 dir kind entry).
Proof. unfold checkEntry. repeat follows_step. Qed.

Hint Resolve follows_checkLogo follows_checkSkill follows_checkRule
  follows_checkEntry : core.

Lemma follows_checkSkills : follows fs1 fs2 (checkSkills fs1) (checkSkills fs2).
Proof. unfold checkSkills. repeat follows_step. Qed.

Lemma follows_checkRules : follows fs1 fs2 (checkRules fs1) (checkRules fs2).
Proof. unfold checkRules. repeat follows_step. Qed.

Lemma follows_checkEntries dir kind plural :
  follows fs1 fs2 (checkEntries fs1 dir kind plural)
                  (checkEntries fs2 dir kind plural).
Proof. unfold checkEntries. repeat follows_step. Qed.

Hint Resolve follows_checkSkills follows_checkRules follows_checkEntries
  : core.

Lemma follows_checkBundle m :
  follows fs1 fs2 (checkBundle fs1 m) (checkBundle fs2 m).
Proof.
  unfold checkBundle, checkDirectories, checkCommands, checkAgents.
  repeat follows_step.
Qed.

End Follows.

Lemma manifest_read_alike JSON_parse fs1 fs2 :
  answers_alike fs1 fs2 (OpReadFile MANIFEST) ->
  manifest_read JSON_parse fs2 = manifest_read JSON_parse fs1.
Proof. intros H. unfold manifest_read. cbn in H. by rewrite H. Qed.

Lemma run_follows JSON_parse fs1 fs2 :
  Forall (answers_alike fs1 fs2) (trace (final (run JSON_parse fs1))) ->
  run JSON_parse fs2 = run JSON_parse fs1.
Proof.
  intros Hall.
  destruct (truthy (manifest_read JSON_parse fs1)) eqn:Hm.
  - destruct (run_manifest JSON_parse fs1 Hm) as [out Hrun].
    rewrite Hrun in Hall. cbn [final trace] in Hall.
    apply Forall_cons in Hall as [Hmanifest Hchecks].
    pose proof (manifest_read_alike JSON_parse fs1 fs2 Hmanifest) as Hread.
    destruct (follows_checkBundle fs1 fs2 _ Hchecks) as [Hrec Hout].
    unfold run, validatePlugin. unfold bind at 1 2.
    rewrite !readJson_manifest. cbv beta iota. rewrite Hread, Hm. cbn [negb].
    unfold validateManifest. rewrite !bind_run by apply framed_checkBundle.
    by rewrite Hrec, Hout.
  - rewrite (run_no_manifest JSON_parse fs1 Hm) in Hall |- *.
    cbn [final trace] in Hall. apply Forall_cons in Hall as [Hmanifest _].
    apply run_no_manifest.
    by rewrite (manifest_read_alike JSON_parse fs1 fs2 Hmanifest).
Qed.

(** C8.  The report of a run, with its error and warning lists, the lines
    it printed, the operations it performed and its exit code, is a function
    of what the filesystem answers to the operations the run performs: a
    second run, starting like the first from the empty accumulators of a
    fresh process, on a filesystem that answers those operations as before
    ends with the same report.  So do, in particular, two runs on
    filesystems that answer every operation alike. *)
Theorem run_deterministic JSON_parse fs1 fs2 :
  (Forall (answers_alike fs1 fs2) (trace (final (run JSON_parse fs1))) ->
   run JSON_parse fs2 = run JSON_parse fs1)
  /\ (same_answers fs1 fs2 -> run JSON_parse fs2 = run JSON_parse fs1).
Proof.
  split; [apply run_follows|].
  intros (Ha & Hr & Hd). apply run_follows, Forall_forall.
  intros [p|p|p] _; cbn; auto.
Qed.

Lemma run_deterministic_witness :
  Forall (answers_alike (tree_fs Example.bundle)
                        (tree_fs Example.bundle_and_readme))
         (trace (final (run Example.json (tree_fs Example.bundle))))
  /\ run Example.json (tree_fs Example.bundle_and_readme)
     = run Example.json (tree_fs Example.bundle)
  /\ same_answers (tree_fs Example.bundle) (tree_fs Example.bundle)
  /\ run Example.json (tree_fs Example.bundle)
     = run Example.json (tree_fs Example.bundle).
Proof.
  assert (Hread : Forall (answers_alike (tree_fs Example.bundle)
                            (tree_fs Example.bundle_and_readme))
                    (trace (final (run Example.json (tree_fs Example.bundle)))))
    by (vm_compute; repeat constructor).
  assert (Hsame : same_answers (tree_fs Example.bundle) (tree_fs Example.bundle))
    by (by repeat split).
  destruct (run_deterministic Example.json (tree_fs Example.bundle)
              (tree_fs Example.bundle_and_readme)) as [Hlocal _].
  destruct (run_deterministic Example.json (tree_fs Example.bundle)
              (tree_fs Example.bundle)) as [_ Hglobal].
  split; [exact Hread|]. split; [exact (Hlocal Hread)|].
  split; [exact Hsame|]. exact (Hglobal Hsame).
Defined.

(** *** The skills directory *)

Lemma last_app_lit (a b : jsstring) c : last b = Some c -> last (a ++ b) = Some c.
Proof. intros H. by rewrite last_app, H. Qed.

Lemma msg_skill_no_file_last skill : last (msg_skill_no_file skill) = Some 100.
Proof. unfold msg_skill_no_file. by do 2 apply last_app_lit. Qed.

Lemma msg_skill_no_fm_last skill : last (msg_skill_no_fm skill) = Some 114.
Proof. unfold msg_skill_no_fm. by do 2 apply last_app_lit. Qed.

Lemma msg_skill_no_key_last skill key :
  last (msg_skill_no_key skill key) = Some 114.
Proof. unfold msg_skill_no_key. by do 4 apply last_app_lit. Qed.

Lemma msg_skill_no_file_inj a b :
  msg_skill_no_file a = msg_skill_no_file b -> a = b.
Proof.
  unfold msg_skill_no_file. intros H.
  apply (inj (app _)) in H. by apply (inj (fun x => x ++ _)) in H.
Qed.

(** What the iteration for one skill does when the skill has no
    [SKILL.md]. *)
Lemma checkSkill_no_file fs skill :
  fs_access fs [SKILLS; skill; SKILL_MD] = false ->
  forall s,
    checkSkill fs skill s
    = (extend s {| errors := [msg_skill_no_file skill]; warnings := [];
                   stdout := [];
                   trace := [OpAccess [SKILLS; skill; SKILL_MD]] |},
       Done tt).
Proof.
  intros H s. rewrite (proj1 (framed_checkSkill fs skill) s).
  unfold recorded, outcome, checkSkill, bind, exists_, try_catch, bind,
    access, touch. cbn [fst snd]. rewrite H. reflexivity.
Qed.

Lemma apart_from_initial skill : apart_from skill initial.
Proof. by split. Qed.

Lemma apart_from_extend skill a b :
  apart_from skill a -> apart_from skill b -> apart_from skill (extend a b).
Proof. intros [? ?] [? ?]. split; by apply Forall_app. Qed.

(** The iteration for another skill records neither the error of this one
    nor a read of its file. *)
Lemma checkSkill_apart fs skill other :
  other <> skill -> records (apart_from skill) (checkSkill fs other).
Proof.
  intros Hne. unfold records.
  assert (Hop : OpReadFile [SKILLS; other; SKILL_MD]
                <> OpReadFile [SKILLS; skill; SKILL_MD]) by congruence.
  assert (Hfile : msg_skill_no_file other <> msg_skill_no_file skill)
    by (by intros ?%msg_skill_no_file_inj).
  assert (Hfm : msg_skill_no_fm other <> msg_skill_no_file skill).
  { intros H. pose proof (msg_skill_no_fm_last other) as Hl.
    by rewrite H, msg_skill_no_file_last in Hl. }
  assert (Hkey : forall key, msg_skill_no_key other key <> msg_skill_no_file skill).
  { intros key H. pose proof (msg_skill_no_key_last other key) as Hl.
    by rewrite H, msg_skill_no_file_last in Hl. }
  unfold recorded, checkSkill, bind, exists_, try_catch, bind, access, touch.
  cbn [fst snd].
  destruct (fs_access fs [SKILLS; other; SKILL_MD]); cbn [fst snd negb].
  - unfold readFile, bind, touch. cbn [fst snd].
    destruct (fs_readFile fs [SKILLS; other; SKILL_MD]) as [content|];
      cbn [fst snd ret throw].
    + destruct (parseFrontmatter content) as [fm|].
      * unfold checkKeys, bind.
        destruct (truthy (fm_get fm NAME)), (truthy (fm_get fm DESCRIPTION));
          cbn [negb when error ret fst snd errors trace];
          split; cbn [errors trace app]; repeat constructor; auto; congruence.
      * split; cbn [error fst errors trace app]; repeat constructor; auto;
          congruence.
    + split; cbn [errors trace app]; repeat constructor; congruence.
  - split; cbn [error fst errors trace app]; repeat constructor; auto;
      congruence.
Qed.

Lemma for_each_skills_apart fs skill (l : list jsstring) :
  skill ∉ l -> records (apart_from skill) (for_each l (checkSkill fs)).
Proof.
  intros Hnot. apply records_for_each.
  - apply apart_from_initial.
  - apply apart_from_extend.
  - intros x. framed.
  - intros x Hx. apply checkSkill_apart. by intros ->.
Qed.

Lemma for_each_skills_no_file fs skill (l : list jsstring) :
  NoDup l -> skill ∈ l ->
  fs_access fs [SKILLS; skill; SKILL_MD] = false ->
  outcome (for_each l (checkSkill fs)) = Done tt ->
  occurrences (msg_skill_no_file skill)
              (errors (recorded (for_each l (checkSkill fs)))) = 1%nat
  /\ OpReadFile [SKILLS; skill; SKILL_MD]
     ∉ trace (recorded (for_each l (checkSkill fs))).
Proof.
  intros Hnd Hin Hfile. induction Hnd as [|x l Hx Hnd IH];
    [by apply elem_of_nil in Hin|].
  cbn [for_each]. rewrite outcome_bind, recorded_bind by framed.
  destruct (outcome (checkSkill fs x)) as [[]| |] eqn:Hox; [|done..].
  intros Hrest. apply elem_of_cons in Hin as [->|Hin].
  - pose proof (checkSkill_no_file fs x Hfile initial) as Hrun.
    rewrite extend_initial_l in Hrun.
    assert (Hrec : recorded (checkSkill fs x)
                   = {| errors := [msg_skill_no_file x]; warnings := [];
                        stdout := [];
                        trace := [OpAccess [SKILLS; x; SKILL_MD]] |})
      by (unfold recorded; by rewrite Hrun).
    rewrite Hrec. cbn [extend errors trace app].
    destruct (for_each_skills_apart fs x l Hx) as [He Ht]. split.
    + unfold occurrences. rewrite filter_cons_True by done.
      cbn [length]. f_equal. apply (occurrences_none _ _ He).
    + rewrite not_elem_of_cons. split; [done|].
      intros Hel. by apply (proj1 (Forall_forall _ _) Ht _ Hel).
  - destruct (IH Hin Hrest) as [IHe IHt].
    assert (Hne : x <> skill) by (by intros ->).
    destruct (checkSkill_apart fs skill x Hne) as [He Ht].
    cbn [extend errors trace]. split.
    + rewrite occurrences_app, IHe, (occurrences_none _ _ He). done.
    + rewrite not_elem_of_app. split; [|done].
      intros Hel. by apply (proj1 (Forall_forall _ _) Ht _ Hel).
Qed.

Lemma checkSkills_absent fs :
  fs_access fs [SKILLS] = false ->
  forall s, checkSkills fs s = (extend s skills_missing, Done tt).
Proof.
  intros H s. rewrite (proj1 (framed_checkSkills fs) s).
  unfold recorded, outcome, checkSkills, bind, exists_, try_catch, bind,
    access, touch. cbn [fst snd]. rewrite H. reflexivity.
Qed.

Lemma checkSkills_present fs skills :
  fs_access fs [SKILLS] = true -> fs_readdir fs [SKILLS] = Some skills ->
  recorded (checkSkills fs)
  = extend (touched [OpAccess [SKILLS]; OpReaddir [SKILLS]])
      (match outcome (for_each skills (checkSkill fs)) with
       | Done _ =>
           extend (recorded (for_each skills (checkSkill fs)))
             {| errors := []; warnings := [];
                stdout := [lit "  Skills: " ++ decimal (length skills)
                           ++ lit " found"];
                trace := [] |}
       | _ => recorded (for_each skills (checkSkill fs))
       end)
  /\ outcome (checkSkills fs)
     = match outcome (for_each skills (checkSkill fs)) with
       | Done _ => Done tt
       | r => r
       end.
Proof.
  intros Ha Hd. unfold checkSkills.
  rewrite recorded_bind, outcome_bind by framed.
  destruct (exists_spec fs [SKILLS]) as [-> ->]. rewrite Ha.
  rewrite recorded_bind, outcome_bind by framed.
  destruct (readdir_spec fs [SKILLS]) as [-> ->]. rewrite Hd.
  rewrite recorded_bind, outcome_bind by framed.
  split.
  - destruct (outcome (for_each skills (checkSkill fs))); reflexivity.
  - by destruct (outcome (for_each skills (checkSkill fs))) as [[]| |].
Qed.

Lemma checkRules_absent fs :
  fs_access fs [RULES] = false ->
  forall s, checkRules fs s = (extend s (touched [OpAccess [RULES]]), Done tt).
Proof.
  intros H s. rewrite (proj1 (framed_checkRules fs) s).
  unfold recorded, outcome, checkRules, bind, exists_, try_catch, bind,
    access, touch. cbn [fst snd]. rewrite H. reflexivity.
Qed.

Lemma checkEntries_absent fs dir kind plural :
  fs_access fs [dir] = false ->
  forall s,
    checkEntries fs dir kind plural s
    = (extend s (touched [OpAccess [dir]]), Done tt).
Proof.
  intros H s. rewrite (proj1 (framed_checkEntries fs dir kind plural) s).
  unfold recorded, outcome, checkEntries, bind, exists_, try_catch, bind,
    access, touch. cbn [fst snd]. rewrite H. reflexivity.
Qed.

Lemma checkDirectories_after_skills fs :
  outcome (checkSkills fs) = Done tt ->
  forall s,
    checkDirectories fs s
    = (extend (extend s (recorded (checkSkills fs)))
              (recorded (checkOptional fs)),
       outcome (checkOptional fs)).
Proof.
  intros Ho s. unfold checkDirectories. fold (checkOptional fs).
  rewrite bind_run by framed. rewrite Ho.
  apply (proj1 (framed_checkOptional fs)).
Qed.

Lemma run_skills_missing JSON_parse fs name :
  let m := manifest_read JSON_parse fs in
  truthy m = true -> toString (get m NAME) = Some name ->
  logo_well_typed m -> fs_access fs [SKILLS] = false ->
  occurrences msg_skills_missing (errors (final (run JSON_parse fs))) = 1%nat.
Proof.
  intros m Hm Hname Hlogo Habsent.
  rewrite (run_errors _ _ name) by done. fold m.
  rewrite !occurrences_app.
  assert (Hn : occurrences msg_skills_missing (name_errors m) = 0%nat).
  { apply occurrences_none. unfold name_errors. rewrite Hname.
    destruct (namePattern_test name); [done|].
    constructor; [|done]. intros Heq.
    pose proof (msg_name_pattern_is_name_error name) as Hp.
    by rewrite Heq in Hp. }
  assert (Hf : occurrences msg_skills_missing (field_errors m) = 0%nat).
  { apply occurrences_none, Forall_forall.
    intros e (f & -> & _)%list_elem_of_fmap Heq.
    pose proof (msg_missing_field_is_manifest_error f) as Hp.
    by rewrite Heq in Hp. }
  rewrite Hn, Hf, (proj1 (checkFiles_spec fs m)).
  rewrite (checkLogo_well_typed fs m Hlogo). cbn [extend errors].
  rewrite checkLogo_errors. cbn [app].
  pose proof (checkSkills_absent fs Habsent initial) as Hrun.
  rewrite extend_initial_l in Hrun.
  assert (Hout : outcome (checkSkills fs) = Done tt)
    by (unfold outcome; by rewrite Hrun).
  pose proof (checkDirectories_after_skills fs Hout initial) as Hdirs.
  rewrite extend_initial_l in Hdirs.
  assert (Hrec : recorded (checkDirectories fs)
                 = extend (recorded (checkSkills fs)) (recorded (checkOptional fs)))
    by (unfold recorded at 1; by rewrite Hdirs).
  rewrite Hrec. unfold recorded at 1. rewrite Hrun.
  cbn [fst extend skills_missing errors app].
  unfold occurrences. rewrite filter_cons_True by done. cbn [length Nat.add].
  f_equal. apply (occurrences_none msg_skills_missing).
  eapply Forall_impl;
    [apply (checkOptional_additions not_skills_missing
              entry_error_not_skills_missing fs)|].
  cbn beta. unfold not_skills_missing.
  intros e He%negb_true_iff. by apply bool_decide_eq_false in He.
Qed.

(** *** The closing delimiter *)

Lemma split_on_dashes after :
  split_on LF (lit "---" ++ LF :: after) = lit "---" :: split_on LF after.
Proof. by rewrite split_on_app. Qed.

(** A closing delimiter at index 4 or later is a line [---] after the
    first line of what follows the opening, and not the last line. *)
Lemma closing_is_a_line n body :
  n = OPENING ++ body ->
  (exists i, (4 <= i)%nat /\ occurs_at CLOSING n i) ->
  exists before after,
    split_on LF body
    = split_on LF before ++ lit "---" :: split_on LF after.
Proof.
  intros -> (i & Hi & before & after & Heq & Hlen).
  assert (Hbefore : before = OPENING ++ drop 4 before).
  { rewrite <- (take_drop 4 before) at 1. f_equal.
    apply (f_equal (take 4)) in Heq.
    rewrite take_app_length' in Heq by done.
    rewrite take_app_le in Heq by lia. done. }
  rewrite Hbefore in Heq. rewrite <- app_assoc in Heq.
  apply (inj (app _)) in Heq. subst body.
  exists (drop 4 before), after.
  unfold CLOSING. rewrite <- !app_assoc. cbn [app].
  by rewrite split_on_app, split_on_dashes.
Qed.

Lemma parseFrontmatter_empty_block content rest :
  normalize content = OPENING ++ lit "---" ++ [LF] ++ rest ->
  lit "---" ∉ split_on LF rest ->
  parseFrontmatter content = None.
Proof.
  intros Hn Hrest. apply eq_None_not_Some. intros Hsome.
  apply parseFrontmatter_is_Some in Hsome as [_ Hocc].
  destruct (closing_is_a_line _ _ Hn Hocc) as (before & after & Hsplit).
  cbn [app] in Hsplit. rewrite split_on_dashes in Hsplit.
  pose proof (split_on_nonempty LF before) as Hne.
  destruct (split_on LF before) as [|l ls]; [done|].
  injection Hsplit as _ Hsplit. apply Hrest. rewrite Hsplit.
  apply elem_of_app. right. by left.
Qed.

Lemma parseFrontmatter_unterminated content block :
  normalize content = OPENING ++ block ++ [LF] ++ lit "---" ->
  lit "---" ∉ split_on LF block ->
  parseFrontmatter content = None.
Proof.
  intros Hn Hblock. apply eq_None_not_Some. intros Hsome.
  apply parseFrontmatter_is_Some in Hsome as [_ Hocc].
  destruct (closing_is_a_line _ _ Hn Hocc) as (before & after & Hsplit).
  cbn [app] in Hsplit. rewrite split_on_app in Hsplit.
  change (split_on LF (lit "---")) with [lit "---"] in Hsplit.
  pose proof (split_on_nonempty LF after) as Hne.
  destruct (split_on LF after) as [|l ls _] using rev_ind; [done|].
  rewrite app_comm_cons, !app_assoc in Hsplit.
  apply app_inj_tail in Hsplit as [Hsplit _].
  apply Hblock. rewrite Hsplit.
  apply elem_of_app. right. by left.
Qed.

Lemma checkSkill_no_frontmatter fs skill content :
  fs_access fs [SKILLS; skill; SKILL_MD] = true ->
  fs_readFile fs [SKILLS; skill; SKILL_MD] = Some content ->
  parseFrontmatter content = None ->
  forall s,
    checkSkill fs skill s
    = (extend s {| errors := [msg_skill_no_fm skill]; warnings := [];
                   stdout := [];
                   trace := [OpAccess [SKILLS; skill; SKILL_MD];
                             OpReadFile [SKILLS; skill; SKILL_MD]] |},
       Done tt).
Proof.
  intros Ha Hr Hfm s. rewrite (proj1 (framed_checkSkill fs skill) s).
  unfold recorded, outcome, checkSkill, bind, exists_, try_catch, bind,
    access, readFile, bind, touch. cbn [fst snd]. rewrite Ha. cbn [fst snd negb].
  rewrite Hr. cbn [ret fst snd]. rewrite Hfm. reflexivity.
Qed.

(** C9.  [parseFrontmatter] gives a mapping exactly when the normalized
    content starts with the opening line and holds the five characters
    newline, three hyphens, newline at index 4 or later.  So a document
    whose opening line is at once followed by the closing line, and a
    document that ends with the closing line without a newline after it,
    give [null] as long as no other line is three hyphens, and a skill
    with such a [SKILL.md] is reported as missing frontmatter. *)
Theorem closing_delimiter_needed :
  (forall content,
     is_Some (parseFrontmatter content) <->
     starts_with OPENING (normalize content) = true
     /\ exists i, (4 <= i)%nat /\ occurs_at CLOSING (normalize content) i)
  /\ (forall content rest,
        normalize content = OPENING ++ lit "---" ++ [LF] ++ rest ->
        lit "---" ∉ split_on LF rest ->
        parseFrontmatter content = None)
  /\ (forall content block,
        normalize content = OPENING ++ block ++ [LF] ++ lit "---" ->
        lit "---" ∉ split_on LF block ->
        parseFrontmatter content = None)
  /\ (forall fs skill content,
        fs_access fs [SKILLS; skill; SKILL_MD] = true ->
        fs_readFile fs [SKILLS; skill; SKILL_MD] = Some content ->
        parseFrontmatter content = None ->
        forall s,
          checkSkill fs skill s
          = (extend s {| errors := [msg_skill_no_fm skill]; warnings := [];
                         stdout := [];
                         trace := [OpAccess [SKILLS; skill; SKILL_MD];
                                   OpReadFile [SKILLS; skill; SKILL_MD]] |},
             Done tt)).
Proof.
  split; [|split; [|split]].
  - apply parseFrontmatter_is_Some.
  - apply parseFrontmatter_empty_block.
  - apply parseFrontmatter_unterminated.
  - apply checkSkill_no_frontmatter.
Qed.

Lemma closing_delimiter_needed_witness :
  parseFrontmatter Example.empty_block = None
  /\ parseFrontmatter Example.unterminated = None
  /\ checkSkill (tree_fs (Example.skill_with Example.unterminated))
                (lit "draft") initial
     = ({| errors := [msg_skill_no_fm (lit "draft")]; warnings := [];
           stdout := [];
           trace := [OpAccess [SKILLS; lit "draft"; SKILL_MD];
                     OpReadFile [SKILLS; lit "draft"; SKILL_MD]] |},
        Done tt).
Proof.
  destruct closing_delimiter_needed as (_ & Hempty & Hlast & Hskill).
  split; [|split].
  - apply (Hempty Example.empty_block []); [reflexivity|].
    apply (bool_decide_unpack _). vm_compute. exact I.
  - apply (Hlast Example.unterminated (lit "name: draft")); [reflexivity|].
    apply (bool_decide_unpack _). vm_compute. exact I.
  - rewrite (Hskill (tree_fs (Example.skill_with Example.unterminated))
               (lit "draft") Example.unterminated eq_refl eq_refl).
    + by rewrite extend_initial_l.
    + apply (Hlast Example.unterminated (lit "name: draft")); [reflexivity|].
      apply (bool_decide_unpack _). vm_compute. exact I.
Defined.

(** *** Frontmatter extraction *)

(** What the extraction does for every key but [__proto__].  A document
    has frontmatter only if its normalized content is the opening line, a
    block, the closing line (the first at index 4 or later) and a rest.  For every key other than
    [__proto__], the mapping holds the key exactly when a line of the block
    has the [key: value] syntax with that key, and then holds the trimmed
    value of the last such line; lines without that syntax add nothing, and
    the key [__proto__] is never held.  A document that does not start with
    the opening line gives [null], and a skill with such a [SKILL.md] is
    reported as missing frontmatter. *)
Theorem frontmatter_extraction :
  (forall content (fields : gmap (list N) (list N)),
     parseFrontmatter content = Some fields ->
     exists block rest,
       normalize content = OPENING ++ block ++ CLOSING ++ rest
       /\ (forall j, (4 <= j < 4 + length block)%nat ->
             ~ occurs_at CLOSING (normalize content) j)
       /\ (forall k v : jsstring, k <> proto_key ->
             fields !! k = Some v <-> last_line_with k (split_on LF block) v)
       /\ fields !! proto_key = None)
  /\ (forall content,
        starts_with OPENING (normalize content) = false ->
        parseFrontmatter content = None)
  /\ (forall fs skill content,
        fs_access fs [SKILLS; skill; SKILL_MD] = true ->
        fs_readFile fs [SKILLS; skill; SKILL_MD] = Some content ->
        starts_with OPENING (normalize content) = false ->
        forall s,
          checkSkill fs skill s
          = (extend s {| errors := [msg_skill_no_fm skill]; warnings := [];
                         stdout := [];
                         trace := [OpAccess [SKILLS; skill; SKILL_MD];
                                   OpReadFile [SKILLS; skill; SKILL_MD]] |},
             Done tt)).
Proof.
  split; [|split].
  - intros content fields Hparse.
    destruct (parseFrontmatter_Some _ _ Hparse) as (block & rest & Hn & -> & Hfirst).
    exists block, rest. split; [done|]. split; [done|]. split.
    + intros k v Hk. rewrite foldl_absorb_lookup by done.
      rewrite lookup_empty. split; [intros [H|[_ H]]; done | by left].
    + by rewrite foldl_absorb_proto.
  - apply parseFrontmatter_no_opening.
  - intros fs skill content Ha Hr Hopen.
    apply (checkSkill_no_frontmatter fs skill content); [done..|].
    by apply parseFrontmatter_no_opening.
Qed.

Lemma frontmatter_extraction_witness :
  (exists (fields : gmap (list N) (list N)) block rest,
     parseFrontmatter (Example.document "audit" "Audit the code") = Some fields
     /\ normalize (Example.document "audit" "Audit the code")
        = OPENING ++ block ++ CLOSING ++ rest
     /\ (fields !! NAME = Some (lit "audit") <->
         last_line_with NAME (split_on LF block) (lit "audit")))
  /\ starts_with OPENING (normalize Example.plain_document) = false
  /\ parseFrontmatter Example.plain_document = None
  /\ checkSkill (tree_fs (Example.skill_with Example.plain_document))
                (lit "draft") initial
     = ({| errors := [msg_skill_no_fm (lit "draft")]; warnings := [];
           stdout := [];
           trace := [OpAccess [SKILLS; lit "draft"; SKILL_MD];
                     OpReadFile [SKILLS; lit "draft"; SKILL_MD]] |},
        Done tt).
Proof.
  destruct frontmatter_extraction as (Hshape & Hnone & Hskill).
  split; [|split; [|split]].
  - destruct (parseFrontmatter (Example.document "audit" "Audit the code"))
      as [fields|] eqn:Hparse; [|by vm_compute in Hparse].
    destruct (Hshape _ _ Hparse) as (block & rest & Hn & _ & Hkeys & _).
    exists fields, block, rest. split; [done|]. split; [done|].
    apply Hkeys. by vm_compute.
  - reflexivity.
  - apply Hnone. reflexivity.
  - rewrite (Hskill (tree_fs (Example.skill_with Example.plain_document))
               (lit "draft") Example.plain_document eq_refl eq_refl eq_refl).
    by rewrite extend_initial_l.
Defined.

(** C3.  The code does not capture every line that has the [key: value]
    syntax: at the document whose block is the one line [__proto__: x] the
    line has that syntax, the assignment [fields[match[1]] = ...] is made
    as for any other key, and the mapping that comes back is empty, the
    assignment having reached the [__proto__] setter that an object created
    by [{}] inherits. *)
Lemma proto_line_not_captured :
  parseFrontmatter Example.proto_document = Some ∅
  /\ normalize Example.proto_document
     = OPENING ++ lit "__proto__: x" ++ CLOSING ++ []
  /\ lit "__proto__: x" ∈ split_on LF (lit "__proto__: x")
  /\ line_syntax (lit "__proto__: x") proto_key (lit "x")
  /\ (∅ : gmap (list N) (list N)) !! proto_key = None.
Proof.
  split; [by vm_compute|]. split; [reflexivity|]. split; [by left|].
  split; [|done]. by apply match_line_sound.
Qed.

(** A line whose key is another name that [Object.prototype] defines is
    captured like any other. *)
Lemma constructor_line_captured :
  parseFrontmatter Cases.constructor_document
  = Some {[lit "constructor" := lit "x"]}.
Proof. by vm_compute. Qed.

(** *** Presence is truthiness *)






(** ** Further properties of the validator *)

(** *** Frontmatter: the block and its lines *)

Lemma index_from_first needle hay i k :
  starts_with needle (drop k hay) = true ->
  (forall k', (k' < k)%nat -> starts_with needle (drop k' hay) = false) ->
  index_from needle hay i = Some (i + k)%nat.
Proof.
  intros Hk Hbefore.
  destruct (index_from needle hay i) as [j|] eqn:Hj.
  - apply index_from_bound in Hj as (k0 & -> & Hk0 & Hmin).
    f_equal. f_equal.
    destruct (lt_eq_lt_dec k0 k) as [[Hlt| ->]|Hlt]; [|done|].
    + rewrite Hbefore in Hk0 by done. done.
    + rewrite Hmin in Hk by done. done.
  - apply index_from_none with (k := k) in Hj. congruence.
Qed.

Lemma indexOf_first needle hay from j :
  (from <= j)%nat -> starts_with needle (drop j hay) = true ->
  (forall j', (from <= j' < j)%nat -> starts_with needle (drop j' hay) = false) ->
  indexOf needle hay from = Some j.
Proof.
  intros Hle Hj Hbefore. unfold indexOf.
  replace j with (from + (j - from))%nat at 1 by lia.
  apply index_from_first.
  - rewrite drop_drop. by replace (from + (j - from))%nat with j by lia.
  - intros k' Hk'. rewrite drop_drop. apply Hbefore. lia.
Qed.

(** A closing delimiter that starts inside the block makes [---] one of the
    lines of the block. *)
Lemma closing_inside_block block tail i :
  (i < length block)%nat ->
  starts_with CLOSING (drop i (block ++ CLOSING ++ tail)) = true ->
  lit "---" ∈ split_on LF block.
Proof.
  intros Hi Hs. apply starts_with_prefix in Hs as [r Hr].
  rewrite drop_app_le in Hr by lia.
  rewrite <- (take_drop i block).
  destruct (drop i block) as [|c b'] eqn:Hd.
  { apply (f_equal length) in Hd. rewrite length_drop in Hd. simpl in Hd. lia. }
  unfold CLOSING in Hr. change (lit "---") with [45; 45; 45] in *.
  cbn [app] in Hr. injection Hr as -> Hr.
  rewrite split_on_app. apply elem_of_app. right.
  destruct b' as [|c1 [|c2 [|c3 [|c4 b'']]]]; cbn [app] in Hr; try discriminate.
  - injection Hr as -> -> ->. by left.
  - injection Hr as -> -> -> -> _.
    pose proof (split_on_app LF [45; 45; 45] b'') as E.
    cbn [app] in E. rewrite E. by left.
Qed.

Lemma parseFrontmatter_block content block rest :
  normalize content = OPENING ++ block ++ CLOSING ++ rest ->
  lit "---" ∉ split_on LF block ->
  parseFrontmatter content = Some (foldl absorb_line ∅ (split_on LF block)).
Proof.
  intros Hn Hblock. unfold parseFrontmatter. cbv zeta. rewrite Hn.
  assert (Hstart : starts_with OPENING (OPENING ++ block ++ CLOSING ++ rest) = true).
  { apply starts_with_prefix. by eexists. }
  rewrite Hstart. cbn [negb].
  rewrite (indexOf_first _ _ 4 (4 + length block)).
  - unfold slice. replace (4 + length block - 4)%nat with (length block) by lia.
    change 4%nat with (length OPENING) at 1.
    rewrite drop_app_length. by rewrite take_app_length.
  - lia.
  - change 4%nat with (length OPENING).
    rewrite <- drop_drop, drop_app_length, drop_app_length.
    apply starts_with_prefix. by eexists.
  - intros j Hj. apply not_true_is_false. intros Hs. apply Hblock.
    apply (closing_inside_block block rest (j - 4)); [lia|].
    replace j with (length OPENING + (j - 4))%nat in Hs
      by (change (length OPENING) with 4%nat; lia).
    by rewrite <- drop_drop, drop_app_length in Hs.
Qed.

Lemma normalize_cons2 c d t :
  normalize (c :: d :: t)
  = if (c =? CR) && (d =? LF) then LF :: normalize t else c :: normalize (d :: t).
Proof. reflexivity. Qed.

Lemma normalize_no_cr a b :
  forallb (fun c => negb (c =? CR)) a = true ->
  normalize (a ++ b) = a ++ normalize b.
Proof.
  induction a as [|c a IH]; [done|].
  cbn [forallb]. intros [Hc Ha]%andb_true_iff. specialize (IH Ha).
  cbn [app]. destruct (a ++ b) as [|d t] eqn:Hab.
  - apply app_eq_nil in Hab as [-> ->]. done.
  - rewrite normalize_cons2. apply negb_true_iff in Hc. rewrite Hc.
    cbn [andb]. by rewrite IH.
Qed.

Lemma normalize_to_crlf s : normalize s = s -> normalize (to_crlf s) = s.
Proof.
  induction s as [|c t IH]; [done|]. intros Hs.
  assert (Ht : normalize t = t /\ (c = CR -> match t with d :: _ => d <> LF | [] => True end)).
  { destruct t as [|d t']; [done|]. rewrite normalize_cons2 in Hs.
    destruct (N.eqb_spec c CR) as [->|Hc], (N.eqb_spec d LF) as [->|Hd];
      cbn [andb] in Hs; try discriminate; by injection Hs. }
  destruct Ht as [Ht Hcr]. specialize (IH Ht).
  cbn [to_crlf]. destruct (N.eqb_spec c LF) as [->|Hc].
  - rewrite normalize_cons2. cbn. by rewrite IH.
  - destruct t as [|d t']; [done|].
    cbn [to_crlf] in *. destruct (N.eqb_spec d LF) as [->|Hd].
    + rewrite normalize_cons2. replace (CR =? LF) with false by done.
      rewrite andb_false_r. by rewrite IH.
    + rewrite normalize_cons2. apply N.eqb_neq in Hd. rewrite Hd.
      rewrite andb_false_r. by rewrite IH.
Qed.

Lemma drop_spaces_head s :
  match drop_spaces s with [] => True | c :: _ => is_space c = false end.
Proof.
  induction s as [|c t IH]; [done|]. cbn [drop_spaces].
  by destruct (is_space c) eqn:Hc.
Qed.

Lemma drop_spaces_id s :
  match s with [] => True | c :: _ => is_space c = false end ->
  drop_spaces s = s.
Proof. destruct s as [|c t]; [done|]. cbn [drop_spaces]. by intros ->. Qed.

Lemma drop_spaces_suffix s : exists ws, s = ws ++ drop_spaces s.
Proof.
  induction s as [|c t [ws IH]]; [by exists []|]. cbn [drop_spaces].
  destruct (is_space c).
  - exists (c :: ws). cbn [app]. by rewrite <- IH.
  - by exists [].
Qed.

Lemma trim_trim s : trim (trim s) = trim s.
Proof.
  unfold trim. set (u := drop_spaces s). set (r := drop_spaces (reverse u)).
  assert (Hr : drop_spaces (reverse r) = reverse r).
  { apply drop_spaces_id.
    destruct (drop_spaces_suffix (reverse u)) as [ws Hws]. fold r in Hws.
    apply (f_equal reverse) in Hws. rewrite reverse_involutive, reverse_app in Hws.
    pose proof (drop_spaces_head s) as Hu. fold u in Hu. rewrite Hws in Hu.
    by destruct (reverse r). }
  rewrite Hr, reverse_involutive. f_equal. apply drop_spaces_id, drop_spaces_head.
Qed.

Lemma elem_of_drop_spaces x s : x ∈ drop_spaces s -> x ∈ s.
Proof.
  destruct (drop_spaces_suffix s) as [ws Hws]. intros Hx. rewrite Hws.
  apply elem_of_app. by right.
Qed.

Lemma elem_of_trim x s : x ∈ trim s -> x ∈ s.
Proof.
  unfold trim. rewrite elem_of_reverse. intros Hx%elem_of_drop_spaces.
  rewrite elem_of_reverse in Hx. by apply elem_of_drop_spaces.
Qed.

Lemma forallb_elem_of (p : N -> bool) (s : jsstring) :
  forallb p s = true <-> forall x, x ∈ s -> p x = true.
Proof.
  rewrite forallb_forall. split; intros H x Hx; apply H; by apply list_elem_of_In.
Qed.

Lemma forallb_trim p s : forallb p s = true -> forallb p (trim s) = true.
Proof.
  rewrite !forallb_elem_of. intros H x Hx. by apply H, elem_of_trim.
Qed.

Lemma key_char_is_dot c : is_key_char c = true -> is_dot c = true.
Proof.
  unfold is_key_char, is_word, is_lower, is_upper, is_digit, in_range, is_dot,
    is_line_terminator, HYPHEN.
  rewrite !orb_true_iff, !andb_true_iff, !N.leb_le, !N.eqb_eq.
  intros H. apply negb_true_iff.
  rewrite !orb_false_iff, !N.eqb_neq. lia.
Qed.

Lemma word_is_key_char c : is_word c = true -> is_key_char c = true.
Proof. unfold is_key_char. by intros ->. Qed.

Lemma key_syntax_is_dot k : key_syntax k -> forallb is_dot k = true.
Proof.
  intros (c & ks & -> & Hc & Hks). cbn [forallb].
  rewrite (key_char_is_dot c) by by apply word_is_key_char.
  cbn [andb]. apply forallb_elem_of. intros x Hx.
  apply key_char_is_dot. by apply (proj1 (forallb_elem_of _ _) Hks).
Qed.

Lemma is_dot_not_LF (s : jsstring) : forallb is_dot s = true -> LF ∉ s.
Proof.
  intros H Hin. by apply (proj1 (forallb_elem_of _ _) H) in Hin.
Qed.

Lemma is_dot_no_cr (s : jsstring) :
  forallb is_dot s = true -> forallb (fun c => negb (c =? CR)) s = true.
Proof.
  rewrite !forallb_elem_of. intros H x Hx. specialize (H x Hx).
  unfold is_dot, is_line_terminator in H. apply negb_true_iff in H.
  rewrite !orb_false_iff in H. destruct H as [[[_ H] _] _].
  unfold CR. by rewrite H.
Qed.

Lemma render_line_syntax kv :
  field_ok kv -> line_syntax (render_line kv) kv.1 kv.2.
Proof.
  intros (Hk & _ & Hne & Hdot & _). exists [32]. by repeat split.
Qed.

Lemma render_line_is_dot kv :
  field_ok kv -> forallb is_dot (render_line kv) = true.
Proof.
  intros (Hk & _ & _ & Hdot & _). unfold render_line.
  rewrite !forallb_app. rewrite (key_syntax_is_dot _ Hk), Hdot. done.
Qed.

Lemma absorb_render_line (fields : gmap (list N) (list N)) kv :
  field_ok kv -> absorb_line fields (render_line kv) = <[kv.1 := kv.2]> fields.
Proof.
  intros Hok. destruct (match_line_complete _ _ _ (render_line_syntax _ Hok))
    as (v' & Hm & Hv').
  unfold absorb_line. rewrite Hm.
  destruct Hok as (_ & Hproto & _ & _ & Htrim).
  rewrite Hv', Htrim. unfold fields_set. by rewrite decide_False.
Qed.

Lemma foldl_absorb_render (kvs : list (jsstring * jsstring)) :
  Forall field_ok kvs ->
  foldl absorb_line ∅ (render_line <$> kvs) = list_to_map (reverse kvs).
Proof.
  induction kvs as [|kv kvs IH] using rev_ind; [done|].
  intros [Hkvs Hkv]%Forall_app. apply Forall_cons in Hkv as [Hkv _].
  rewrite fmap_app, foldl_app, reverse_app. cbn [fmap list_fmap foldl reverse app].
  rewrite IH by done. rewrite absorb_render_line by done. done.
Qed.

Lemma split_on_no_sep sep (l : jsstring) : sep ∉ l -> split_on sep l = [l].
Proof.
  induction l as [|c t IH]; [done|]. intros Hin.
  apply not_elem_of_cons in Hin as [Hc Ht]. cbn [split_on].
  destruct (N.eqb_spec c sep) as [->|_]; [done|]. by rewrite IH.
Qed.

Lemma split_join_lines (lines : list jsstring) :
  lines <> [] -> Forall (fun l => LF ∉ l) lines ->
  split_on LF (join_lines lines) = lines.
Proof.
  induction lines as [|l rest IH]; [done|]. intros _ Hall.
  apply Forall_cons in Hall as [Hl Hrest].
  destruct rest as [|l2 rest].
  - by apply split_on_no_sep.
  - change (join_lines (l :: l2 :: rest)) with (l ++ LF :: join_lines (l2 :: rest)).
    rewrite split_on_app, IH by done. by rewrite split_on_no_sep.
Qed.

Lemma join_lines_no_cr (lines : list jsstring) :
  Forall (fun l => forallb is_dot l = true) lines ->
  forallb (fun c => negb (c =? CR)) (join_lines lines) = true.
Proof.
  induction lines as [|l rest IH]; [done|]. intros Hall.
  apply Forall_cons in Hall as [Hl Hrest].
  destruct rest as [|l2 rest].
  - by apply is_dot_no_cr.
  - change (join_lines (l :: l2 :: rest)) with (l ++ LF :: join_lines (l2 :: rest)).
    rewrite forallb_app. cbn [forallb]. rewrite IH by done.
    by rewrite is_dot_no_cr.
Qed.

Lemma render_frontmatter_block (kvs : list (jsstring * jsstring)) :
  Forall field_ok kvs ->
  (lit "---" ∉ split_on LF (join_lines (render_line <$> kvs)))
  /\ foldl absorb_line ∅ (split_on LF (join_lines (render_line <$> kvs)))
     = list_to_map (reverse kvs).
Proof.
  intros Hok. destruct kvs as [|kv kvs].
  { split; [|done]. cbn. by intros ?%list_elem_of_singleton. }
  assert (Hlines : Forall (fun l => forallb is_dot l = true)
                          (render_line <$> (kv :: kvs))).
  { apply Forall_fmap. eapply Forall_impl; [exact Hok|].
    intros x Hx. by apply render_line_is_dot. }
  rewrite split_join_lines.
  - split; [|by apply foldl_absorb_render].
    intros (x & Hx & _)%list_elem_of_fmap.
    assert (Hc : COLON ∈ lit "---").
    { rewrite Hx. unfold render_line. rewrite elem_of_app. right. by left. }
    by vm_compute in Hc; repeat (apply elem_of_cons in Hc as [Hc|Hc]; [done|]);
       apply elem_of_nil in Hc.
  - done.
  - eapply Forall_impl; [exact Hlines|]. intros l Hl. by apply is_dot_not_LF.
Qed.

(** A rendered block is read back. *)
Lemma parse_rendered (kvs : list (jsstring * jsstring)) (body : jsstring) :
  Forall field_ok kvs ->
  parseFrontmatter (render_frontmatter kvs ++ body)
  = Some (list_to_map (reverse kvs)).
Proof.
  intros Hok. destruct (render_frontmatter_block kvs Hok) as [Hno Hfold].
  rewrite <- Hfold.
  apply parseFrontmatter_block with (rest := normalize body); [|done].
  unfold render_frontmatter. rewrite <- !app_assoc.
  rewrite !app_assoc. rewrite normalize_no_cr; [done|].
  rewrite !forallb_app. rewrite join_lines_no_cr; [done|].
  apply Forall_fmap. eapply Forall_impl; [exact Hok|].
  intros x Hx. by apply render_line_is_dot.
Qed.

(** A rendered block has the keys it was rendered with. *)
Lemma has_keys_rendered (keys : list jsstring)
    (kvs : list (jsstring * jsstring)) (body : jsstring) :
  Forall field_ok kvs -> (forall k, k ∈ keys -> k ∈ kvs.*1) ->
  has_keys keys (render_frontmatter kvs ++ body).
Proof.
  intros Hok Hkeys. exists (list_to_map (reverse kvs)).
  split; [by apply parse_rendered|].
  intros k Hk%Hkeys.
  destruct (list_to_map (M := gmap (list N) (list N)) (reverse kvs) !! k)
    as [v|] eqn:Hv.
  - exists v. split; [done|].
    apply elem_of_list_to_map_2 in Hv. rewrite elem_of_reverse in Hv.
    by destruct (proj1 (Forall_forall _ _) Hok _ Hv) as (_ & _ & ? & _).
  - apply not_elem_of_list_to_map in Hv. destruct Hv.
    by rewrite fmap_reverse, elem_of_reverse.
Qed.

(** The documents of the examples are rendered blocks with a body. *)
Lemma document_rendered (name description : string) :
  Example.document name description
  = render_frontmatter [(NAME, lit name); (DESCRIPTION, lit description)]
    ++ LF :: lit "Body." ++ [LF].
Proof.
  unfold Example.document, render_frontmatter, render_line, OPENING, CLOSING.
  cbn [fmap list_fmap join_lines fst snd].
  change NAME with [110; 97; 109; 101].
  change DESCRIPTION with [100; 101; 115; 99; 114; 105; 112; 116; 105; 111; 110].
  change (lit "name: ") with [110; 97; 109; 101; 58; 32].
  change (lit "description: ")
    with [100; 101; 115; 99; 114; 105; 112; 116; 105; 111; 110; 58; 32].
  change (lit ": ") with [58; 32].
  change (lit "---") with [45; 45; 45].
  cbn [app]. rewrite <- !app_assoc. reflexivity.
Qed.

(** X1. Windows line endings do not change what is extracted: for a
    content without a CR LF pair, writing every line break as CR LF gives a
    text that normalizes back to the content and has the same frontmatter. *)
Theorem crlf_line_endings content :
  normalize content = content ->
  normalize (to_crlf content) = content
  /\ parseFrontmatter (to_crlf content) = parseFrontmatter content.
Proof.
  intros Hn. pose proof (normalize_to_crlf _ Hn) as Hc. split; [done|].
  unfold parseFrontmatter. by rewrite Hc, Hn.
Qed.

Lemma crlf_line_endings_witness :
  normalize (Example.document "audit" "Audit the code")
  = Example.document "audit" "Audit the code"
  /\ parseFrontmatter (to_crlf (Example.document "audit" "Audit the code"))
     = parseFrontmatter (Example.document "audit" "Audit the code").
Proof.
  assert (H : normalize (Example.document "audit" "Audit the code")
              = Example.document "audit" "Audit the code") by reflexivity.
  split; [exact H|]. exact (proj2 (crlf_line_endings _ H)).
Defined.

(** X2. Every entry of an extracted mapping is well formed: the key is a
    word character followed by word characters and hyphens and is never
    [__proto__]; the value has no white space at either end and holds no
    line terminator. *)
Theorem frontmatter_well_formed (content : jsstring) (fields : gmap (list N) (list N))
    (k v : jsstring) :
  parseFrontmatter content = Some fields -> fields !! k = Some v ->
  key_syntax k /\ k <> proto_key /\ trim v = v /\ forallb is_dot v = true.
Proof.
  intros (block & rest & _ & -> & _)%parseFrontmatter_Some Hk.
  destruct (decide (k = proto_key)) as [->|Hproto].
  { by rewrite foldl_absorb_proto in Hk. }
  apply foldl_absorb_lookup in Hk as [Hlast|[_ Hk]]; [|done|done].
  destruct Hlast as (before & line & after & v0 & _ & Hline & -> & _).
  destruct Hline as (ws & _ & Hkey & _ & _ & Hdot).
  repeat split; [done|done|apply trim_trim|by apply forallb_trim].
Qed.

Lemma frontmatter_well_formed_witness :
  exists fields : gmap (list N) (list N),
    parseFrontmatter (Example.document "audit" "Audit the code") = Some fields
    /\ fields !! DESCRIPTION = Some (lit "Audit the code")
    /\ key_syntax DESCRIPTION
    /\ trim (lit "Audit the code") = lit "Audit the code".
Proof.
  assert (Hok : Forall field_ok
                  [(NAME, lit "audit"); (DESCRIPTION, lit "Audit the code")]).
  { assert (Hn : key_syntax NAME) by (eexists _, _; by repeat split).
    assert (Hd : key_syntax DESCRIPTION) by (eexists _, _; by repeat split).
    constructor; [|constructor; [|constructor]];
      (split; [assumption|]); repeat split; by vm_compute. }
  pose proof (parse_rendered _ (LF :: lit "Body." ++ [LF]) Hok) as H.
  rewrite <- document_rendered in H.
  eexists. split; [exact H|].
  assert (Hl : (list_to_map
                  (reverse [(NAME, lit "audit");
                            (DESCRIPTION, lit "Audit the code")])
                : gmap (list N) (list N)) !! DESCRIPTION
               = Some (lit "Audit the code")).
  { apply elem_of_list_to_map_1; [|by left].
    apply NoDup_cons. split; [|apply NoDup_singleton].
    intros Hin%list_elem_of_singleton. by vm_compute in Hin. }
  split; [exact Hl|].
  pose proof (frontmatter_well_formed _ _ DESCRIPTION (lit "Audit the code") H Hl)
    as (Hk & _ & Ht & _).
  by split.
Defined.

(** X3. The frontmatter ends at the first line [---] after the opening
    line: when the normalized content is the opening line, a block none of
    whose lines is [---], the closing line and anything else, the result is
    the mapping of the lines of that block, whatever follows the closing
    line. *)
Theorem frontmatter_ends_at_first_closing content content' block rest rest' :
  normalize content = OPENING ++ block ++ CLOSING ++ rest ->
  normalize content' = OPENING ++ block ++ CLOSING ++ rest' ->
  lit "---" ∉ split_on LF block ->
  parseFrontmatter content = Some (foldl absorb_line ∅ (split_on LF block))
  /\ parseFrontmatter content' = parseFrontmatter content.
Proof.
  intros Hn Hn' Hblock.
  by rewrite (parseFrontmatter_block _ _ _ Hn Hblock),
             (parseFrontmatter_block _ _ _ Hn' Hblock).
Qed.

Lemma frontmatter_ends_at_first_closing_witness :
  let block := lit "name: audit" ++ LF :: lit "description: Audit the code" in
  let content' := OPENING ++ block ++ CLOSING ++ lit "---" ++ [LF] in
  (lit "---" ∉ split_on LF block)
  /\ parseFrontmatter content'
     = parseFrontmatter (Example.document "audit" "Audit the code").
Proof.
  intros block content'.
  assert (Hblock : lit "---" ∉ split_on LF block).
  { intros H. vm_compute in H.
    repeat (apply elem_of_cons in H as [H|H]; [discriminate|]).
    by apply elem_of_nil in H. }
  split; [exact Hblock|].
  exact (proj2 (frontmatter_ends_at_first_closing
                  (Example.document "audit" "Audit the code") content' block
                  (LF :: lit "Body." ++ [LF]) (lit "---" ++ [LF])
                  eq_refl eq_refl Hblock)).
Defined.

(** X4. Round trip: keys and values written one per line as [key: value]
    between the two delimiter lines, followed by any body, are read back as
    the mapping of that list, a later pair replacing an earlier one with the
    same key; with distinct keys the mapping holds exactly the pairs of the
    list.  The keys have the syntax of a key and are not [__proto__]; the
    values are not empty and hold no line terminator and no white space at
    either end. *)
Theorem frontmatter_round_trip (kvs : list (jsstring * jsstring))
    (body : jsstring) :
  Forall field_ok kvs ->
  parseFrontmatter (render_frontmatter kvs ++ body)
  = Some (list_to_map (reverse kvs))
  /\ (NoDup kvs.*1 ->
      forall fields : gmap (list N) (list N),
        parseFrontmatter (render_frontmatter kvs ++ body) = Some fields ->
        forall k v : jsstring, fields !! k = Some v <-> (k, v) ∈ kvs).
Proof.
  intros Hok. pose proof (parse_rendered kvs body Hok) as Hparse.
  split; [done|]. intros Hdup fields Hf k v.
  rewrite Hparse in Hf. injection Hf as <-.
  rewrite <- elem_of_list_to_map.
  - by rewrite elem_of_reverse.
  - by rewrite fmap_reverse, reverse_Permutation.
Qed.

Lemma frontmatter_round_trip_witness :
  let kvs := [(NAME, lit "audit"); (DESCRIPTION, lit "Audit the code")] in
  let body := LF :: lit "Body." ++ [LF] in
  Forall field_ok kvs
  /\ render_frontmatter kvs ++ body = Example.document "audit" "Audit the code"
  /\ parseFrontmatter (render_frontmatter kvs ++ body)
     = Some (list_to_map (reverse kvs)).
Proof.
  intros kvs body.
  assert (Hok : Forall field_ok kvs).
  { assert (Hn : key_syntax NAME) by (eexists _, _; by repeat split).
    assert (Hd : key_syntax DESCRIPTION) by (eexists _, _; by repeat split).
    constructor; [|constructor; [|constructor]];
      (split; [assumption|]); repeat split; by vm_compute. }
  split; [exact Hok|]. split; [reflexivity|].
  exact (proj1 (frontmatter_round_trip kvs body Hok)).
Defined.

(** X5. A key with nothing after its colon, as when the value is written
    on the following lines, is not captured; a key whose colon is followed
    by white space only is captured with the empty string as its value. *)
Theorem key_without_value (fields : gmap (list N) (list N)) (k ws : jsstring) :
  key_syntax k ->
  absorb_line fields (k ++ [COLON]) = fields
  /\ (ws <> [] -> forallb is_space ws = true -> forallb is_dot ws = true ->
      absorb_line fields (k ++ COLON :: ws) = fields_set k [] fields).
Proof.
  intros (c & ks & -> & Hc & Hks).
  assert (Hcolon : is_key_char COLON = false) by reflexivity.
  split.
  - unfold absorb_line, match_line. cbn [app]. rewrite Hc.
    rewrite (span_app _ _ _ _ Hks Hcolon). by rewrite N.eqb_refl.
  - intros Hne Hsp Hdot.
    destruct (match_value_complete [] ws eq_refl Hne Hdot) as [v Hv].
    cbn [app] in Hv. pose proof (match_value_trim _ _ Hv) as Ht.
    rewrite <- (app_nil_r ws) in Ht.
    rewrite (trim_app_spaces _ _ Hsp) in Ht. change (trim []) with (@nil N) in Ht.
    unfold absorb_line, match_line. cbn [app]. rewrite Hc.
    rewrite (span_app _ _ _ _ Hks Hcolon). rewrite N.eqb_refl, Hv. by rewrite Ht.
Qed.

Lemma key_without_value_witness :
  key_syntax DESCRIPTION
  /\ absorb_line ∅ (lit "description:") = ∅
  /\ absorb_line ∅ (lit "description: ") = {[DESCRIPTION := []]}.
Proof.
  assert (Hk : key_syntax DESCRIPTION) by (eexists _, _; by repeat split).
  split; [exact Hk|].
  destruct (key_without_value ∅ DESCRIPTION [32] Hk) as [H1 H2].
  split; [exact H1|]. exact (H2 ltac:(done) eq_refl eq_refl).
Defined.

(** *** The report *)

Lemma for_each_log {A} (l : list A) (f : A -> jsstring) s :
  for_each l (fun x => console_log (f x)) s
  = ({| errors := errors s; warnings := warnings s;
        stdout := stdout s ++ (f <$> l); trace := trace s |}, Done tt).
Proof.
  revert s. induction l as [|x l IH]; intros s.
  - cbn [for_each fmap list_fmap ret]. rewrite app_nil_r. by destruct s.
  - cbn [for_each]. unfold bind at 1. unfold console_log at 1.
    rewrite IH. cbn [errors warnings stdout trace fmap list_fmap].
    by rewrite <- app_assoc.
Qed.

Ltac report_lines_eq :=
  f_equal; f_equal; unfold warning_line, error_line, success_line;
  rewrite <- ?app_assoc; cbn [app]; rewrite <- ?app_assoc; reflexivity.

Lemma printReport_exact s :
  printReport s
  = ({| errors := errors s; warnings := warnings s;
        stdout := stdout s ++ report_lines (warnings s) (errors s);
        trace := trace s |},
     match errors s with [] => Done tt | _ :: _ => Exited 1 end).
Proof.
  unfold printReport, report_lines.
  unfold bind at 1. unfold console_log at 1.
  unfold bind at 1. unfold get_state at 1. cbn [warnings errors stdout trace].
  unfold bind at 1.
  destruct (warnings s) as [|w ws] eqn:Hw.
  - cbn [length Nat.eqb negb when ret].
    unfold bind at 1. unfold get_state at 1. cbn [warnings errors stdout trace].
    unfold bind at 1.
    destruct (errors s) as [|e es] eqn:He.
    + cbn [length Nat.eqb negb when ret]. unfold console_log.
      cbn [errors warnings stdout trace]. report_lines_eq.
    + cbn [length Nat.eqb negb when].
      unfold bind at 1. unfold console_log at 1.
      unfold bind at 1. rewrite for_each_log.
      unfold bind at 1. unfold console_log at 1. unfold exit.
      cbn [warnings errors stdout trace]. report_lines_eq.
  - cbn [length Nat.eqb negb when].
    unfold bind at 1. unfold console_log at 1.
    unfold bind at 1. rewrite for_each_log.
    unfold console_log at 1.
    unfold bind at 1. unfold get_state at 1. cbn [warnings errors stdout trace].
    unfold bind at 1.
    destruct (errors s) as [|e es] eqn:He.
    + cbn [length Nat.eqb negb when ret]. unfold console_log.
      cbn [errors warnings stdout trace].
      report_lines_eq.
    + cbn [length Nat.eqb negb when].
      unfold bind at 1. unfold console_log at 1.
      unfold bind at 1. rewrite for_each_log.
      unfold bind at 1. unfold console_log at 1. unfold exit.
      cbn [warnings errors stdout trace]. report_lines_eq.
Qed.

Section RunExact.
Variable JSON_parse : jsstring -> option JsValue.
Variable fs : FS.

(** The run on a truthy manifest, with its output. *)
Lemma run_exact :
  truthy (manifest_read JSON_parse fs) = true ->
  let m := manifest_read JSON_parse fs in
  let d := recorded (checkBundle fs m) in
  run JSON_parse fs
  = {| final := {| errors := errors d; warnings := warnings d;
                   stdout := stdout d
                             ++ match outcome (checkBundle fs m) with
                                | Thrown _ => []
                                | _ => report_lines (warnings d) (errors d)
                                end;
                   trace := OpReadFile MANIFEST :: trace d |};
       uncaught := match outcome (checkBundle fs m) with
                   | Thrown e => Some e
                   | _ => None
                   end;
       exit_code := match outcome (checkBundle fs m) with
                    | Thrown _ => 1
                    | _ => match errors d with [] => 0 | _ :: _ => 1 end
                    end |}.
Proof.
  intros Hm m d. unfold run, validatePlugin. unfold bind at 1.
  rewrite readJson_manifest. cbv beta iota. rewrite Hm. fold m. cbn [negb].
  unfold validateManifest. rewrite bind_run by apply framed_checkBundle.
  fold d. rewrite extend_initial_l.
  destruct (framed_checkBundle fs m) as [_ Hexit].
  destruct (outcome (checkBundle fs m)) as [[]|e|c] eqn:Ho.
  - rewrite printReport_exact.
    cbn [extend touched errors warnings trace stdout app].
    by destruct (errors d).
  - cbn [extend touched errors warnings trace stdout app].
    by rewrite app_nil_r.
  - by destruct (Hexit c).
Qed.

End RunExact.

(** Splits a goal [records Q m] along the structure of [m]; [Qi] and [Qe]
    are the proofs that [Q] holds of the empty additions and is kept by
    [extend]. *)
Ltac records_step Qi Qe :=
  match goal with
  | |- records _ (bind _ _) =>
      apply (records_bind _ Qe); [solve [framed]|solve [framed]| |intros ?]
  | |- records _ (when _ _) => apply (records_when _ Qi)
  | |- records _ (ret _) => apply (records_ret _ Qi)
  | |- records _ (for_each _ _) =>
      apply (records_for_each _ Qi Qe); [intros ?; solve [framed]|intros ? ?]
  | |- records _ (match ?x with _ => _ end) => destruct x eqn:?
  end.

Lemma recorded_to_string v : recorded (to_string v) = initial.
Proof. unfold recorded, to_string. by destruct (toString v). Qed.

Lemma recorded_path_join v : recorded (path_join v) = initial.
Proof. unfold recorded. by destruct v. Qed.

Lemma progress_only_initial : progress_only initial.
Proof. constructor. Qed.

Lemma progress_only_extend a b :
  progress_only a -> progress_only b -> progress_only (extend a b).
Proof. intros Ha Hb. by apply Forall_app. Qed.

(** The leaves of the validator that print nothing. *)
Ltac silent_leaf :=
  unfold records;
  first [rewrite (proj1 (exists_spec _ _))
        |rewrite (proj1 (readFile_spec _ _))
        |rewrite (proj1 (readdir_spec _ _))
        |rewrite recorded_to_string
        |rewrite recorded_path_join
        |idtac];
  by constructor.

Ltac progress_leaf :=
  match goal with
  | |- records _ (console_log _) =>
      unfold records; apply Forall_cons; split; [by vm_compute|constructor]
  | |- _ => silent_leaf
  end.

Ltac progress_tac :=
  repeat first [records_step progress_only_initial progress_only_extend
               |progress_leaf].

Lemma progress_only_checkBundle fs m : records progress_only (checkBundle fs m).
Proof.
  unfold checkBundle, checkName, checkRequiredFields, logName, checkLogo,
    checkDirectories, checkSkills, checkRules, checkCommands, checkAgents,
    checkEntries, checkSkill, checkRule, checkEntry, checkKeys.
  progress_tac.
Qed.

Lemma report_line_not_progress ws es line :
  line ∈ report_lines ws es -> is_progress_line line = false.
Proof.
  unfold report_lines. rewrite !elem_of_app, list_elem_of_singleton.
  intros [->|[Hw|He]]; [done| |].
  - destruct ws as [|w ws]; [by apply elem_of_nil in Hw|].
    apply elem_of_cons in Hw as [->|Hw]; [by vm_compute|].
    apply elem_of_app in Hw as [Hw|Hw].
    + apply list_elem_of_fmap in Hw as (x & -> & _). by vm_compute.
    + apply list_elem_of_singleton in Hw as ->. done.
  - destruct es as [|e es].
    + apply list_elem_of_singleton in He as ->. by vm_compute.
    + apply elem_of_cons in He as [->|He]; [by vm_compute|].
      apply elem_of_app in He as [He|He].
      * apply list_elem_of_fmap in He as (x & -> & _). by vm_compute.
      * apply list_elem_of_singleton in He as ->. done.
Qed.

Lemma success_line_in_report ws es :
  success_line ∈ report_lines ws es <-> es = [].
Proof.
  split.
  - unfold report_lines. rewrite !elem_of_app, list_elem_of_singleton.
    intros [H|[Hw|He]]; [discriminate| |].
    + destruct ws as [|w ws]; [by apply elem_of_nil in Hw|].
      apply elem_of_cons in Hw as [H|Hw].
      { apply (f_equal (starts_with [10003])) in H. by vm_compute in H. }
      apply elem_of_app in Hw as [Hw|Hw].
      * apply list_elem_of_fmap in Hw as (x & H & _).
        apply (f_equal (starts_with [10003])) in H. by vm_compute in H.
      * by apply list_elem_of_singleton in Hw.
    + destruct es as [|e es]; [done|].
      apply elem_of_cons in He as [H|He].
      { apply (f_equal (starts_with [10003])) in H. by vm_compute in H. }
      apply elem_of_app in He as [He|He].
      * apply list_elem_of_fmap in He as (x & H & _).
        apply (f_equal (starts_with [10003])) in H. by vm_compute in H.
      * by apply list_elem_of_singleton in He.
  - intros ->. unfold report_lines. rewrite !elem_of_app. right. right.
    by apply list_elem_of_singleton.
Qed.

Lemma error_line_in_report ws es e : e ∈ es -> error_line e ∈ report_lines ws es.
Proof.
  intros He. unfold report_lines. rewrite !elem_of_app. right. right.
  destruct es as [|e0 es]; [by apply elem_of_nil in He|].
  right. apply elem_of_app. left. by apply list_elem_of_fmap_2.
Qed.

Lemma warning_line_in_report ws es w :
  w ∈ ws -> warning_line w ∈ report_lines ws es.
Proof.
  intros Hw. unfold report_lines. rewrite !elem_of_app. right. left.
  destruct ws as [|w0 ws]; [by apply elem_of_nil in Hw|].
  right. apply elem_of_app. left. by apply list_elem_of_fmap_2.
Qed.

(** X6. The report of a run that completes on a truthy manifest: after
    the progress lines come a blank line, the warnings block when there are
    warnings, and then the errors block or the success line; every recorded
    error and every recorded warning is listed. *)
Theorem report_of_completed_run JSON_parse fs :
  let m := manifest_read JSON_parse fs in
  let r := run JSON_parse fs in
  truthy m = true -> uncaught r = None ->
  stdout (final r)
  = stdout (recorded (checkBundle fs m))
    ++ report_lines (warnings (final r)) (errors (final r))
  /\ (forall e, e ∈ errors (final r) -> error_line e ∈ stdout (final r))
  /\ (forall w, w ∈ warnings (final r) -> warning_line w ∈ stdout (final r)).
Proof.
  intros m r Hm Hu. subst r. rewrite (run_exact _ _ Hm) in *. fold m in Hu |- *.
  cbn [final uncaught stdout errors warnings] in *.
  destruct (outcome (checkBundle fs m)) as [[]|e|c]; [|done|].
  - split; [done|]. split; intros x Hx; apply elem_of_app; right.
    + by apply error_line_in_report.
    + by apply warning_line_in_report.
  - split; [done|]. split; intros x Hx; apply elem_of_app; right.
    + by apply error_line_in_report.
    + by apply warning_line_in_report.
Qed.

Lemma report_of_completed_run_witness :
  let fs := tree_fs (Example.bundle_with Example.manifest_no_license) in
  truthy (manifest_read Example.json fs) = true
  /\ uncaught (run Example.json fs) = None
  /\ stdout (final (run Example.json fs))
     = [lit "Validating plugin: typescript-best-practices" ++ [LF];
        lit "  Skills: 1 found"; lit "  Rules: 1 found";
        lit "  Commands: 1 found"; [];
        lit "Errors (1):";
        error_line (msg_missing_field (lit "license")); []].
Proof.
  intros fs.
  assert (Hm : truthy (manifest_read Example.json fs) = true) by reflexivity.
  assert (Hu : uncaught (run Example.json fs) = None) by (by vm_compute).
  split; [exact Hm|]. split; [exact Hu|].
  rewrite (proj1 (report_of_completed_run Example.json fs Hm Hu)).
  by vm_compute.
Defined.

(** *** The printed text *)

Lemma printed_lines_spec (out : list jsstring) :
  printed_lines out = concat (split_on LF <$> out) ++ [[]].
Proof.
  unfold printed_lines, printed.
  induction out as [|line out IH]; [reflexivity|].
  rewrite !fmap_cons. cbn [concat]. rewrite <- (app_assoc line [LF]).
  cbn [app]. by rewrite split_on_app, IH, app_assoc.
Qed.

Lemma elem_of_concat {A} (x : A) (ls : list (list A)) :
  x ∈ concat ls <-> exists l, l ∈ ls /\ x ∈ l.
Proof.
  induction ls as [|l ls IH]; simpl.
  - split; [by intros ?%elem_of_nil|by intros (l & ?%elem_of_nil & _)].
  - rewrite elem_of_app, IH. split.
    + intros [Hx|(l' & Hl' & Hx)]; [exists l; split; [by left|done]|].
      exists l'. split; [by right|done].
    + intros (l' & [->|Hl']%elem_of_cons & Hx); [by left|].
      right. by exists l'.
Qed.

Lemma elem_of_printed_lines (out : list jsstring) (l : jsstring) :
  l <> [] ->
  l ∈ printed_lines out <-> exists line, line ∈ out /\ l ∈ split_on LF line.
Proof.
  intros Hl. rewrite printed_lines_spec, elem_of_app, list_elem_of_singleton.
  split.
  - intros [Hin|?]; [|done].
    apply elem_of_concat in Hin as (pieces & Hp & Hin).
    apply list_elem_of_fmap in Hp as (line & -> & Hline). by exists line.
  - intros (line & Hline & Hin). left.
    apply elem_of_concat. exists (split_on LF line).
    split; [|done]. by apply (list_elem_of_fmap_2 (split_on LF)).
Qed.

Lemma split_on_chars sep (s piece : jsstring) c :
  piece ∈ split_on sep s -> c ∈ piece -> c ∈ s.
Proof.
  revert piece. induction s as [|d s IH]; simpl; intros piece Hp Hc.
  - apply list_elem_of_singleton in Hp as ->. by apply elem_of_nil in Hc.
  - destruct (d =? sep).
    + apply elem_of_cons in Hp as [->|Hp]; [by apply elem_of_nil in Hc|].
      right. by apply (IH piece).
    + pose proof (split_on_nonempty sep s) as Hne.
      destruct (split_on sep s) as [|l ls]; [done|].
      apply elem_of_cons in Hp as [->|Hp].
      * apply elem_of_cons in Hc as [->|Hc]; [by left|].
        right. apply (IH l); [by left|done].
      * right. apply (IH piece); [by right|done].
Qed.

Lemma success_line_marked : 10003 ∈ success_line.
Proof. by left. Qed.

Lemma success_not_in_unmarked (a : jsstring) :
  10003 ∉ a -> success_line ∉ split_on LF a.
Proof.
  intros Ha Hin. apply Ha.
  apply (split_on_chars LF a success_line); [done|apply success_line_marked].
Qed.

Lemma success_not_in_line (a : jsstring) :
  LF ∉ a -> a <> success_line -> success_line ∉ split_on LF a.
Proof.
  intros Ha Hne. rewrite split_on_no_sep by done.
  intros Hin. by apply list_elem_of_singleton in Hin.
Qed.

Lemma lit_unmarked (s : string) : 10003 ∉ lit s.
Proof.
  unfold lit. intros Hin. apply list_elem_of_fmap in Hin as (a & Ha & _).
  pose proof (N_ascii_bounded a). lia.
Qed.

Lemma decimal_unmarked (n : nat) : 10003 ∉ decimal n.
Proof. apply lit_unmarked. Qed.

Lemma count_line_unmarked (s t u : string) (n : nat) :
  10003 ∉ lit s ++ lit t ++ lit u ++ decimal n ++ lit " found".
Proof.
  rewrite !not_elem_of_app.
  repeat split; first [apply lit_unmarked|apply decimal_unmarked].
Qed.

Lemma unmarked_initial : unmarked initial.
Proof. constructor. Qed.

Lemma unmarked_extend a b : unmarked a -> unmarked b -> unmarked (extend a b).
Proof. intros Ha Hb. by apply Forall_app. Qed.

Ltac unmarked_leaf :=
  match goal with
  | |- records _ (console_log _) =>
      unfold records; apply Forall_cons; split; [|constructor];
      rewrite !not_elem_of_app;
      repeat split; first [apply lit_unmarked|apply decimal_unmarked]
  | |- _ => silent_leaf
  end.

Ltac unmarked_tac :=
  repeat first [records_step unmarked_initial unmarked_extend|unmarked_leaf].

(** The lines printed after the one that announces the plugin hold no
    check mark. *)
Lemma unmarked_checkFiles fs m : records unmarked (checkFiles fs m).
Proof.
  unfold checkFiles, checkLogo, checkDirectories, checkSkills, checkRules,
    checkCommands, checkAgents, checkEntries, checkSkill, checkRule,
    checkEntry, checkKeys.
  unfold SKILLS, RULES, COMMANDS, AGENTS.
  unmarked_tac.
Qed.

(** Decides that a character does not occur in a closed string. *)
Ltac absent_char := apply (bool_decide_unpack _); vm_compute; exact I.

Lemma printed_lines_snoc (out : list jsstring) (l : jsstring) :
  printed_lines (out ++ [l])
  = concat (split_on LF <$> out) ++ split_on LF l ++ [[]].
Proof.
  rewrite printed_lines_spec, fmap_app, concat_app. cbn [fmap list_fmap concat].
  by rewrite app_nil_r, <- app_assoc.
Qed.

(** A text that ends with the success line and a line break: the last
    argument printed ends with the success line. *)
Lemma printed_lines_end (out : list jsstring) (l : jsstring) :
  (exists before, printed_lines out = before ++ [l; []]) <->
  exists out' line, out = out' ++ [line] /\ last (split_on LF line) = Some l.
Proof.
  split.
  - intros (before & Heq).
    destruct (decide (out = [])) as [->|Hne].
    { apply (f_equal length) in Heq. rewrite length_app in Heq.
      simpl in Heq. lia. }
    apply exists_last in Hne as (out' & line & ->).
    exists out', line. split; [done|].
    rewrite printed_lines_snoc in Heq.
    pose proof (split_on_nonempty LF line) as Hne.
    apply exists_last in Hne as (pieces & piece & Hp).
    rewrite Hp in Heq |- *. rewrite last_snoc.
    change [l; []] with ([l] ++ [[]]) in Heq.
    rewrite !app_assoc in Heq.
    apply app_inj_tail in Heq as [Heq _].
    apply app_inj_tail in Heq as [_ ->]. done.
  - intros (out' & line & -> & Hlast).
    apply last_Some in Hlast as (pieces & Hp).
    exists (concat (split_on LF <$> out') ++ pieces).
    rewrite printed_lines_snoc, Hp, <- !app_assoc. done.
Qed.

Lemma last_split_elem_of (line l : jsstring) :
  last (split_on LF line) = Some l -> l ∈ split_on LF line.
Proof.
  intros (pieces & ->)%last_Some. apply elem_of_app. right. by left.
Qed.

Lemma announce_pieces (name : jsstring) :
  split_on LF (lit "Validating plugin: " ++ name ++ [LF])
  = split_on LF (lit "Validating plugin: " ++ name) ++ [[]].
Proof. by rewrite app_assoc, split_on_app. Qed.

Lemma warning_line_plain (w : jsstring) :
  LF ∉ w -> success_line ∉ split_on LF (warning_line w).
Proof.
  intros Hw. apply success_not_in_line.
  - unfold warning_line. rewrite !not_elem_of_app.
    repeat split; [absent_char|absent_char|absent_char|done].
  - intros H. apply (f_equal (starts_with [10003])) in H. by vm_compute in H.
Qed.

Lemma error_line_plain (e : jsstring) :
  LF ∉ e -> success_line ∉ split_on LF (error_line e).
Proof.
  intros He. apply success_not_in_line.
  - unfold error_line. rewrite !not_elem_of_app.
    repeat split; [absent_char|absent_char|absent_char|done].
  - intros H. apply (f_equal (starts_with [10003])) in H. by vm_compute in H.
Qed.

Lemma announce_plain (name : jsstring) :
  LF ∉ name ->
  success_line ∉ split_on LF (lit "Validating plugin: " ++ name ++ [LF]).
Proof.
  intros Hn. rewrite announce_pieces, not_elem_of_app. split.
  - apply success_not_in_line.
    + rewrite not_elem_of_app. split; [absent_char|done].
    + intros H. apply (f_equal (starts_with [10003])) in H. by vm_compute in H.
  - intros H. by apply list_elem_of_singleton in H.
Qed.

(** The lines of a report. *)
Lemma report_line_cases ws es (line : jsstring) :
  line ∈ report_lines ws es ->
  line = [] \/ 10003 ∉ line
  \/ (exists w, w ∈ ws /\ line = warning_line w)
  \/ (exists e, e ∈ es /\ line = error_line e)
  \/ (line = success_line /\ es = []).
Proof.
  unfold report_lines. rewrite !elem_of_app, list_elem_of_singleton.
  intros [->|[Hw|He]]; [by left| |].
  - destruct ws as [|w ws]; [by apply elem_of_nil in Hw|].
    apply elem_of_cons in Hw as [->|Hw].
    { right. left. rewrite !not_elem_of_app.
      repeat split; first [apply lit_unmarked|apply decimal_unmarked]. }
    apply elem_of_app in Hw as [Hw|Hw].
    + apply list_elem_of_fmap in Hw as (x & -> & Hx).
      right. right. left. by exists x.
    + apply list_elem_of_singleton in Hw as ->. by left.
  - destruct es as [|e es].
    + apply list_elem_of_singleton in He as ->. by repeat right.
    + apply elem_of_cons in He as [->|He].
      { right. left. rewrite !not_elem_of_app.
        repeat split; first [apply lit_unmarked|apply decimal_unmarked]. }
      apply elem_of_app in He as [He|He].
      * apply list_elem_of_fmap in He as (x & -> & Hx).
        right. right. right. left. by exists x.
      * apply list_elem_of_singleton in He as ->. by left.
Qed.

Lemma report_lines_last ws es :
  last (report_lines ws es)
  = Some (match es with [] => success_line | _ :: _ => [] end).
Proof.
  unfold report_lines.
  destruct es as [|e es]; [by rewrite app_assoc, last_snoc|].
  by rewrite !last_app, last_cons, last_app.
Qed.

(** The output of a run: nothing, or the line that announces the plugin,
    lines without a check mark and, unless a check failed without being
    caught, the report. *)
Lemma run_stdout_cases JSON_parse fs :
  let m := manifest_read JSON_parse fs in
  let r := run JSON_parse fs in
  (stdout (final r) = [] /\ (truthy m = false \/ uncaught r <> None))
  \/ exists name rest,
       truthy m = true /\ toString (get m NAME) = Some name
       /\ Forall (fun line : jsstring => 10003 ∉ line) rest
       /\ ((uncaught r <> None
            /\ stdout (final r)
               = (lit "Validating plugin: " ++ name ++ [LF]) :: rest)
           \/ (uncaught r = None
               /\ stdout (final r)
                  = (lit "Validating plugin: " ++ name ++ [LF]) :: rest
                    ++ report_lines (warnings (final r)) (errors (final r)))).
Proof.
  intros m r. subst r.
  destruct (truthy m) eqn:Hm.
  - rewrite (run_exact _ _ Hm). fold m.
    cbn [final uncaught stdout errors warnings].
    destruct (toString (get m NAME)) as [name|] eqn:Hname.
    + right. exists name, (stdout (recorded (checkFiles fs m))).
      destruct (checkBundle_spec fs m name Hname) as [Hr Ho].
      split; [done|]. split; [done|].
      split; [apply (unmarked_checkFiles fs m)|].
      rewrite Hr. cbn [extend failed errors warnings stdout app].
      destruct (outcome (checkBundle fs m)) as [[]|e|c].
      * by right.
      * left. by rewrite app_nil_r.
      * by right.
    + left. destruct (checkBundle_throws fs m Hname) as [-> ->].
      split; [done|]. by right.
  - left. rewrite (run_no_manifest _ _ Hm). cbn [final stdout].
    split; [done|by left].
Qed.

(** X7. The success line in the text a run prints.  A run that reads a
    truthy manifest, meets no uncaught failure and records no error prints
    the success line.  The printed text ends with the success line and a
    line break for exactly those runs.  When the name of the manifest, the
    recorded errors and the recorded warnings hold no line break, the
    success line is a line of the printed text for those runs only. *)
Theorem success_line_printed JSON_parse fs :
  let m := manifest_read JSON_parse fs in
  let r := run JSON_parse fs in
  (truthy m = true -> uncaught r = None -> errors (final r) = [] ->
   success_line ∈ printed_lines (stdout (final r)))
  /\ ((exists before,
         printed_lines (stdout (final r)) = before ++ [success_line; []])
      <-> truthy m = true /\ uncaught r = None /\ errors (final r) = [])
  /\ ((forall name, toString (get m NAME) = Some name -> LF ∉ name) ->
      Forall (fun e : jsstring => LF ∉ e) (errors (final r)) ->
      Forall (fun w : jsstring => LF ∉ w) (warnings (final r)) ->
      success_line ∈ printed_lines (stdout (final r)) ->
      truthy m = true /\ uncaught r = None /\ errors (final r) = []).
Proof.
  intros m r.
  assert (Hne : success_line <> []) by done.
  pose proof (run_stdout_cases JSON_parse fs) as Hcases.
  cbv zeta in Hcases. fold m in Hcases. fold r in Hcases.
  assert (Hclean : truthy m = true -> uncaught r = None ->
                   errors (final r) = [] ->
                   exists out', stdout (final r) = out' ++ [success_line]).
  { intros Hm Hu He.
    destruct Hcases
      as [[_ [Hf|Hf]]|(name & rest & _ & _ & _ & [[Hf _]|[_ Hs]])];
      [congruence|done|done|].
    rewrite Hs, He. unfold report_lines.
    eexists. rewrite app_comm_cons, !app_assoc. reflexivity. }
  split; [|split].
  - intros Hm Hu He. destruct (Hclean Hm Hu He) as (out' & ->).
    apply elem_of_printed_lines; [done|]. exists success_line.
    split; [apply elem_of_app; right; by left|].
    rewrite split_on_no_sep; [by left|]. absent_char.
  - rewrite printed_lines_end. split.
    + intros (out' & line & Hout & Hlast).
      assert (Hl : last (stdout (final r)) = Some line)
        by (by rewrite Hout, last_snoc).
      pose proof (last_split_elem_of _ _ Hlast) as Hin.
      destruct Hcases
        as [[Hs _]|(name & rest & Hm & Hname & Hrest & [[_ Hs]|[Hu Hs]])].
      * by rewrite Hs in Hl.
      * rewrite Hs, last_cons in Hl.
        destruct (last rest) as [l1|] eqn:Hl1.
        -- assert (l1 = line) as -> by congruence.
           apply last_Some_elem_of in Hl1.
           apply (proj1 (Forall_forall _ _) Hrest) in Hl1.
           by apply success_not_in_unmarked in Hl1.
        -- assert (line = lit "Validating plugin: " ++ name ++ [LF]) as ->
             by congruence.
           rewrite announce_pieces, last_snoc in Hlast. congruence.
      * split; [done|]. split; [done|].
        rewrite Hs, app_comm_cons, last_app, report_lines_last in Hl.
        destruct (errors (final r)); [done|].
        assert (line = []) as -> by congruence.
        cbn [split_on last] in Hlast. congruence.
    + intros (Hm & Hu & He). destruct (Hclean Hm Hu He) as (out' & ->).
      exists out', success_line. split; [done|].
      rewrite split_on_no_sep; [done|]. absent_char.
  - intros Hname He Hw Hin.
    apply elem_of_printed_lines in Hin as (line & Hline & Hin); [|done].
    destruct Hcases as [[Hs _]|(name & rest & Hm & Hn & Hrest & Hcases)].
    { rewrite Hs in Hline. by apply elem_of_nil in Hline. }
    assert (Hpre : line ∈ (lit "Validating plugin: " ++ name ++ [LF]) :: rest
                   -> False).
    { intros [->|Hr]%elem_of_cons.
      - by apply (announce_plain name (Hname name Hn)).
      - apply (proj1 (Forall_forall _ _) Hrest) in Hr.
        by apply success_not_in_unmarked in Hr. }
    destruct Hcases as [[_ Hs]|[Hu Hs]]; rewrite Hs in Hline.
    { by destruct Hpre. }
    rewrite app_comm_cons in Hline.
    apply elem_of_app in Hline as [Hline|Hline]; [by destruct Hpre|].
    apply report_line_cases
      in Hline as [->|[Hl|[(w & Hx & ->)|[(e & Hx & ->)|[_ Hes]]]]].
    + by apply list_elem_of_singleton in Hin.
    + by apply success_not_in_unmarked in Hl.
    + apply (proj1 (Forall_forall _ _) Hw) in Hx.
      by apply warning_line_plain in Hx.
    + apply (proj1 (Forall_forall _ _) He) in Hx.
      by apply error_line_plain in Hx.
    + done.
Qed.

Lemma success_line_printed_witness :
  let clean := run Example.json (tree_fs Example.bundle) in
  let failed :=
    run Example.json (tree_fs (Example.bundle_with Example.manifest_no_license)) in
  (success_line ∈ printed_lines (stdout (final clean))
   /\ exists before,
        printed_lines (stdout (final clean)) = before ++ [success_line; []])
  /\ (Forall (fun e : jsstring => LF ∉ e) (errors (final failed))
      /\ Forall (fun w : jsstring => LF ∉ w) (warnings (final failed))
      /\ errors (final failed) = [msg_missing_field (lit "license")]
      /\ success_line ∉ printed_lines (stdout (final failed))).
Proof.
  intros clean failed. split.
  - destruct (success_line_printed Example.json (tree_fs Example.bundle))
      as (Hprinted & Hlast & _).
    assert (Hm : truthy (manifest_read Example.json (tree_fs Example.bundle))
                 = true) by reflexivity.
    assert (Hu : uncaught clean = None) by (by vm_compute).
    assert (He : errors (final clean) = []) by (by vm_compute).
    split; [exact (Hprinted Hm Hu He)|].
    apply Hlast. by repeat split.
  - destruct (success_line_printed Example.json
                (tree_fs (Example.bundle_with Example.manifest_no_license)))
      as (_ & _ & Honly).
    assert (He : errors (final failed) = [msg_missing_field (lit "license")])
      by (by vm_compute).
    assert (Hw : warnings (final failed) = []) by (by vm_compute).
    assert (Hes : Forall (fun e : jsstring => LF ∉ e) (errors (final failed))).
    { rewrite He. constructor; [absent_char|constructor]. }
    assert (Hws : Forall (fun w : jsstring => LF ∉ w) (warnings (final failed))).
    { rewrite Hw. constructor. }
    split; [exact Hes|]. split; [exact Hws|]. split; [exact He|].
    intros Hin.
    assert (Hname : forall name,
              toString (get (manifest_read Example.json
                               (tree_fs (Example.bundle_with
                                           Example.manifest_no_license)))
                            NAME) = Some name -> LF ∉ name).
    { intros name Hn.
      assert (name = lit "typescript-best-practices") as ->
        by (vm_compute in Hn; vm_compute; congruence).
      absent_char. }
    destruct (Honly Hname Hes Hws Hin) as (_ & _ & Hnone).
    fold failed in Hnone. rewrite He in Hnone. discriminate.
Defined.

(** A manifest whose name holds a line break and then the text of the
    success line: the run records an error and ends with exit code 1, no
    argument of [console.log] is the success line, and yet the printed text
    has the success line as one of its lines, though not as its last. *)
Lemma success_line_forged :
  let r := run Cases.json (tree_fs (Cases.bundle_with_text Cases.forged_text)) in
  exit_code r = 1
  /\ errors (final r)
     = [msg_name_pattern (lit "x" ++ [LF] ++ success_line)]
  /\ (success_line ∉ stdout (final r))
  /\ success_line ∈ printed_lines (stdout (final r))
  /\ last (printed_lines (stdout (final r))) = Some []
  /\ success_line ∉ drop 2 (printed_lines (stdout (final r))).
Proof.
  intros r.
  split; [by vm_compute|]. split; [by vm_compute|].
  split; [absent_char|]. split; [absent_char|].
  split; [by vm_compute|absent_char].
Qed.

(** X8. A run that ends in an uncaught failure prints no report: its
    output is the progress lines of the checks made so far and holds no line
    of a report, so the errors and warnings recorded before the failure are
    not listed. *)
Theorem crash_prints_no_report JSON_parse fs :
  let r := run JSON_parse fs in
  uncaught r <> None ->
  stdout (final r)
  = stdout (recorded (checkBundle fs (manifest_read JSON_parse fs)))
  /\ Forall (fun line => is_progress_line line = true) (stdout (final r))
  /\ (forall ws es line, line ∈ report_lines ws es -> line ∉ stdout (final r)).
Proof.
  intros r Hu. subst r.
  destruct (truthy (manifest_read JSON_parse fs)) eqn:Hm.
  - rewrite (run_exact _ _ Hm) in *.
    cbn [final uncaught stdout errors warnings] in *.
    pose proof (progress_only_checkBundle fs (manifest_read JSON_parse fs)) as Hp.
    unfold records, progress_only in Hp.
    destruct (outcome (checkBundle fs (manifest_read JSON_parse fs)))
      as [[]|e|c]; [done| |done].
    rewrite app_nil_r. split; [done|]. split; [done|].
    intros ws es line Hline Hin.
    apply (proj1 (Forall_forall _ _) Hp) in Hin.
    apply report_line_not_progress in Hline. congruence.
  - by rewrite (run_no_manifest _ _ Hm) in Hu.
Qed.

Lemma crash_prints_no_report_witness :
  let fs := tree_fs (Example.skills_is_a_file Example.manifest_no_license) in
  uncaught (run Example.json fs) = Some (ReaddirFailed [SKILLS])
  /\ errors (final (run Example.json fs)) = [msg_missing_field (lit "license")]
  /\ stdout (final (run Example.json fs))
     = [lit "Validating plugin: typescript-best-practices" ++ [LF]]
  /\ error_line (msg_missing_field (lit "license"))
     ∉ stdout (final (run Example.json fs)).
Proof.
  intros fs.
  assert (Hu : uncaught (run Example.json fs) = Some (ReaddirFailed [SKILLS]))
    by (by vm_compute).
  split; [exact Hu|]. split; [by vm_compute|]. split; [by vm_compute|].
  assert (Hne : uncaught (run Example.json fs) <> None) by (by rewrite Hu).
  destruct (crash_prints_no_report Example.json fs Hne) as (_ & _ & Hno).
  apply (Hno [] [msg_missing_field (lit "license")]).
  apply error_line_in_report. by left.
Defined.

(** The skill of the repository is written that way: of its frontmatter
    only the name is captured, and the validator reports the description
    as missing. *)
Lemma repository_skill_lacks_description :
  let r := run Example.json (tree_fs Cases.repository) in
  errors (final r)
  = [msg_skill_no_key (lit "typescript-best-practices") DESCRIPTION]
  /\ exit_code r = 1.
Proof. by vm_compute. Qed.

(** *** Manifests that are not what the validator expects *)

(** X9. A manifest that is valid JSON for a falsy value ([null], [false],
    [0] or the empty string) is handled as an unreadable one: the run
    records the one error, makes no further check, prints nothing, and the
    process ends with exit code 0. *)
Theorem falsy_manifest_rejected JSON_parse fs raw v :
  fs_readFile fs MANIFEST = Some raw -> JSON_parse raw = Some v ->
  truthy v = false ->
  (v = JUndefined \/ v = JNull \/ v = JBool false
   \/ (exists repr, v = JNum true repr) \/ v = JStr [])
  /\ run JSON_parse fs
     = {| final := {| errors := [msg_manifest_invalid]; warnings := [];
                      stdout := []; trace := [OpReadFile MANIFEST] |};
          uncaught := None; exit_code := 0 |}.
Proof.
  intros Hraw Hparse Hv. split.
  - destruct v as [| |[]|[] repr|[|c s]| |]; try discriminate; eauto 6.
  - apply run_no_manifest. unfold manifest_read. by rewrite Hraw, Hparse.
Qed.

Lemma falsy_manifest_rejected_witness :
  fs_readFile (tree_fs Cases.null_manifest) MANIFEST = Some (lit "null")
  /\ Cases.json (lit "null") = Some JNull
  /\ exit_code (run Cases.json (tree_fs Cases.null_manifest)) = 0
  /\ stdout (final (run Cases.json (tree_fs Cases.null_manifest))) = [].
Proof.
  assert (H1 : fs_readFile (tree_fs Cases.null_manifest) MANIFEST
               = Some (lit "null")) by reflexivity.
  assert (H2 : Cases.json (lit "null") = Some JNull) by reflexivity.
  split; [exact H1|]. split; [exact H2|].
  rewrite (proj2 (falsy_manifest_rejected _ _ _ _ H1 H2 eq_refl)).
  by split.
Defined.

(** X10. The two helpers never throw.  From every state, [exists(p)]
    performs one [fs.access] and answers whether it succeeded, and
    [readJson(p)] performs one [fs.readFile] and gives the parsed value, or
    [null] when the file cannot be read or is not JSON; neither records an
    error, prints, or lets an exception escape. *)
Theorem helpers_never_throw JSON_parse fs p s :
  exists_ fs p s = (extend s (touched [OpAccess p]), Done (fs_access fs p))
  /\ readJson JSON_parse fs p s
     = (extend s (touched [OpReadFile p]),
        Done match fs_readFile fs p with
             | Some raw =>
                 match JSON_parse raw with Some v => v | None => JNull end
             | None => JNull
             end).
Proof.
  split.
  - rewrite (proj1 (framed_exists_ fs p) s).
    by destruct (exists_spec fs p) as [-> ->].
  - rewrite (proj1 (framed_readJson JSON_parse fs p) s). f_equal.
    + f_equal. unfold recorded, readJson, try_catch, bind, readFile, touch,
        parse. simpl.
      destruct (fs_readFile fs p) as [raw|]; simpl; [|done].
      by destruct (JSON_parse raw).
    + unfold outcome, readJson, try_catch, bind, readFile, touch, parse. simpl.
      destruct (fs_readFile fs p) as [raw|]; simpl; [|done].
      by destruct (JSON_parse raw).
Qed.

Section RunErrors.
Variable JSON_parse : jsstring -> option JsValue.
Variable fs : FS.

Lemma run_pattern_errors name :
  truthy (manifest_read JSON_parse fs) = true ->
  toString (get (manifest_read JSON_parse fs) NAME) = Some name ->
  filter (fun e => is_name_pattern_error e) (errors (final (run JSON_parse fs)))
  = name_errors (manifest_read JSON_parse fs).
Proof.
  intros Hm Hname. rewrite (run_errors _ _ name) by done.
  rewrite !filter_app.
  rewrite (filter_none _ (field_errors _)), (filter_none _ (errors _)).
  - rewrite !app_nil_r. unfold name_errors. rewrite Hname.
    destruct (namePattern_test name); [done|].
    by rewrite filter_cons_True by done.
  - eapply Forall_impl; [apply checkFiles_errors|]. cbn beta.
    intros e He Hp. apply Is_true_true in Hp.
    apply name_error_is_manifest_error in Hp. congruence.
  - apply Forall_forall. intros e (f & -> & _)%list_elem_of_fmap.
    rewrite msg_missing_field_not_name_error. by intros [].
Qed.

Lemma run_field_occurrences name field :
  truthy (manifest_read JSON_parse fs) = true ->
  toString (get (manifest_read JSON_parse fs) NAME) = Some name ->
  field ∈ required_fields ->
  occurrences (msg_missing_field field) (errors (final (run JSON_parse fs)))
  = if truthy (get (manifest_read JSON_parse fs) field) then 0%nat else 1%nat.
Proof.
  intros Hm Hname Hfield. rewrite (run_errors _ _ name) by done.
  rewrite !occurrences_app, name_errors_occurrences.
  rewrite field_errors_occurrences by done.
  rewrite (occurrences_none _ (errors _)).
  - by destruct (truthy _).
  - eapply Forall_impl; [apply checkFiles_errors|]. cbn beta.
    intros e He ->. by rewrite msg_missing_field_is_manifest_error in He.
Qed.

End RunErrors.

(** X11. A manifest without a name gets the missing-field error for [name]
    once and no pattern error: the pattern is tested against the string
    [undefined], or [null], which it accepts, and the plugin is announced
    under that string.  A name that is the empty string gets both the
    pattern error and the missing-field error. *)
Theorem name_absent_or_empty JSON_parse fs :
  let m := manifest_read JSON_parse fs in
  let r := run JSON_parse fs in
  truthy m = true ->
  (get m NAME = JUndefined \/ get m NAME = JNull ->
   filter (fun e => is_name_pattern_error e) (errors (final r)) = []
   /\ occurrences (msg_missing_field NAME) (errors (final r)) = 1%nat)
  /\ (get m NAME = JUndefined ->
      lit "Validating plugin: undefined" ++ [LF] ∈ stdout (final r))
  /\ (get m NAME = JStr [] ->
      filter (fun e => is_name_pattern_error e) (errors (final r))
      = [msg_name_pattern []]
      /\ occurrences (msg_missing_field NAME) (errors (final r)) = 1%nat).
Proof.
  intros m r Hm. subst r. split; [|split]; intros Hname.
  - assert (Hs : exists s, toString (get m NAME) = Some s
                           /\ namePattern_test s = true).
    { destruct Hname as [Hname|Hname]; rewrite Hname; by eexists. }
    destruct Hs as (s & Hs & Htest).
    rewrite (run_pattern_errors _ _ _ Hm Hs).
    rewrite (run_field_occurrences _ _ _ NAME Hm Hs) by (by left).
    fold m. unfold name_errors. rewrite Hs, Htest.
    by destruct Hname as [-> | ->].
  - assert (Hs : toString (get m NAME) = Some (lit "undefined"))
      by (by rewrite Hname).
    rewrite (run_exact _ _ Hm). fold m. cbn [final stdout].
    destruct (checkBundle_spec fs m _ Hs) as [-> _].
    cbn [extend stdout failed app]. apply elem_of_cons. left. reflexivity.
  - assert (Hs : toString (get m NAME) = Some []) by (by rewrite Hname).
    rewrite (run_pattern_errors _ _ _ Hm Hs).
    rewrite (run_field_occurrences _ _ _ NAME Hm Hs) by (by left).
    fold m. unfold name_errors. by rewrite Hs, Hname.
Qed.

Lemma name_absent_or_empty_witness :
  let absent :=
    tree_fs (Cases.bundle_with_text
               (Example.object_text Cases.manifest_no_name)) in
  let empty :=
    tree_fs (Cases.bundle_with_text
               (Example.object_text Cases.manifest_empty_name)) in
  (get (manifest_read Cases.json absent) NAME = JUndefined
   /\ filter (fun e => is_name_pattern_error e)
             (errors (final (run Cases.json absent))) = []
   /\ occurrences (msg_missing_field NAME)
                  (errors (final (run Cases.json absent))) = 1%nat)
  /\ (get (manifest_read Cases.json empty) NAME = JStr []
      /\ filter (fun e => is_name_pattern_error e)
                (errors (final (run Cases.json empty)))
         = [msg_name_pattern []]).
Proof.
  intros absent empty.
  destruct (name_absent_or_empty Cases.json absent eq_refl) as (Ha & _ & _).
  destruct (name_absent_or_empty Cases.json empty eq_refl) as (_ & _ & He).
  split.
  - split; [reflexivity|]. exact (Ha (or_introl eq_refl)).
  - split; [reflexivity|]. exact (proj1 (He eq_refl)).
Defined.

(** X12. A logo that is truthy and not a string (a number, [true], an
    array, an object) makes [path.join] throw: the run ends in the top-level
    handler with exit code 1 after the manifest checks, with their errors
    recorded, the plugin announced, no warning, and no directory examined. *)
Theorem logo_not_a_string JSON_parse fs name :
  let m := manifest_read JSON_parse fs in
  let r := run JSON_parse fs in
  toString (get m NAME) = Some name ->
  truthy (get m LOGO) = true -> (forall p, get m LOGO <> JStr p) ->
  r = {| final := {| errors := name_errors m ++ field_errors m;
                     warnings := [];
                     stdout := [lit "Validating plugin: " ++ name ++ [LF]];
                     trace := [OpReadFile MANIFEST] |};
         uncaught := Some (PathArgNotString (get m LOGO));
         exit_code := 1 |}.
Proof.
  intros m r Hname Hlogo Hstr. subst r.
  assert (Hm : truthy m = true).
  { apply (get_defined_truthy m LOGO). intros Hu. by rewrite Hu in Hlogo. }
  rewrite (run_exact _ _ Hm). fold m.
  destruct (checkBundle_spec fs m _ Hname) as [-> ->].
  destruct (checkFiles_spec fs m) as [-> ->].
  destruct (checkLogo_not_string fs m Hlogo Hstr) as [-> ->].
  cbn [extend failed errors warnings stdout trace app initial].
  by rewrite !app_nil_r.
Qed.

Lemma logo_not_a_string_witness :
  let fs := tree_fs (Cases.bundle_with_text Cases.logo_true_text) in
  get (manifest_read Cases.json fs) LOGO = JBool true
  /\ errors (final (run Cases.json fs)) = [msg_missing_field (lit "license")]
  /\ uncaught (run Cases.json fs) = Some (PathArgNotString (JBool true))
  /\ trace (final (run Cases.json fs)) = [OpReadFile MANIFEST].
Proof.
  intros fs.
  assert (Hname : toString (get (manifest_read Cases.json fs) NAME)
                  = Some (lit "typescript-best-practices")) by reflexivity.
  assert (Hlogo : truthy (get (manifest_read Cases.json fs) LOGO) = true)
    by reflexivity.
  assert (Hstr : forall p, get (manifest_read Cases.json fs) LOGO <> JStr p)
    by (intros p; by vm_compute).
  rewrite (logo_not_a_string Cases.json fs _ Hname Hlogo Hstr).
  cbn [final errors uncaught trace]. by vm_compute.
Defined.

(** X13. A name that cannot be converted to a string makes the name check
    throw: the run ends in the top-level handler with exit code 1, having
    recorded no error, printed nothing and touched nothing but the
    manifest. *)
Theorem name_not_printable JSON_parse fs :
  let m := manifest_read JSON_parse fs in
  truthy m = true -> toString (get m NAME) = None ->
  run JSON_parse fs
  = {| final := touched [OpReadFile MANIFEST];
       uncaught := Some (NotPrimitive (get m NAME));
       exit_code := 1 |}.
Proof.
  intros m Hm Hname. rewrite (run_exact _ _ Hm). fold m.
  by destruct (checkBundle_throws fs m Hname) as [-> ->].
Qed.

Lemma name_not_printable_witness :
  let fs := tree_fs (Cases.bundle_with_text Example.unprintable_text) in
  toString (get (manifest_read Cases.json fs) NAME) = None
  /\ final (run Cases.json fs) = touched [OpReadFile MANIFEST]
  /\ exit_code (run Cases.json fs) = 1.
Proof.
  intros fs.
  assert (Hname : toString (get (manifest_read Cases.json fs) NAME) = None)
    by reflexivity.
  split; [exact Hname|].
  by rewrite (name_not_printable Cases.json fs eq_refl Hname).
Defined.

(** *** The directory blocks *)

Lemma ends_with_spec p s : ends_with p s = true <-> exists r, s = r ++ p.
Proof.
  unfold ends_with. rewrite starts_with_prefix. split.
  - intros [r Hr]. exists (reverse r).
    apply (f_equal reverse) in Hr.
    by rewrite reverse_involutive, reverse_app, reverse_involutive in Hr.
  - intros [r ->]. exists (reverse r). by rewrite reverse_app.
Qed.

Lemma silent_initial : silent initial.
Proof. done. Qed.

Lemma silent_extend a b : silent a -> silent b -> silent (extend a b).
Proof. unfold silent. cbn [extend stdout]. by intros -> ->. Qed.

Ltac silent_tac :=
  repeat first [records_step silent_initial silent_extend
               |unfold records;
                first [rewrite (proj1 (exists_spec _ _))
                      |rewrite (proj1 (readFile_spec _ _))
                      |rewrite (proj1 (readdir_spec _ _))
                      |rewrite recorded_to_string
                      |rewrite recorded_path_join
                      |idtac];
                reflexivity].

Lemma silent_checkRule fs rule : records silent (checkRule fs rule).
Proof. unfold checkRule. silent_tac. Qed.

Lemma silent_checkEntry fs dir kind entry :
  records silent (checkEntry fs dir kind entry).
Proof. unfold checkEntry, checkKeys. silent_tac. Qed.

Lemma silent_checkSkill fs skill : records silent (checkSkill fs skill).
Proof. unfold checkSkill, checkKeys. silent_tac. Qed.

Lemma trace_checkRule fs rule :
  trace (recorded (checkRule fs rule)) = [OpReadFile [RULES; rule]].
Proof.
  unfold checkRule. rewrite recorded_bind by framed.
  destruct (readFile_spec fs [RULES; rule]) as [-> ->].
  destruct (fs_readFile fs [RULES; rule]) as [content|]; [|done].
  destruct (parseFrontmatter content) as [fm|]; [|done].
  by destruct (truthy (fm_get fm DESCRIPTION)).
Qed.

Lemma trace_checkEntry fs dir kind entry :
  trace (recorded (checkEntry fs dir kind entry)) = [OpReadFile [dir; entry]].
Proof.
  unfold checkEntry. rewrite recorded_bind by framed.
  destruct (readFile_spec fs [dir; entry]) as [-> ->].
  destruct (fs_readFile fs [dir; entry]) as [content|]; [|done].
  destruct (parseFrontmatter content) as [fm|]; [|done].
  unfold checkKeys.
  by destruct (truthy (fm_get fm NAME)), (truthy (fm_get fm DESCRIPTION)).
Qed.

(** A loop that completes performs the operations of its iterations, in
    order. *)
Lemma for_each_trace {A} (l : list A) (body : A -> M unit) (op : A -> FsOp) :
  (forall x, framed (body x)) ->
  (forall x, trace (recorded (body x)) = [op x]) ->
  outcome (for_each l body) = Done tt ->
  trace (recorded (for_each l body)) = op <$> l.
Proof.
  intros Hf Hop. induction l as [|x l IH]; [done|].
  cbn [for_each].
  rewrite recorded_bind, outcome_bind
    by first [done|intros _; by apply framed_for_each].
  destruct (outcome (body x)) as [[]|e|c]; [|done|done].
  intros Hdone. cbn [extend trace fmap list_fmap]. by rewrite Hop, IH.
Qed.

(** What a directory block with a filter records when the directory exists
    and the block completes. *)
Lemma filtered_block fs dir (sel : jsstring -> bool) (body : jsstring -> M unit)
    (line : nat -> jsstring) listing :
  (forall x, framed (body x)) ->
  (forall x, trace (recorded (body x)) = [OpReadFile [dir; x]]) ->
  (forall x, records silent (body x)) ->
  fs_access fs [dir] = true -> fs_readdir fs [dir] = Some listing ->
  let block :=
    (found <- exists_ fs [dir] ;;
     if found then
       listing <- readdir fs [dir] ;;
       for_each (filter (fun f => sel f) listing) body ;;;
       console_log (line (length (filter (fun f => sel f) listing)))
     else ret tt) in
  outcome block = Done tt ->
  trace (recorded block)
  = OpAccess [dir] :: OpReaddir [dir]
    :: ((fun f => OpReadFile [dir; f]) <$> filter (fun f => sel f) listing)
  /\ stdout (recorded block)
     = [line (length (filter (fun f => sel f) listing))].
Proof.
  intros Hf Htrace Hsilent Ha Hd block. subst block.
  rewrite recorded_bind, outcome_bind by framed.
  destruct (exists_spec fs [dir]) as [-> ->]. rewrite Ha.
  rewrite recorded_bind, outcome_bind by framed.
  destruct (readdir_spec fs [dir]) as [-> ->]. rewrite Hd.
  rewrite recorded_bind, outcome_bind by framed.
  pose proof (for_each_trace (filter (fun f => sel f) listing) body _ Hf Htrace)
    as Hloop.
  assert (Hout : stdout (recorded (for_each (filter (fun f => sel f) listing) body)) = []).
  { apply (records_for_each silent silent_initial silent_extend); auto. }
  destruct (outcome (for_each (filter (fun f => sel f) listing) body))
    as [[]|e|c]; [|done|done].
  intros _. cbn [extend touched trace stdout app console_log recorded fst initial].
  rewrite Hloop by done. rewrite Hout. by rewrite app_nil_r.
Qed.

(** X14. The [rules] block reads exactly the entries of the listing that
    end in [.mdc] or [.md], in the order of the listing, and prints their
    number; the other entries are neither read nor counted. *)
Theorem rules_filter fs listing :
  let rules :=
    filter (fun f => ends_with (lit ".mdc") f || ends_with (lit ".md") f)
           listing in
  fs_access fs [RULES] = true -> fs_readdir fs [RULES] = Some listing ->
  outcome (checkRules fs) = Done tt ->
  trace (recorded (checkRules fs))
  = OpAccess [RULES] :: OpReaddir [RULES]
    :: ((fun f => OpReadFile [RULES; f]) <$> rules)
  /\ stdout (recorded (checkRules fs))
     = [lit "  Rules: " ++ decimal (length rules) ++ lit " found"]
  /\ (forall f, f ∈ rules <->
        f ∈ listing
        /\ ((exists r, f = r ++ lit ".mdc") \/ (exists r, f = r ++ lit ".md"))).
Proof.
  intros rules Ha Hd Hdone. split; [|split].
  - apply (filtered_block fs RULES
             (fun f => ends_with (lit ".mdc") f || ends_with (lit ".md") f)
             (checkRule fs)
             (fun n => lit "  Rules: " ++ decimal n ++ lit " found") listing);
      auto using framed_checkRule, trace_checkRule, silent_checkRule.
  - apply (filtered_block fs RULES
             (fun f => ends_with (lit ".mdc") f || ends_with (lit ".md") f)
             (checkRule fs)
             (fun n => lit "  Rules: " ++ decimal n ++ lit " found") listing);
      auto using framed_checkRule, trace_checkRule, silent_checkRule.
  - intros f. unfold rules. rewrite list_elem_of_filter.
    rewrite <- !ends_with_spec.
    destruct (ends_with (lit ".mdc") f), (ends_with (lit ".md") f);
      cbn [orb]; intuition (done || discriminate || auto).
Qed.

Lemma rules_filter_witness :
  let fs := tree_fs Cases.mixed in
  fs_readdir fs [RULES]
  = Some [lit "best-practices.mdc"; lit "drafts"; lit "notes.txt";
          lit "style.md"]
  /\ trace (recorded (checkRules fs))
     = [OpAccess [RULES]; OpReaddir [RULES];
        OpReadFile [RULES; lit "best-practices.mdc"];
        OpReadFile [RULES; lit "style.md"]]
  /\ stdout (recorded (checkRules fs)) = [lit "  Rules: 2 found"].
Proof.
  intros fs. split; [reflexivity|].
  destruct (rules_filter fs _ eq_refl eq_refl ltac:(by vm_compute))
    as (Ht & Hs & _).
  rewrite Ht, Hs. split; by vm_compute.
Defined.

(** X15. The [commands] and [agents] blocks read exactly the entries of
    the listing that end in [.md], in the order of the listing, and print
    their number; an entry that ends in [.mdc] is ignored there. *)
Theorem entries_filter fs dir kind plural listing :
  let entries := filter (fun f => ends_with (lit ".md") f) listing in
  fs_access fs [dir] = true -> fs_readdir fs [dir] = Some listing ->
  outcome (checkEntries fs dir kind plural) = Done tt ->
  trace (recorded (checkEntries fs dir kind plural))
  = OpAccess [dir] :: OpReaddir [dir]
    :: ((fun f => OpReadFile [dir; f]) <$> entries)
  /\ stdout (recorded (checkEntries fs dir kind plural))
     = [lit "  " ++ plural ++ lit ": " ++ decimal (length entries)
        ++ lit " found"]
  /\ (forall f, f ∈ entries <-> f ∈ listing /\ exists r, f = r ++ lit ".md").
Proof.
  intros entries Ha Hd Hdone. split; [|split].
  - apply (filtered_block fs dir (fun f => ends_with (lit ".md") f)
             (checkEntry fs dir kind)
             (fun n => lit "  " ++ plural ++ lit ": " ++ decimal n
                       ++ lit " found") listing);
      auto using framed_checkEntry, trace_checkEntry, silent_checkEntry.
  - apply (filtered_block fs dir (fun f => ends_with (lit ".md") f)
             (checkEntry fs dir kind)
             (fun n => lit "  " ++ plural ++ lit ": " ++ decimal n
                       ++ lit " found") listing);
      auto using framed_checkEntry, trace_checkEntry, silent_checkEntry.
  - intros f. unfold entries. rewrite list_elem_of_filter.
    rewrite <- ends_with_spec.
    destruct (ends_with (lit ".md") f); intuition (done || discriminate || auto).
Qed.

Lemma entries_filter_witness :
  let fs := tree_fs Cases.mixed in
  fs_readdir fs [COMMANDS]
  = Some [lit "README"; lit "audit.md"; lit "audit.mdc"]
  /\ trace (recorded (checkCommands fs))
     = [OpAccess [COMMANDS]; OpReaddir [COMMANDS];
        OpReadFile [COMMANDS; lit "audit.md"]]
  /\ stdout (recorded (checkCommands fs)) = [lit "  Commands: 1 found"].
Proof.
  intros fs. split; [reflexivity|].
  destruct (entries_filter fs COMMANDS (lit "Command") (lit "Commands") _
              eq_refl eq_refl ltac:(by vm_compute))
    as (Ht & Hs & _).
  unfold checkCommands. rewrite Ht, Hs. split; by vm_compute.
Defined.

(** *** The operations of a run *)

Lemma confined_initial logo : confined logo initial.
Proof. constructor. Qed.

Lemma confined_extend logo a b :
  confined logo a -> confined logo b -> confined logo (extend a b).
Proof. intros Ha Hb. by apply Forall_app. Qed.

Ltac in_list := repeat first [by left | right].

(** The leaves of a goal [records (confined logo) m]. *)
Ltac confined_leaf :=
  unfold records;
  first [rewrite (proj1 (exists_spec _ _))
        |rewrite (proj1 (readFile_spec _ _))
        |rewrite (proj1 (readdir_spec _ _))
        |rewrite recorded_to_string
        |rewrite recorded_path_join
        |idtac];
  first [by constructor
        |apply Forall_cons; split; [cbn [within_bundle]|constructor]].

Ltac confined_tac :=
  repeat first [records_step confined_initial confined_extend|confined_leaf].

Section Confined.
Variable logo : JsValue.
Variable fs : FS.

Lemma confined_checkSkill skill : records (confined logo) (checkSkill fs skill).
Proof.
  unfold checkSkill, checkKeys.
  repeat first [records_step (confined_initial logo) (confined_extend logo)
               |confined_leaf];
    right; left; by eexists.
Qed.

Lemma confined_checkRule rule :
  ends_with (lit ".mdc") rule || ends_with (lit ".md") rule = true ->
  records (confined logo) (checkRule fs rule).
Proof.
  intros Hrule. unfold checkRule.
  repeat first [records_step (confined_initial logo) (confined_extend logo)
               |confined_leaf].
  right; right; left. by eexists.
Qed.

Lemma confined_checkEntry dir kind entry :
  dir ∈ [COMMANDS; AGENTS] -> ends_with (lit ".md") entry = true ->
  records (confined logo) (checkEntry fs dir kind entry).
Proof.
  intros Hdir Hentry. unfold checkEntry, checkKeys.
  repeat first [records_step (confined_initial logo) (confined_extend logo)
               |confined_leaf].
  right; right; right. by eexists _, _.
Qed.

Lemma confined_checkSkills : records (confined logo) (checkSkills fs).
Proof.
  unfold checkSkills.
  repeat first [apply confined_checkSkill
               |records_step (confined_initial logo) (confined_extend logo)
               |confined_leaf].
  - left. eexists. refine (conj _ eq_refl). in_list.
  - eexists. refine (conj _ eq_refl). in_list.
Qed.

Lemma confined_checkRules : records (confined logo) (checkRules fs).
Proof.
  unfold checkRules.
  repeat first [records_step (confined_initial logo) (confined_extend logo)
               |confined_leaf].
  - left. eexists. refine (conj _ eq_refl). in_list.
  - eexists. refine (conj _ eq_refl). in_list.
  - apply confined_checkRule.
    match goal with H : _ ∈ filter _ _ |- _ =>
      apply list_elem_of_filter in H as [H _]; by apply Is_true_true in H end.
Qed.

Lemma confined_checkEntries dir kind plural :
  dir ∈ [COMMANDS; AGENTS] ->
  records (confined logo) (checkEntries fs dir kind plural).
Proof.
  intros Hdir. unfold checkEntries.
  assert (Hdir' : dir ∈ [SKILLS; RULES; COMMANDS; AGENTS]) by (by do 2 right).
  repeat first [records_step (confined_initial logo) (confined_extend logo)
               |confined_leaf].
  - left. by eexists.
  - by eexists.
  - apply confined_checkEntry; [done|].
    match goal with H : _ ∈ filter _ _ |- _ =>
      apply list_elem_of_filter in H as [H _]; by apply Is_true_true in H end.
Qed.

Lemma confined_checkDirectories : records (confined logo) (checkDirectories fs).
Proof.
  unfold checkDirectories, checkCommands, checkAgents.
  repeat first [apply confined_checkSkills | apply confined_checkRules
               |apply confined_checkEntries; in_list
               |records_step (confined_initial logo) (confined_extend logo)].
Qed.

End Confined.

Lemma confined_checkLogo fs m : records (confined (get m LOGO)) (checkLogo fs m).
Proof.
  unfold records.
  destruct (truthy (get m LOGO)) eqn:Ht.
  - assert (Hcases : (exists p, get m LOGO = JStr p)
                     \/ forall p, get m LOGO <> JStr p).
    { destruct (get m LOGO); eauto. }
    destruct Hcases as [[p Hlogo]|Hstr].
    + assert (Hp : p <> []) by (intros ->; by rewrite Hlogo in Ht).
      rewrite (proj1 (checkLogo_string fs m p Hlogo Hp)).
      apply Forall_cons. split; [|constructor].
      right; right. by eexists.
    + rewrite (proj1 (checkLogo_not_string fs m Ht Hstr)). constructor.
  - rewrite (proj1 (checkLogo_absent fs m Ht)). constructor.
Qed.

Lemma confined_checkBundle fs m : records (confined (get m LOGO)) (checkBundle fs m).
Proof.
  unfold checkBundle, checkName, checkRequiredFields, logName.
  repeat first [apply confined_checkLogo | apply confined_checkDirectories
               |records_step (confined_initial (get m LOGO))
                             (confined_extend (get m LOGO))
               |confined_leaf].
Qed.

(** X16. A run stays within the bundle: every filesystem operation of
    every run is the read of the manifest, the test of the declared logo,
    the test or the listing of one of the four directories, the test or the
    read of the [SKILL.md] of a skill, or the read of a rule, command or
    agent file with an extension its block selects. *)
Theorem run_within_bundle JSON_parse fs :
  Forall (within_bundle (get (manifest_read JSON_parse fs) LOGO))
         (trace (final (run JSON_parse fs))).
Proof.
  destruct (truthy (manifest_read JSON_parse fs)) eqn:Hm.
  - rewrite (run_exact _ _ Hm). cbn [final trace].
    apply Forall_cons. split; [by left|].
    apply confined_checkBundle.
  - rewrite (run_no_manifest _ _ Hm). cbn [final trace].
    apply Forall_cons. split; [by left|constructor].
Qed.

(** *** Conformant bundles *)

Lemma passes_ret : passes (ret tt).
Proof. done. Qed.

Lemma passes_bind {A} (m : M A) (k : A -> M unit) a :
  framed m -> (forall a, framed (k a)) ->
  errors (recorded m) = [] -> warnings (recorded m) = [] ->
  outcome m = Done a -> passes (k a) -> passes (bind m k).
Proof.
  intros Hm Hk He Hw Ho (He' & Hw' & Ho'). unfold passes.
  rewrite recorded_bind, outcome_bind by done. rewrite Ho.
  cbn [extend errors warnings]. by rewrite He, Hw, He', Hw'.
Qed.

Lemma passes_seq (m : M unit) (k : unit -> M unit) :
  framed m -> (forall a, framed (k a)) ->
  passes m -> passes (k tt) -> passes (bind m k).
Proof.
  intros Hm Hk (He & Hw & Ho) Hk'. by apply (passes_bind m k tt).
Qed.

Lemma passes_for_each {A} (l : list A) (body : A -> M unit) :
  (forall x, framed (body x)) ->
  Forall (fun x => passes (body x)) l -> passes (for_each l body).
Proof.
  intros Hf. induction 1 as [|x l Hx Hl IH]; [done|].
  cbn [for_each]. apply passes_seq; [done| |done|done].
  intros _. by apply framed_for_each.
Qed.

Lemma has_keys_truthy keys content :
  has_keys keys content ->
  exists fm, parseFrontmatter content = Some fm
    /\ forall k, k ∈ keys -> truthy (fm_get fm k) = true.
Proof.
  intros (fm & Hfm & Hkeys). exists fm. split; [done|].
  intros k Hk. destruct (Hkeys k Hk) as (v & Hv & Hne).
  unfold fm_get. rewrite Hv. by destruct v.
Qed.

Lemma checkKeys_passes (fm : gmap (list N) (list N)) no_key :
  truthy (fm_get fm NAME) = true -> truthy (fm_get fm DESCRIPTION) = true ->
  passes (checkKeys fm no_key).
Proof. intros Hn Hd. unfold checkKeys. by rewrite Hn, Hd. Qed.

Section Passes.
Variable fs : FS.

Lemma checkSkill_passes skill : skill_ok fs skill -> passes (checkSkill fs skill).
Proof.
  intros (Ha & content & Hr & Hkeys).
  apply has_keys_truthy in Hkeys as (fm & Hfm & Hkeys).
  unfold checkSkill.
  apply (passes_bind _ _ true); [framed|framed| | | |].
  - by rewrite (proj1 (exists_spec _ _)).
  - by rewrite (proj1 (exists_spec _ _)).
  - by rewrite (proj2 (exists_spec _ _)), Ha.
  - cbn [negb].
    apply (passes_bind _ _ content); [framed|framed| | | |].
    + by rewrite (proj1 (readFile_spec _ _)).
    + by rewrite (proj1 (readFile_spec _ _)).
    + by rewrite (proj2 (readFile_spec _ _)), Hr.
    + rewrite Hfm. apply checkKeys_passes; apply Hkeys; in_list.
Qed.

Lemma checkRule_passes rule :
  file_ok fs RULES [DESCRIPTION] rule -> passes (checkRule fs rule).
Proof.
  intros (content & Hr & Hkeys).
  apply has_keys_truthy in Hkeys as (fm & Hfm & Hkeys).
  unfold checkRule.
  apply (passes_bind _ _ content); [framed|framed| | | |].
  - by rewrite (proj1 (readFile_spec _ _)).
  - by rewrite (proj1 (readFile_spec _ _)).
  - by rewrite (proj2 (readFile_spec _ _)), Hr.
  - rewrite Hfm. rewrite Hkeys by in_list. done.
Qed.

Lemma checkEntry_passes dir kind entry :
  file_ok fs dir [NAME; DESCRIPTION] entry ->
  passes (checkEntry fs dir kind entry).
Proof.
  intros (content & Hr & Hkeys).
  apply has_keys_truthy in Hkeys as (fm & Hfm & Hkeys).
  unfold checkEntry.
  apply (passes_bind _ _ content); [framed|framed| | | |].
  - by rewrite (proj1 (readFile_spec _ _)).
  - by rewrite (proj1 (readFile_spec _ _)).
  - by rewrite (proj2 (readFile_spec _ _)), Hr.
  - rewrite Hfm. apply checkKeys_passes; apply Hkeys; in_list.
Qed.

(** A directory block whose entries all pass. *)
Lemma block_passes dir (entries : list jsstring -> list jsstring)
    (body : jsstring -> M unit) (line : list jsstring -> jsstring)
    (missing : M unit) :
  (forall x, framed (body x)) -> framed missing ->
  (if fs_access fs [dir]
   then exists listing,
          fs_readdir fs [dir] = Some listing
          /\ Forall (fun x => passes (body x)) (entries listing)
   else passes missing) ->
  passes (found <- exists_ fs [dir] ;;
          if found then
            listing <- readdir fs [dir] ;;
            for_each (entries listing) body ;;;
            console_log (line listing)
          else missing).
Proof.
  intros Hf Hmissing Hdir.
  apply (passes_bind _ _ (fs_access fs [dir]));
    [framed|intros []; framed| | | |].
  - by rewrite (proj1 (exists_spec _ _)).
  - by rewrite (proj1 (exists_spec _ _)).
  - by rewrite (proj2 (exists_spec _ _)).
  - destruct (fs_access fs [dir]); [|done].
    destruct Hdir as (listing & Hd & Hall).
    apply (passes_bind _ _ listing); [framed|framed| | | |].
    + by rewrite (proj1 (readdir_spec _ _)).
    + by rewrite (proj1 (readdir_spec _ _)).
    + by rewrite (proj2 (readdir_spec _ _)), Hd.
    + apply passes_seq; [framed|framed| |done].
      by apply passes_for_each.
Qed.

Lemma checkSkills_passes : skills_ok fs -> passes (checkSkills fs).
Proof.
  intros (Ha & skills & Hd & Hall). unfold checkSkills.
  apply (block_passes SKILLS (fun l => l) (checkSkill fs)
           (fun l => lit "  Skills: " ++ decimal (length l) ++ lit " found")
           (error msg_skills_missing)); [framed|framed|].
  rewrite Ha. exists skills. split; [done|].
  eapply Forall_impl; [exact Hall|]. apply checkSkill_passes.
Qed.

Lemma checkRules_passes :
  directory_ok fs RULES
    (fun f => ends_with (lit ".mdc") f || ends_with (lit ".md") f)
    [DESCRIPTION] ->
  passes (checkRules fs).
Proof.
  intros Hok. unfold checkRules.
  apply (block_passes RULES
           (filter (fun f => ends_with (lit ".mdc") f || ends_with (lit ".md") f))
           (checkRule fs)
           (fun l => lit "  Rules: "
                     ++ decimal (length (filter (fun f => ends_with (lit ".mdc") f || ends_with (lit ".md") f) l))
                     ++ lit " found")
           (ret tt)); [framed|framed|].
  destruct (fs_access fs [RULES]) eqn:Ha; [|done].
  destruct (Hok Ha) as (listing & Hd & Hall). exists listing. split; [done|].
  eapply Forall_impl; [exact Hall|]. apply checkRule_passes.
Qed.

Lemma checkEntries_passes dir kind plural :
  directory_ok fs dir (fun f => ends_with (lit ".md") f) [NAME; DESCRIPTION] ->
  passes (checkEntries fs dir kind plural).
Proof.
  intros Hok. unfold checkEntries.
  apply (block_passes dir (filter (fun f => ends_with (lit ".md") f))
           (checkEntry fs dir kind)
           (fun l => lit "  " ++ plural ++ lit ": "
                     ++ decimal (length (filter (fun f => ends_with (lit ".md") f) l))
                     ++ lit " found")
           (ret tt)); [framed|framed|].
  destruct (fs_access fs [dir]) eqn:Ha; [|done].
  destruct (Hok Ha) as (listing & Hd & Hall). exists listing. split; [done|].
  eapply Forall_impl; [exact Hall|]. intros x. apply checkEntry_passes.
Qed.

Lemma checkLogo_passes m :
  truthy (get m LOGO) = false
  \/ (exists p, get m LOGO = JStr p /\ fs_access fs [p] = true) ->
  passes (checkLogo fs m).
Proof.
  unfold passes. intros [Hno|(p & Hlogo & Ha)].
  - by destruct (checkLogo_absent fs m Hno) as [-> ->].
  - destruct p as [|c p].
    + assert (Hno : truthy (get m LOGO) = false) by (by rewrite Hlogo).
      by destruct (checkLogo_absent fs m Hno) as [-> ->].
    + destruct (checkLogo_string fs m (c :: p) Hlogo ltac:(done)) as [-> ->].
      cbn [errors warnings]. by rewrite Ha.
Qed.

Lemma checkBundle_passes JSON_parse :
  conformant JSON_parse fs ->
  passes (checkBundle fs (manifest_read JSON_parse fs)).
Proof.
  intros (((name & Hname & Htest) & Hfields & Hlogo) & Hskills & Hrules
          & Hcommands & Hagents).
  set (m := manifest_read JSON_parse fs) in *.
  unfold checkBundle.
  apply passes_seq; [framed|framed| |].
  { unfold passes. destruct (checkName_spec m name Hname) as [-> ->].
    unfold name_errors. by rewrite Hname, Htest. }
  apply passes_seq; [framed|framed| |].
  { unfold passes. destruct (checkRequiredFields_spec m) as [-> ->].
    unfold field_errors, missing_fields. rewrite filter_none; [done|].
    apply Forall_forall. intros field Hfield.
    rewrite (Hfields _ Hfield). by intros []. }
  apply passes_seq; [framed|framed| |].
  { unfold passes. by destruct (logName_spec m name Hname) as [-> ->]. }
  apply passes_seq; [framed|framed|by apply checkLogo_passes|].
  unfold checkDirectories.
  apply passes_seq; [framed|framed|by apply checkSkills_passes|].
  apply passes_seq; [framed|framed|by apply checkRules_passes|].
  apply passes_seq; [framed|framed|by apply checkEntries_passes|].
  by apply checkEntries_passes.
Qed.

End Passes.

(** X17. A conformant bundle passes.  When the manifest has a name the
    pattern accepts, the five required fields, and no logo or the path of an
    existing file, [skills] exists and every entry has a [SKILL.md] with a
    name and a description, and the rule, command and agent files that are
    present have their keys, the run records no error and no warning, meets
    no uncaught failure, exits with code 0 and ends its output with the
    success line. *)
Theorem conformant_bundle_passes JSON_parse fs :
  conformant JSON_parse fs ->
  let r := run JSON_parse fs in
  errors (final r) = [] /\ warnings (final r) = [] /\ uncaught r = None
  /\ exit_code r = 0 /\ last (stdout (final r)) = Some success_line.
Proof.
  intros Hok r. subst r.
  pose proof (checkBundle_passes fs JSON_parse Hok) as (He & Hw & Ho).
  assert (Hm : truthy (manifest_read JSON_parse fs) = true).
  { destruct Hok as ((_ & Hfields & _) & _).
    apply (get_defined_truthy _ NAME). intros Hu.
    specialize (Hfields NAME ltac:(by left)). by rewrite Hu in Hfields. }
  rewrite (run_exact _ _ Hm). cbn [final errors warnings uncaught exit_code stdout].
  rewrite He, Hw, Ho. repeat split; try done.
  by rewrite last_app.
Qed.

Lemma passes_bind_inv {A} (m : M A) (k : A -> M unit) :
  framed m -> (forall a, framed (k a)) -> passes (bind m k) ->
  exists a, outcome m = Done a /\ errors (recorded m) = []
    /\ warnings (recorded m) = [] /\ passes (k a).
Proof.
  intros Hm Hk. unfold passes. rewrite recorded_bind, outcome_bind by done.
  destruct (outcome m) as [a|e|c]; [|by intros (_ & _ & ?)..].
  cbn [extend errors warnings].
  intros ([He He']%app_eq_nil & [Hw Hw']%app_eq_nil & Ho).
  by exists a.
Qed.

Lemma passes_for_each_inv {A} (l : list A) (body : A -> M unit) :
  (forall x, framed (body x)) ->
  passes (for_each l body) -> Forall (fun x => passes (body x)) l.
Proof.
  intros Hf. induction l as [|x l IH]; [by constructor|].
  cbn [for_each]. intros Hp.
  apply passes_bind_inv in Hp as ([] & Ho & He & Hw & Hrest);
    [|done|intros _; by apply framed_for_each].
  constructor; [done|by apply IH].
Qed.

Lemma error_fails msg : ~ passes (error msg).
Proof. by intros [? _]. Qed.

Lemma truthy_has_key (fm : gmap (list N) (list N)) (k : jsstring) :
  truthy (fm_get fm k) = true -> exists v, fm !! k = Some v /\ v <> [].
Proof.
  unfold fm_get. destruct (fm !! k) as [v|]; [|done].
  intros Hv. exists v. split; [done|]. by intros ->.
Qed.

Lemma checkKeys_passes_inv (fm : gmap (list N) (list N)) no_key :
  passes (checkKeys fm no_key) ->
  forall k : jsstring, k ∈ [NAME; DESCRIPTION] ->
    exists v, fm !! k = Some v /\ v <> [].
Proof.
  unfold checkKeys. intros Hp.
  apply passes_bind_inv in Hp as ([] & _ & He & _ & Hd); [|framed..].
  destruct (truthy (fm_get fm NAME)) eqn:Hn; [|done].
  destruct (truthy (fm_get fm DESCRIPTION)) eqn:Hdesc;
    [|by apply error_fails in Hd].
  intros k [->|[->|[]%elem_of_nil]%elem_of_cons]%elem_of_cons;
    by apply truthy_has_key.
Qed.

Section PassesInv.
Variable fs : FS.

Lemma readFile_done p content :
  outcome (readFile fs p) = Done content -> fs_readFile fs p = Some content.
Proof.
  rewrite (proj2 (readFile_spec fs p)).
  destruct (fs_readFile fs p); [|done]. by intros [= ->].
Qed.

Lemma readdir_done p listing :
  outcome (readdir fs p) = Done listing -> fs_readdir fs p = Some listing.
Proof.
  rewrite (proj2 (readdir_spec fs p)).
  destruct (fs_readdir fs p); [|done]. by intros [= ->].
Qed.

Lemma checkSkill_passes_inv skill :
  passes (checkSkill fs skill) -> skill_ok fs skill.
Proof.
  unfold checkSkill. intros Hp.
  apply passes_bind_inv in Hp as (found & Hfound & _ & _ & Hp); [|framed..].
  rewrite (proj2 (exists_spec _ _)) in Hfound. injection Hfound as <-.
  destruct (fs_access fs [SKILLS; skill; SKILL_MD]) eqn:Ha;
    [|by apply error_fails in Hp].
  cbn [negb] in Hp.
  apply passes_bind_inv in Hp as (content & Hr%readFile_done & _ & _ & Hp);
    [|framed..].
  split; [done|]. exists content. split; [done|].
  destruct (parseFrontmatter content) as [fm|] eqn:Hfm;
    [|by apply error_fails in Hp].
  exists fm. split; [done|]. by apply (checkKeys_passes_inv fm _ Hp).
Qed.

Lemma checkRule_passes_inv rule :
  passes (checkRule fs rule) -> file_ok fs RULES [DESCRIPTION] rule.
Proof.
  unfold checkRule. intros Hp.
  apply passes_bind_inv in Hp as (content & Hr%readFile_done & _ & _ & Hp);
    [|framed..].
  exists content. split; [done|].
  destruct (parseFrontmatter content) as [fm|] eqn:Hfm;
    [|by apply error_fails in Hp].
  exists fm. split; [done|].
  destruct (truthy (fm_get fm DESCRIPTION)) eqn:Hd;
    [|by apply error_fails in Hp].
  intros k ->%list_elem_of_singleton. by apply truthy_has_key.
Qed.

Lemma checkEntry_passes_inv dir kind entry :
  passes (checkEntry fs dir kind entry) ->
  file_ok fs dir [NAME; DESCRIPTION] entry.
Proof.
  unfold checkEntry. intros Hp.
  apply passes_bind_inv in Hp as (content & Hr%readFile_done & _ & _ & Hp);
    [|framed..].
  exists content. split; [done|].
  destruct (parseFrontmatter content) as [fm|] eqn:Hfm;
    [|by apply error_fails in Hp].
  exists fm. split; [done|]. by apply (checkKeys_passes_inv fm _ Hp).
Qed.

Lemma block_passes_inv dir (entries : list jsstring -> list jsstring)
    (body : jsstring -> M unit) (line : list jsstring -> jsstring)
    (missing : M unit) :
  (forall x, framed (body x)) -> framed missing ->
  passes (found <- exists_ fs [dir] ;;
          if found then
            listing <- readdir fs [dir] ;;
            for_each (entries listing) body ;;;
            console_log (line listing)
          else missing) ->
  if fs_access fs [dir]
  then exists listing,
         fs_readdir fs [dir] = Some listing
         /\ Forall (fun x => passes (body x)) (entries listing)
  else passes missing.
Proof.
  intros Hf Hmissing Hp.
  apply passes_bind_inv in Hp as (found & Hfound & _ & _ & Hp);
    [|framed|intros []; framed].
  rewrite (proj2 (exists_spec _ _)) in Hfound. injection Hfound as <-.
  destruct (fs_access fs [dir]); [|done].
  apply passes_bind_inv in Hp as (listing & Hd%readdir_done & _ & _ & Hp);
    [|framed..].
  exists listing. split; [done|].
  apply passes_bind_inv in Hp as ([] & Ho & He & Hw & _); [|framed..].
  by apply passes_for_each_inv.
Qed.

Lemma checkSkills_passes_inv : passes (checkSkills fs) -> skills_ok fs.
Proof.
  unfold checkSkills. intros Hp.
  apply (block_passes_inv SKILLS (fun l => l) (checkSkill fs)
           (fun l => lit "  Skills: " ++ decimal (length l) ++ lit " found")
           (error msg_skills_missing)) in Hp; [|framed..].
  destruct (fs_access fs [SKILLS]) eqn:Ha; [|by apply error_fails in Hp].
  destruct Hp as (skills & Hd & Hall). split; [done|].
  exists skills. split; [done|].
  eapply Forall_impl; [exact Hall|]. apply checkSkill_passes_inv.
Qed.

Lemma checkRules_passes_inv :
  passes (checkRules fs) ->
  directory_ok fs RULES
    (fun f => ends_with (lit ".mdc") f || ends_with (lit ".md") f)
    [DESCRIPTION].
Proof.
  unfold checkRules. intros Hp Ha.
  apply (block_passes_inv RULES
           (filter (fun f => ends_with (lit ".mdc") f || ends_with (lit ".md") f))
           (checkRule fs)
           (fun l => lit "  Rules: "
                     ++ decimal (length (filter (fun f => ends_with (lit ".mdc") f || ends_with (lit ".md") f) l))
                     ++ lit " found")
           (ret tt)) in Hp; [|framed..].
  rewrite Ha in Hp. destruct Hp as (listing & Hd & Hall).
  exists listing. split; [done|].
  eapply Forall_impl; [exact Hall|]. apply checkRule_passes_inv.
Qed.

Lemma checkEntries_passes_inv dir kind plural :
  passes (checkEntries fs dir kind plural) ->
  directory_ok fs dir (fun f => ends_with (lit ".md") f) [NAME; DESCRIPTION].
Proof.
  unfold checkEntries. intros Hp Ha.
  apply (block_passes_inv dir (filter (fun f => ends_with (lit ".md") f))
           (checkEntry fs dir kind)
           (fun l => lit "  " ++ plural ++ lit ": "
                     ++ decimal (length (filter (fun f => ends_with (lit ".md") f) l))
                     ++ lit " found")
           (ret tt)) in Hp; [|framed..].
  rewrite Ha in Hp. destruct Hp as (listing & Hd & Hall).
  exists listing. split; [done|].
  eapply Forall_impl; [exact Hall|]. intros x. apply checkEntry_passes_inv.
Qed.

Lemma checkLogo_passes_inv m :
  passes (checkLogo fs m) ->
  truthy (get m LOGO) = false
  \/ (exists p, get m LOGO = JStr p /\ fs_access fs [p] = true).
Proof.
  intros (He & Hw & Ho).
  destruct (truthy (get m LOGO)) eqn:Ht; [|by left]. right.
  assert (Hcases : (exists p, get m LOGO = JStr p)
                   \/ forall p, get m LOGO <> JStr p).
  { destruct (get m LOGO); eauto. }
  destruct Hcases as [[p Hlogo]|Hstr].
  - exists p. split; [done|].
    assert (Hp : p <> []) by (intros ->; by rewrite Hlogo in Ht).
    rewrite (proj1 (checkLogo_string fs m p Hlogo Hp)) in Hw.
    cbn [warnings] in Hw. by destruct (fs_access fs [p]).
  - by rewrite (proj2 (checkLogo_not_string fs m Ht Hstr)) in Ho.
Qed.

Lemma checkBundle_passes_inv JSON_parse :
  passes (checkBundle fs (manifest_read JSON_parse fs)) ->
  conformant JSON_parse fs.
Proof.
  set (m := manifest_read JSON_parse fs). unfold checkBundle. intros Hp.
  apply passes_bind_inv in Hp as ([] & Hname & Hne & _ & Hp); [|framed..].
  apply passes_bind_inv in Hp as ([] & _ & Hfe & _ & Hp); [|framed..].
  apply passes_bind_inv in Hp as ([] & _ & _ & _ & Hp); [|framed..].
  apply passes_bind_inv in Hp as ([] & Hlo & Hle & Hlw & Hp); [|framed..].
  unfold checkDirectories in Hp.
  apply passes_bind_inv in Hp as ([] & Hso & Hse & Hsw & Hp); [|framed..].
  apply passes_bind_inv in Hp as ([] & Hro & Hre & Hrw & Hp); [|framed..].
  apply passes_bind_inv in Hp as ([] & Hco & Hce & Hcw & Hp); [|framed..].
  split; [split; [|split]|split; [|split; [|split]]].
  - destruct (toString (get m NAME)) as [name|] eqn:Hs.
    + exists name. split; [done|].
      rewrite (proj1 (checkName_spec m name Hs)) in Hne.
      cbn [failed errors] in Hne. unfold name_errors in Hne.
      rewrite Hs in Hne. by destruct (namePattern_test name).
    + by rewrite (proj2 (checkName_throws m Hs)) in Hname.
  - intros field Hfield.
    rewrite (proj1 (checkRequiredFields_spec m)) in Hfe.
    cbn [failed errors] in Hfe. unfold field_errors in Hfe.
    apply fmap_nil_inv in Hfe.
    destruct (truthy (get m field)) eqn:Ht; [done|].
    assert (Hin : field ∈ missing_fields m).
    { apply list_elem_of_filter. by rewrite Ht. }
    rewrite Hfe in Hin. by apply elem_of_nil in Hin.
  - by apply checkLogo_passes_inv.
  - by apply checkSkills_passes_inv.
  - by apply checkRules_passes_inv.
  - by apply (checkEntries_passes_inv COMMANDS (lit "Command") (lit "Commands")).
  - by apply (checkEntries_passes_inv AGENTS (lit "Agent") (lit "Agents")).
Qed.

End PassesInv.

(** X18. Conversely, a run that records no error and no warning and meets
    no uncaught failure ran on a conformant bundle: the validator passes no
    bundle that lacks one of the things it checks. *)
Theorem clean_run_is_conformant JSON_parse fs :
  let r := run JSON_parse fs in
  errors (final r) = [] -> warnings (final r) = [] -> uncaught r = None ->
  conformant JSON_parse fs.
Proof.
  intros r He Hw Hu. subst r.
  destruct (truthy (manifest_read JSON_parse fs)) eqn:Hm.
  - rewrite (run_exact _ _ Hm) in He, Hw, Hu.
    cbn [final errors warnings uncaught] in He, Hw, Hu.
    apply checkBundle_passes_inv. split; [done|]. split; [done|].
    destruct (framed_checkBundle fs (manifest_read JSON_parse fs)) as [_ Hexit].
    destruct (outcome (checkBundle fs (manifest_read JSON_parse fs)))
      as [[]|e|c]; [done|done|by destruct (Hexit c)].
  - by rewrite (run_no_manifest _ _ Hm) in He.
Qed.

Lemma document_has_keys (keys : list jsstring) (name description : string) :
  field_ok (NAME, lit name) -> field_ok (DESCRIPTION, lit description) ->
  (forall k, k ∈ keys -> k ∈ [NAME; DESCRIPTION]) ->
  has_keys keys (Example.document name description).
Proof.
  intros Hn Hd Hkeys. rewrite document_rendered.
  apply has_keys_rendered; [|done].
  constructor; [done|]. by constructor.
Qed.

Ltac field_ok_tac :=
  split; [eexists _, _; by repeat split|]; repeat split; by vm_compute.

Lemma conformant_example : conformant Example.json (tree_fs Example.bundle).
Proof.
  split; [|split; [|split; [|split]]].
  - split; [|split].
    + by exists (lit "typescript-best-practices").
    + intros field Hfield. unfold required_fields in Hfield.
      repeat (apply elem_of_cons in Hfield as [->|Hfield]; [reflexivity|]).
      by apply elem_of_nil in Hfield.
    + by left.
  - split; [reflexivity|]. eexists. split; [reflexivity|].
    apply Forall_cons. split; [|constructor].
    split; [reflexivity|]. eexists. split; [reflexivity|].
    apply document_has_keys; [field_ok_tac|field_ok_tac|done].
  - intros _. eexists. split; [reflexivity|].
    change (filter _ _) with [lit "best-practices.mdc"].
    apply Forall_cons. split; [|constructor].
    eexists. split; [reflexivity|].
    apply document_has_keys; [field_ok_tac|field_ok_tac|].
    intros k ->%list_elem_of_singleton. in_list.
  - intros _. eexists. split; [reflexivity|].
    change (filter _ _) with [lit "audit.md"].
    apply Forall_cons. split; [|constructor].
    eexists. split; [reflexivity|].
    apply document_has_keys; [field_ok_tac|field_ok_tac|done].
  - intros Ha. by vm_compute in Ha.
Defined.

Lemma conformant_bundle_passes_witness :
  conformant Example.json (tree_fs Example.bundle)
  /\ errors (final (run Example.json (tree_fs Example.bundle))) = []
  /\ exit_code (run Example.json (tree_fs Example.bundle)) = 0
  /\ last (stdout (final (run Example.json (tree_fs Example.bundle))))
     = Some success_line.
Proof.
  split; [exact conformant_example|].
  destruct (conformant_bundle_passes _ _ conformant_example)
    as (He & _ & _ & Hc & Hl).
  split; [exact He|]. split; [exact Hc|exact Hl].
Defined.

Lemma clean_run_is_conformant_witness :
  errors (final (run Example.json (tree_fs Example.bundle))) = []
  /\ warnings (final (run Example.json (tree_fs Example.bundle))) = []
  /\ uncaught (run Example.json (tree_fs Example.bundle)) = None
  /\ skills_ok (tree_fs Example.bundle).
Proof.
  assert (He : errors (final (run Example.json (tree_fs Example.bundle))) = [])
    by (by vm_compute).
  assert (Hw : warnings (final (run Example.json (tree_fs Example.bundle))) = [])
    by (by vm_compute).
  assert (Hu : uncaught (run Example.json (tree_fs Example.bundle)) = None)
    by (by vm_compute).
  split; [exact He|]. split; [exact Hw|]. split; [exact Hu|].
  exact (proj1 (proj2 (clean_run_is_conformant _ _ He Hw Hu))).
Defined.

(** *** The skills block, and warnings *)

Lemma trace_checkSkill fs skill :
  trace (recorded (checkSkill fs skill))
  = OpAccess [SKILLS; skill; SKILL_MD]
    :: if fs_access fs [SKILLS; skill; SKILL_MD]
       then [OpReadFile [SKILLS; skill; SKILL_MD]] else [].
Proof.
  unfold checkSkill. rewrite recorded_bind by framed.
  destruct (exists_spec fs [SKILLS; skill; SKILL_MD]) as [-> ->].
  destruct (fs_access fs [SKILLS; skill; SKILL_MD]); [|done].
  cbn [negb]. rewrite recorded_bind by framed.
  destruct (readFile_spec fs [SKILLS; skill; SKILL_MD]) as [-> ->].
  destruct (fs_readFile fs [SKILLS; skill; SKILL_MD]) as [content|]; [|done].
  destruct (parseFrontmatter content) as [fm|]; [|done].
  unfold checkKeys.
  by destruct (truthy (fm_get fm NAME)), (truthy (fm_get fm DESCRIPTION)).
Qed.

Lemma for_each_traces {A} (l : list A) (body : A -> M unit)
    (ops : A -> list FsOp) :
  (forall x, framed (body x)) ->
  (forall x, trace (recorded (body x)) = ops x) ->
  outcome (for_each l body) = Done tt ->
  trace (recorded (for_each l body)) = concat (ops <$> l).
Proof.
  intros Hf Hop. induction l as [|x l IH]; [done|].
  cbn [for_each].
  rewrite recorded_bind, outcome_bind
    by first [done|intros _; by apply framed_for_each].
  destruct (outcome (body x)) as [[]|e|c]; [|done|done].
  intros Hdone. cbn [extend trace fmap list_fmap concat]. by rewrite Hop, IH.
Qed.

(** X19. Every entry of [skills] is taken for a skill: when the directory
    is listed and the block completes, each entry has its [SKILL.md] tested,
    and read when it exists, in the order of the listing, and the count
    printed is the length of the listing, entries without [SKILL.md]
    included. *)
Theorem skills_all_checked fs skills :
  fs_access fs [SKILLS] = true -> fs_readdir fs [SKILLS] = Some skills ->
  outcome (checkSkills fs) = Done tt ->
  stdout (recorded (checkSkills fs))
  = [lit "  Skills: " ++ decimal (length skills) ++ lit " found"]
  /\ trace (recorded (checkSkills fs))
     = OpAccess [SKILLS] :: OpReaddir [SKILLS]
       :: concat ((fun skill =>
                     OpAccess [SKILLS; skill; SKILL_MD]
                     :: if fs_access fs [SKILLS; skill; SKILL_MD]
                        then [OpReadFile [SKILLS; skill; SKILL_MD]] else [])
                  <$> skills).
Proof.
  intros Ha Hd. destruct (checkSkills_present fs skills Ha Hd) as [-> ->].
  pose proof (for_each_traces skills (checkSkill fs) _
                (framed_checkSkill fs) (trace_checkSkill fs)) as Hloop.
  assert (Hout : stdout (recorded (for_each skills (checkSkill fs))) = []).
  { apply (records_for_each silent silent_initial silent_extend).
    - apply framed_checkSkill.
    - intros x _. apply silent_checkSkill. }
  destruct (outcome (for_each skills (checkSkill fs))) as [[]|e|c];
    [|done|done].
  intros _. cbn [extend touched trace stdout app].
  rewrite Hloop by done. rewrite Hout. by rewrite app_nil_r.
Qed.

Lemma skills_all_checked_witness :
  let fs := tree_fs Example.skill_without_file in
  fs_readdir fs [SKILLS] = Some [lit "draft"; lit "typescript-best-practices"]
  /\ fs_access fs [SKILLS; lit "draft"; SKILL_MD] = false
  /\ stdout (recorded (checkSkills fs)) = [lit "  Skills: 2 found"].
Proof.
  intros fs. split; [reflexivity|]. split; [reflexivity|].
  rewrite (proj1 (skills_all_checked fs _ eq_refl eq_refl
                    ltac:(by vm_compute))).
  by vm_compute.
Defined.

(** X20. The only warning a run ever records is that of the logo check:
    the warnings are empty, or hold the one message for a logo that is a
    string naming a path that does not exist. *)
Theorem only_the_logo_warns JSON_parse fs :
  let m := manifest_read JSON_parse fs in
  let r := run JSON_parse fs in
  warnings (final r) = []
  \/ exists p, get m LOGO = JStr p /\ fs_access fs [p] = false
       /\ warnings (final r) = [msg_logo p].
Proof.
  intros m r. subst r.
  destruct (truthy m) eqn:Hm; [|left; by rewrite (run_no_manifest _ _ Hm)].
  rewrite (run_exact _ _ Hm). fold m. cbn [final warnings].
  destruct (toString (get m NAME)) as [name|] eqn:Hname;
    [|left; by rewrite (proj1 (checkBundle_throws fs m Hname))].
  rewrite (checkBundle_warnings fs m name Hname).
  rewrite (proj1 (checkFiles_spec fs m)).
  assert (Hdirs : warnings (recorded (checkDirectories fs)) = []).
  { apply (checkDirectories_additions fs). }
  assert (Hall : warnings
                   (match outcome (checkLogo fs m) with
                    | Done _ => extend (recorded (checkLogo fs m))
                                  (recorded (checkDirectories fs))
                    | _ => recorded (checkLogo fs m)
                    end) = warnings (recorded (checkLogo fs m))).
  { destruct (outcome (checkLogo fs m)); [|done..].
    cbn [extend warnings]. by rewrite Hdirs, app_nil_r. }
  rewrite Hall.
  destruct (truthy (get m LOGO)) eqn:Ht;
    [|left; by rewrite (proj1 (checkLogo_absent fs m Ht))].
  assert (Hcases : (exists p, get m LOGO = JStr p)
                   \/ forall p, get m LOGO <> JStr p).
  { destruct (get m LOGO); eauto. }
  destruct Hcases as [[p Hlogo]|Hstr];
    [|left; by rewrite (proj1 (checkLogo_not_string fs m Ht Hstr))].
  assert (Hp : p <> []) by (intros ->; by rewrite Hlogo in Ht).
  rewrite (proj1 (checkLogo_string fs m p Hlogo Hp)). cbn [warnings].
  destruct (fs_access fs [p]) eqn:Ha; [by left|].
  right. by exists p.
Qed.

(** *** Files and directories that cannot be read *)

(** A loop whose iterations complete completes. *)
Lemma for_each_done {A} (l : list A) (body : A -> M unit) :
  (forall x, framed (body x)) ->
  Forall (fun x => outcome (body x) = Done tt) l ->
  outcome (for_each l body) = Done tt.
Proof.
  intros Hf. induction 1 as [|x l Hx Hl IH]; [done|].
  cbn [for_each].
  rewrite outcome_bind by first [done|intros _; by apply framed_for_each].
  by rewrite Hx.
Qed.

(** A loop stops at the first iteration that throws. *)
Lemma for_each_throws {A} (before after : list A) (x : A)
    (body : A -> M unit) e :
  (forall y, framed (body y)) ->
  Forall (fun y => outcome (body y) = Done tt) before ->
  outcome (body x) = Thrown e ->
  outcome (for_each (before ++ x :: after) body) = Thrown e
  /\ recorded (for_each (before ++ x :: after) body)
     = extend (recorded (for_each before body)) (recorded (body x)).
Proof.
  intros Hf Hbefore Hx. induction Hbefore as [|y before Hy Hb [IHo IHr]].
  - cbn [app for_each].
    rewrite outcome_bind, recorded_bind
      by first [done|intros _; by apply framed_for_each].
    rewrite Hx. by rewrite extend_initial_l.
  - cbn [app for_each].
    rewrite outcome_bind, !recorded_bind
      by first [done|intros _; by apply framed_for_each].
    rewrite Hy, IHo, IHr. by rewrite extend_assoc.
Qed.

Lemma outcome_checkRule fs rule :
  outcome (checkRule fs rule)
  = match fs_readFile fs [RULES; rule] with
    | Some _ => Done tt
    | None => Thrown (ReadFileFailed [RULES; rule])
    end.
Proof.
  unfold checkRule. rewrite outcome_bind by framed.
  rewrite (proj2 (readFile_spec fs [RULES; rule])).
  destruct (fs_readFile fs [RULES; rule]) as [content|]; [|done].
  destruct (parseFrontmatter content) as [fm|]; [|done].
  by destruct (truthy (fm_get fm DESCRIPTION)).
Qed.

Lemma outcome_checkEntry fs dir kind entry :
  outcome (checkEntry fs dir kind entry)
  = match fs_readFile fs [dir; entry] with
    | Some _ => Done tt
    | None => Thrown (ReadFileFailed [dir; entry])
    end.
Proof.
  unfold checkEntry. rewrite outcome_bind by framed.
  rewrite (proj2 (readFile_spec fs [dir; entry])).
  destruct (fs_readFile fs [dir; entry]) as [content|]; [|done].
  destruct (parseFrontmatter content) as [fm|]; [|done].
  unfold checkKeys.
  by destruct (truthy (fm_get fm NAME)), (truthy (fm_get fm DESCRIPTION)).
Qed.

(** A directory block with a filter, when a selected file cannot be
    read. *)
Lemma filtered_block_aborts fs dir (sel : jsstring -> bool)
    (body : jsstring -> M unit) (line : nat -> jsstring)
    listing before f after :
  (forall x, framed (body x)) ->
  (forall x, trace (recorded (body x)) = [OpReadFile [dir; x]]) ->
  (forall x, records silent (body x)) ->
  (forall x, outcome (body x)
             = match fs_readFile fs [dir; x] with
               | Some _ => Done tt
               | None => Thrown (ReadFileFailed [dir; x])
               end) ->
  fs_access fs [dir] = true -> fs_readdir fs [dir] = Some listing ->
  filter (fun f => sel f) listing = before ++ f :: after ->
  Forall (fun x => is_Some (fs_readFile fs [dir; x])) before ->
  fs_readFile fs [dir; f] = None ->
  let block :=
    (found <- exists_ fs [dir] ;;
     if found then
       listing <- readdir fs [dir] ;;
       for_each (filter (fun f => sel f) listing) body ;;;
       console_log (line (length (filter (fun f => sel f) listing)))
     else ret tt) in
  outcome block = Thrown (ReadFileFailed [dir; f])
  /\ trace (recorded block)
     = OpAccess [dir] :: OpReaddir [dir]
       :: ((fun x => OpReadFile [dir; x]) <$> before ++ [f])
  /\ stdout (recorded block) = [].
Proof.
  intros Hf Htrace Hsilent Hout Ha Hd Hsel Hbefore Hfile block. subst block.
  assert (Hdone : Forall (fun x => outcome (body x) = Done tt) before).
  { eapply Forall_impl; [exact Hbefore|]. intros x [c Hc].
    by rewrite Hout, Hc. }
  assert (Hthrow : outcome (body f) = Thrown (ReadFileFailed [dir; f]))
    by (by rewrite Hout, Hfile).
  destruct (for_each_throws before after f body _ Hf Hdone Hthrow)
    as [Hlo Hlr].
  rewrite recorded_bind, outcome_bind by framed.
  destruct (exists_spec fs [dir]) as [-> ->]. rewrite Ha.
  rewrite recorded_bind, outcome_bind by framed.
  destruct (readdir_spec fs [dir]) as [-> ->]. rewrite Hd.
  rewrite recorded_bind, outcome_bind by framed.
  rewrite Hsel, Hlo, Hlr. split; [done|].
  cbn [extend touched trace stdout app].
  rewrite (for_each_trace before body _ Hf Htrace (for_each_done _ _ Hf Hdone)).
  rewrite Htrace, fmap_app.
  assert (Hs1 : stdout (recorded (for_each before body)) = []).
  { apply (records_for_each silent silent_initial silent_extend); auto. }
  rewrite Hs1, (Hsilent f). done.
Qed.

(** X21. A selected file that cannot be read aborts its block.  When the
    [rules] directory, or the [commands] or [agents] directory, is listed
    and one of the files the block selects cannot be read (a directory
    with such a name, a file without read permission), the block throws at
    the first such file: the files before it are read, those after it are
    not, and the count is not printed. *)
Theorem unreadable_file_aborts fs dir listing before f after :
  fs_access fs [dir] = true -> fs_readdir fs [dir] = Some listing ->
  Forall (fun x => is_Some (fs_readFile fs [dir; x])) before ->
  fs_readFile fs [dir; f] = None ->
  (dir = RULES ->
   filter (fun f => ends_with (lit ".mdc") f || ends_with (lit ".md") f)
          listing
   = before ++ f :: after ->
   outcome (checkRules fs) = Thrown (ReadFileFailed [RULES; f])
   /\ trace (recorded (checkRules fs))
      = OpAccess [RULES] :: OpReaddir [RULES]
        :: ((fun x => OpReadFile [RULES; x]) <$> before ++ [f])
   /\ stdout (recorded (checkRules fs)) = [])
  /\ (forall kind plural,
        filter (fun f => ends_with (lit ".md") f) listing
        = before ++ f :: after ->
        outcome (checkEntries fs dir kind plural)
        = Thrown (ReadFileFailed [dir; f])
        /\ trace (recorded (checkEntries fs dir kind plural))
           = OpAccess [dir] :: OpReaddir [dir]
             :: ((fun x => OpReadFile [dir; x]) <$> before ++ [f])
        /\ stdout (recorded (checkEntries fs dir kind plural)) = []).
Proof.
  intros Ha Hd Hbefore Hfile. split.
  - intros -> Hsel.
    by apply (filtered_block_aborts fs RULES
                (fun f => ends_with (lit ".mdc") f || ends_with (lit ".md") f)
                (checkRule fs)
                (fun n => lit "  Rules: " ++ decimal n ++ lit " found")
                listing before f after);
      auto using framed_checkRule, trace_checkRule, silent_checkRule,
                 outcome_checkRule.
  - intros kind plural Hsel.
    by apply (filtered_block_aborts fs dir
                (fun f => ends_with (lit ".md") f)
                (checkEntry fs dir kind)
                (fun n => lit "  " ++ plural ++ lit ": " ++ decimal n
                          ++ lit " found")
                listing before f after);
      auto using framed_checkEntry, trace_checkEntry, silent_checkEntry,
                 outcome_checkEntry.
Qed.

Lemma unreadable_file_aborts_witness :
  let fs := tree_fs Cases.rule_directory in
  fs_readdir fs [RULES]
  = Some [lit "first.md"; lit "legacy.md"; lit "style.md"]
  /\ fs_readFile fs [RULES; lit "legacy.md"] = None
  /\ outcome (checkRules fs)
     = Thrown (ReadFileFailed [RULES; lit "legacy.md"])
  /\ trace (recorded (checkRules fs))
     = [OpAccess [RULES]; OpReaddir [RULES];
        OpReadFile [RULES; lit "first.md"];
        OpReadFile [RULES; lit "legacy.md"]]
  /\ exit_code (run Example.json fs) = 1.
Proof.
  intros fs. split; [reflexivity|].
  assert (Hfile : fs_readFile fs [RULES; lit "legacy.md"] = None)
    by reflexivity.
  assert (Hbefore : Forall (fun x => is_Some (fs_readFile fs [RULES; x]))
                           [lit "first.md"]).
  { constructor; [|constructor]. by eexists. }
  destruct (unreadable_file_aborts fs RULES _ _ _ [lit "style.md"]
              eq_refl eq_refl Hbefore Hfile) as [Hrules _].
  destruct (Hrules eq_refl ltac:(by vm_compute)) as (Ho & Ht & _).
  split; [exact Hfile|]. split; [exact Ho|]. split; [exact Ht|].
  by vm_compute.
Defined.

Section Unlistable.
Variable fs : FS.

Lemma checkSkills_unlistable :
  fs_access fs [SKILLS] = true -> fs_readdir fs [SKILLS] = None ->
  forall s,
    checkSkills fs s
    = (extend s (touched [OpAccess [SKILLS]; OpReaddir [SKILLS]]),
       Thrown (ReaddirFailed [SKILLS])).
Proof.
  intros Ha Hd s. rewrite (proj1 (framed_checkSkills fs) s).
  unfold checkSkills. rewrite recorded_bind, outcome_bind by framed.
  destruct (exists_spec fs [SKILLS]) as [-> ->]. rewrite Ha.
  rewrite recorded_bind, outcome_bind by framed.
  destruct (readdir_spec fs [SKILLS]) as [-> ->]. by rewrite Hd.
Qed.

Lemma checkRules_unlistable :
  fs_access fs [RULES] = true -> fs_readdir fs [RULES] = None ->
  forall s,
    checkRules fs s
    = (extend s (touched [OpAccess [RULES]; OpReaddir [RULES]]),
       Thrown (ReaddirFailed [RULES])).
Proof.
  intros Ha Hd s. rewrite (proj1 (framed_checkRules fs) s).
  unfold checkRules. rewrite recorded_bind, outcome_bind by framed.
  destruct (exists_spec fs [RULES]) as [-> ->]. rewrite Ha.
  rewrite recorded_bind, outcome_bind by framed.
  destruct (readdir_spec fs [RULES]) as [-> ->]. by rewrite Hd.
Qed.

Lemma checkEntries_unlistable dir kind plural :
  fs_access fs [dir] = true -> fs_readdir fs [dir] = None ->
  forall s,
    checkEntries fs dir kind plural s
    = (extend s (touched [OpAccess [dir]; OpReaddir [dir]]),
       Thrown (ReaddirFailed [dir])).
Proof.
  intros Ha Hd s. rewrite (proj1 (framed_checkEntries fs dir kind plural) s).
  unfold checkEntries. rewrite recorded_bind, outcome_bind by framed.
  destruct (exists_spec fs [dir]) as [-> ->]. rewrite Ha.
  rewrite recorded_bind, outcome_bind by framed.
  destruct (readdir_spec fs [dir]) as [-> ->]. by rewrite Hd.
Qed.

End Unlistable.

(** X22. A directory that exists and cannot be listed aborts the run.
    Each of the four blocks throws when its directory passes the existence
    test and [fs.readdir] rejects (a regular file of that name, a directory
    without permission), having recorded nothing.  For [skills], on a
    manifest whose name converts to a string and whose logo is absent or a
    string, the run ends in the top-level handler with exit code 1, its
    errors being those of the manifest checks, and the failed listing is
    the last operation of the run. *)
Theorem unlistable_directory_aborts JSON_parse fs :
  (fs_access fs [SKILLS] = true -> fs_readdir fs [SKILLS] = None ->
   (forall s,
      checkSkills fs s
      = (extend s (touched [OpAccess [SKILLS]; OpReaddir [SKILLS]]),
         Thrown (ReaddirFailed [SKILLS])))
   /\ forall name,
       let m := manifest_read JSON_parse fs in
       let r := run JSON_parse fs in
       toString (get m NAME) = Some name -> truthy m = true ->
       logo_well_typed m ->
       uncaught r = Some (ReaddirFailed [SKILLS]) /\ exit_code r = 1
       /\ errors (final r) = name_errors m ++ field_errors m
       /\ trace (final r)
          = OpReadFile MANIFEST
            :: trace (recorded (checkLogo fs m))
               ++ [OpAccess [SKILLS]; OpReaddir [SKILLS]])
  /\ (fs_access fs [RULES] = true -> fs_readdir fs [RULES] = None ->
      forall s,
        checkRules fs s
        = (extend s (touched [OpAccess [RULES]; OpReaddir [RULES]]),
           Thrown (ReaddirFailed [RULES])))
  /\ (forall dir kind plural,
        fs_access fs [dir] = true -> fs_readdir fs [dir] = None ->
        forall s,
          checkEntries fs dir kind plural s
          = (extend s (touched [OpAccess [dir]; OpReaddir [dir]]),
             Thrown (ReaddirFailed [dir]))).
Proof.
  split; [|split].
  - intros Ha Hd. split; [by apply checkSkills_unlistable|].
    intros name m r Hname Hm Hlogo. subst r.
    rewrite (run_exact _ _ Hm). fold m.
    destruct (checkBundle_spec fs m _ Hname) as [-> ->].
    destruct (checkFiles_spec fs m) as [-> ->].
    pose proof (checkLogo_well_typed fs m Hlogo) as Hlo. rewrite Hlo.
    assert (Hdirs : checkDirectories fs initial
                    = (touched [OpAccess [SKILLS]; OpReaddir [SKILLS]],
                       Thrown (ReaddirFailed [SKILLS]))).
    { unfold checkDirectories. unfold bind at 1.
      rewrite (checkSkills_unlistable fs Ha Hd). by rewrite extend_initial_l. }
    assert (Hdr : recorded (checkDirectories fs)
                  = touched [OpAccess [SKILLS]; OpReaddir [SKILLS]])
      by (unfold recorded; by rewrite Hdirs).
    assert (Hdo : outcome (checkDirectories fs)
                  = Thrown (ReaddirFailed [SKILLS]))
      by (unfold outcome; by rewrite Hdirs).
    rewrite Hdr, Hdo.
    cbn [final uncaught exit_code errors trace extend failed touched].
    rewrite (checkLogo_errors fs m), !app_nil_r. cbn [app].
    split; [done|]. split; [done|]. by split.
  - apply checkRules_unlistable.
  - apply checkEntries_unlistable.
Qed.

Lemma unlistable_directory_aborts_witness :
  let fs := tree_fs (Example.skills_is_a_file Example.manifest_no_license) in
  fs_access fs [SKILLS] = true /\ fs_readdir fs [SKILLS] = None
  /\ uncaught (run Example.json fs) = Some (ReaddirFailed [SKILLS])
  /\ exit_code (run Example.json fs) = 1
  /\ errors (final (run Example.json fs))
     = [msg_missing_field (lit "license")].
Proof.
  intros fs.
  assert (Ha : fs_access fs [SKILLS] = true) by reflexivity.
  assert (Hd : fs_readdir fs [SKILLS] = None) by reflexivity.
  destruct (unlistable_directory_aborts Example.json fs) as [Hskills _].
  destruct (Hskills Ha Hd) as [_ Hrun].
  destruct (Hrun (lit "typescript-best-practices") eq_refl eq_refl
              (or_introl eq_refl)) as (Hu & Hc & He & _).
  split; [exact Ha|]. split; [exact Hd|]. split; [exact Hu|].
  split; [exact Hc|]. rewrite He. by vm_compute.
Defined.
(** *** The skills directory is required, the others are optional *)

(** The block of an optional directory that can be listed completes, and
    does what [block_ops] says. *)
Lemma optional_block fs dir (sel : jsstring -> bool)
    (body : jsstring -> M unit) (line : nat -> jsstring) :
  (forall x, framed (body x)) ->
  (forall x, trace (recorded (body x)) = [OpReadFile [dir; x]]) ->
  (forall x, records silent (body x)) ->
  (forall x, outcome (body x)
             = match fs_readFile fs [dir; x] with
               | Some _ => Done tt
               | None => Thrown (ReadFileFailed [dir; x])
               end) ->
  listable fs dir sel ->
  let block :=
    (found <- exists_ fs [dir] ;;
     if found then
       listing <- readdir fs [dir] ;;
       for_each (filter (fun f => sel f) listing) body ;;;
       console_log (line (length (filter (fun f => sel f) listing)))
     else ret tt) in
  outcome block = Done tt
  /\ trace (recorded block) = block_ops fs dir sel
  /\ stdout (recorded block)
     = if fs_access fs [dir] then
         match fs_readdir fs [dir] with
         | Some listing => [line (length (filter (fun f => sel f) listing))]
         | None => []
         end
       else [].
Proof.
  intros Hf Htrace Hsilent Hout Hok block.
  destruct (fs_access fs [dir]) eqn:Ha.
  - destruct (Hok Ha) as (listing & Hd & Hall).
    assert (Hdone : outcome block = Done tt).
    { subst block. rewrite outcome_bind by framed.
      rewrite (proj2 (exists_spec fs [dir])), Ha.
      rewrite outcome_bind by framed.
      rewrite (proj2 (readdir_spec fs [dir])), Hd.
      rewrite outcome_bind by framed.
      rewrite for_each_done; [done|done|].
      eapply Forall_impl; [exact Hall|]. intros x [c Hc]. by rewrite Hout, Hc. }
    split; [done|].
    destruct (filtered_block fs dir sel body line listing Hf Htrace Hsilent
                Ha Hd Hdone) as [Ht Hs].
    fold block in Ht, Hs. rewrite Ht, Hs. unfold block_ops.
    by rewrite Ha, Hd.
  - subst block. rewrite recorded_bind, outcome_bind by framed.
    destruct (exists_spec fs [dir]) as [-> ->]. rewrite Ha.
    unfold block_ops. by rewrite Ha.
Qed.

Section Listed.
Variable fs : FS.

Lemma checkRules_listed :
  listable fs RULES rule_file ->
  outcome (checkRules fs) = Done tt
  /\ trace (recorded (checkRules fs)) = block_ops fs RULES rule_file
  /\ stdout (recorded (checkRules fs))
     = block_out fs RULES (lit "Rules") rule_file.
Proof.
  intros Hok.
  exact (optional_block fs RULES rule_file (checkRule fs)
           (fun n => lit "  Rules: " ++ decimal n ++ lit " found")
           (framed_checkRule fs) (trace_checkRule fs) (silent_checkRule fs)
           (outcome_checkRule fs) Hok).
Qed.

Lemma checkEntries_listed dir kind plural :
  listable fs dir md_file ->
  outcome (checkEntries fs dir kind plural) = Done tt
  /\ trace (recorded (checkEntries fs dir kind plural))
     = block_ops fs dir md_file
  /\ stdout (recorded (checkEntries fs dir kind plural))
     = block_out fs dir plural md_file.
Proof.
  intros Hok.
  exact (optional_block fs dir md_file (checkEntry fs dir kind)
           (fun n => lit "  " ++ plural ++ lit ": " ++ decimal n
                     ++ lit " found")
           (framed_checkEntry fs dir kind) (trace_checkEntry fs dir kind)
           (silent_checkEntry fs dir kind) (outcome_checkEntry fs dir kind)
           Hok).
Qed.

Lemma checkOptional_listed :
  listable fs RULES rule_file -> listable fs COMMANDS md_file ->
  listable fs AGENTS md_file ->
  outcome (checkOptional fs) = Done tt
  /\ trace (recorded (checkOptional fs))
     = block_ops fs RULES rule_file ++ block_ops fs COMMANDS md_file
       ++ block_ops fs AGENTS md_file
  /\ stdout (recorded (checkOptional fs))
     = block_out fs RULES (lit "Rules") rule_file
       ++ block_out fs COMMANDS (lit "Commands") md_file
       ++ block_out fs AGENTS (lit "Agents") md_file.
Proof.
  intros Hr Hc Ha.
  destruct (checkRules_listed Hr) as (Hro & Hrt & Hrs).
  destruct (checkEntries_listed COMMANDS (lit "Command") (lit "Commands") Hc)
    as (Hco & Hct & Hcs).
  destruct (checkEntries_listed AGENTS (lit "Agent") (lit "Agents") Ha)
    as (Hao & Hat & Has).
  unfold checkOptional, checkCommands, checkAgents.
  rewrite !recorded_bind, !outcome_bind by framed.
  rewrite Hro, Hco, Hao. cbn [extend trace stdout].
  by rewrite Hrt, Hct, Hat, Hrs, Hcs, Has.
Qed.

Lemma checkLogo_ops m :
  logo_well_typed m ->
  trace (recorded (checkLogo fs m)) = logo_ops m
  /\ stdout (recorded (checkLogo fs m)) = [].
Proof.
  unfold logo_ops. intros [Hno|[p Hp]].
  - rewrite (proj1 (checkLogo_absent fs m Hno)).
    destruct (get m LOGO) as [| | | |[|c p]| |]; done.
  - destruct p as [|c p].
    + assert (Hno : truthy (get m LOGO) = false) by (by rewrite Hp).
      rewrite (proj1 (checkLogo_absent fs m Hno)). by rewrite Hp.
    + rewrite (proj1 (checkLogo_string fs m (c :: p) Hp ltac:(done))).
      by rewrite Hp.
Qed.

End Listed.

(** A run whose [skills] block completes and whose other directories can
    be listed. *)
Lemma run_directories JSON_parse fs name :
  let m := manifest_read JSON_parse fs in
  let r := run JSON_parse fs in
  truthy m = true -> toString (get m NAME) = Some name ->
  logo_well_typed m -> outcome (checkSkills fs) = Done tt ->
  listable fs RULES rule_file -> listable fs COMMANDS md_file ->
  listable fs AGENTS md_file ->
  trace (final r)
  = OpReadFile MANIFEST
    :: logo_ops m ++ trace (recorded (checkSkills fs))
       ++ block_ops fs RULES rule_file ++ block_ops fs COMMANDS md_file
       ++ block_ops fs AGENTS md_file
  /\ stdout (final r)
     = (lit "Validating plugin: " ++ name ++ [LF])
       :: stdout (recorded (checkSkills fs))
          ++ (block_out fs RULES (lit "Rules") rule_file
              ++ block_out fs COMMANDS (lit "Commands") md_file
              ++ block_out fs AGENTS (lit "Agents") md_file)
          ++ report_lines (warnings (final r)) (errors (final r))
  /\ errors (final r)
     = name_errors m ++ field_errors m
       ++ errors (recorded (checkSkills fs))
       ++ errors (recorded (checkOptional fs))
  /\ uncaught r = None.
Proof.
  intros m r Hm Hname Hlogo Hskills Hr Hc Ha. subst r.
  destruct (checkOptional_listed fs Hr Hc Ha) as (Hoo & Hot & Hos).
  destruct (checkLogo_ops fs m Hlogo) as [Hlt Hls].
  pose proof (checkLogo_well_typed fs m Hlogo) as Hlo.
  pose proof (checkDirectories_after_skills fs Hskills initial) as Hdirs.
  rewrite extend_initial_l in Hdirs.
  assert (Hdr : recorded (checkDirectories fs)
                = extend (recorded (checkSkills fs)) (recorded (checkOptional fs)))
    by (unfold recorded at 1; by rewrite Hdirs).
  assert (Hdo : outcome (checkDirectories fs) = Done tt)
    by (unfold outcome at 1; by rewrite Hdirs).
  destruct (checkBundle_spec fs m _ Hname) as [Hbr Hbo].
  destruct (checkFiles_spec fs m) as [Hfr Hfo].
  rewrite Hlo in Hfr, Hfo. rewrite Hdr in Hfr. rewrite Hdo in Hfo.
  rewrite Hfr in Hbr. rewrite Hfo in Hbo.
  rewrite (run_exact _ _ Hm). fold m. rewrite Hbo.
  cbn [final uncaught trace stdout errors warnings].
  assert (Ht : trace (recorded (checkBundle fs m))
               = logo_ops m ++ trace (recorded (checkSkills fs))
                 ++ trace (recorded (checkOptional fs))).
  { rewrite Hbr. cbn [extend failed trace app]. by rewrite Hlt. }
  assert (Hs : stdout (recorded (checkBundle fs m))
               = (lit "Validating plugin: " ++ name ++ [LF])
                 :: stdout (recorded (checkSkills fs))
                    ++ stdout (recorded (checkOptional fs))).
  { rewrite Hbr. cbn [extend failed stdout app]. by rewrite Hls. }
  assert (He : errors (recorded (checkBundle fs m))
               = name_errors m ++ field_errors m
                 ++ errors (recorded (checkSkills fs))
                 ++ errors (recorded (checkOptional fs))).
  { rewrite Hbr. cbn [extend failed errors app].
    by rewrite (checkLogo_errors fs m), <- !app_assoc. }
  rewrite Ht, Hs, Hot, Hos. split; [done|]. split; [|done].
  cbn [app]. by rewrite <- !app_assoc.
Qed.
(** C6.  Without [skills], the block records the one error
    [skills/ directory is missing] and touches nothing but that path, and
    the blocks of [rules], [commands] and [agents] then add what they add
    after any [skills] block that completes, whatever was accumulated
    before.  Each of those three blocks, when its directory is absent, adds
    no error, no warning and no output.  The iteration for a skill without
    [SKILL.md] records the one error naming the skill and does not read the
    file; in a block that completes on a listing without repetition, that
    error occurs once and the file is never read.  In a run that reaches
    the directories and finds no [skills], the error
    [skills/ directory is missing] occurs exactly once.

    The enumeration itself: when [rules], [commands] and [agents] can be
    listed and their selected files read, a run without [skills] tests
    [skills] and then tests, lists and reads [rules], [commands] and
    [agents], each file the block selects in the order of the listing, and
    prints their counts; a run whose [skills] block completes performs the
    same operations on the three directories and prints the same counts
    after those of [skills]. *)
Theorem skills_required_others_optional JSON_parse fs :
  (fs_access fs [SKILLS] = false ->
   (forall s, checkSkills fs s = (extend s skills_missing, Done tt))
   /\ (forall s,
        checkDirectories fs s
        = (extend (extend s skills_missing) (recorded (checkOptional fs)),
           outcome (checkOptional fs)))
   /\ forall name,
       truthy (manifest_read JSON_parse fs) = true ->
       toString (get (manifest_read JSON_parse fs) NAME) = Some name ->
       logo_well_typed (manifest_read JSON_parse fs) ->
       occurrences msg_skills_missing (errors (final (run JSON_parse fs)))
       = 1%nat)
  /\ (outcome (checkSkills fs) = Done tt ->
      forall s,
        checkDirectories fs s
        = (extend (extend s (recorded (checkSkills fs)))
                  (recorded (checkOptional fs)),
           outcome (checkOptional fs)))
  /\ (fs_access fs [RULES] = false ->
      forall s,
        checkRules fs s = (extend s (touched [OpAccess [RULES]]), Done tt))
  /\ (fs_access fs [COMMANDS] = false ->
      forall s,
        checkCommands fs s
        = (extend s (touched [OpAccess [COMMANDS]]), Done tt))
  /\ (fs_access fs [AGENTS] = false ->
      forall s,
        checkAgents fs s = (extend s (touched [OpAccess [AGENTS]]), Done tt))
  /\ (forall skill,
        fs_access fs [SKILLS; skill; SKILL_MD] = false ->
        forall s,
          checkSkill fs skill s
          = (extend s {| errors := [msg_skill_no_file skill]; warnings := [];
                         stdout := [];
                         trace := [OpAccess [SKILLS; skill; SKILL_MD]] |},
             Done tt))
  /\ (forall skills skill,
        fs_access fs [SKILLS] = true -> fs_readdir fs [SKILLS] = Some skills ->
        NoDup skills -> outcome (checkSkills fs) = Done tt ->
        skill ∈ skills -> fs_access fs [SKILLS; skill; SKILL_MD] = false ->
        occurrences (msg_skill_no_file skill)
                    (errors (recorded (checkSkills fs))) = 1%nat
        /\ OpReadFile [SKILLS; skill; SKILL_MD]
           ∉ trace (recorded (checkSkills fs)))
  /\ (listable fs RULES rule_file -> listable fs COMMANDS md_file ->
      listable fs AGENTS md_file ->
      forall name,
        let m := manifest_read JSON_parse fs in
        let r := run JSON_parse fs in
        let ops := block_ops fs RULES rule_file
                   ++ block_ops fs COMMANDS md_file
                   ++ block_ops fs AGENTS md_file in
        let out := block_out fs RULES (lit "Rules") rule_file
                   ++ block_out fs COMMANDS (lit "Commands") md_file
                   ++ block_out fs AGENTS (lit "Agents") md_file in
        truthy m = true -> toString (get m NAME) = Some name ->
        logo_well_typed m ->
        (fs_access fs [SKILLS] = false ->
         trace (final r)
         = OpReadFile MANIFEST :: logo_ops m ++ OpAccess [SKILLS] :: ops
         /\ stdout (final r)
            = (lit "Validating plugin: " ++ name ++ [LF])
              :: out ++ report_lines (warnings (final r)) (errors (final r))
         /\ errors (final r)
            = name_errors m ++ field_errors m
              ++ msg_skills_missing :: errors (recorded (checkOptional fs))
         /\ uncaught r = None)
        /\ (outcome (checkSkills fs) = Done tt ->
            trace (final r)
            = OpReadFile MANIFEST
              :: logo_ops m ++ trace (recorded (checkSkills fs)) ++ ops
            /\ stdout (final r)
               = (lit "Validating plugin: " ++ name ++ [LF])
                 :: stdout (recorded (checkSkills fs)) ++ out
                    ++ report_lines (warnings (final r)) (errors (final r))
            /\ errors (final r)
               = name_errors m ++ field_errors m
                 ++ errors (recorded (checkSkills fs))
                 ++ errors (recorded (checkOptional fs))
            /\ uncaught r = None)).
Proof.
  split; [|split; [|split; [|split; [|split; [|split; [|split]]]]]].
  - intros Habsent. split; [by apply checkSkills_absent|]. split.
    + intros s. pose proof (checkSkills_absent fs Habsent initial) as Hrun.
      rewrite extend_initial_l in Hrun.
      rewrite checkDirectories_after_skills.
      * unfold recorded. by rewrite Hrun.
      * unfold outcome. by rewrite Hrun.
    + intros name Hm Hname Hlogo. by apply (run_skills_missing _ _ name).
  - apply checkDirectories_after_skills.
  - apply checkRules_absent.
  - apply checkEntries_absent.
  - apply checkEntries_absent.
  - apply checkSkill_no_file.
  - intros skills skill Ha Hd Hnd Hdone Hin Hfile.
    destruct (checkSkills_present fs skills Ha Hd) as [Hrec Hout].
    rewrite Hout in Hdone.
    destruct (outcome (for_each skills (checkSkill fs))) as [[]| |] eqn:Hloop;
      [|done..].
    destruct (for_each_skills_no_file fs skill skills Hnd Hin Hfile Hloop)
      as [Hone Hno].
    rewrite Hrec. cbn [extend touched errors trace app].
    rewrite !app_nil_r. split; [done|].
    rewrite !not_elem_of_cons. by repeat split.
  - intros Hr Hc Ha name m r ops out Hm Hname Hlogo. split.
    + intros Habsent.
      pose proof (checkSkills_absent fs Habsent initial) as Hrun.
      rewrite extend_initial_l in Hrun.
      assert (Hso : outcome (checkSkills fs) = Done tt)
        by (unfold outcome; by rewrite Hrun).
      assert (Hsr : recorded (checkSkills fs) = skills_missing)
        by (unfold recorded; by rewrite Hrun).
      destruct (run_directories JSON_parse fs name Hm Hname Hlogo Hso Hr Hc Ha)
        as (Ht & Hs & He & Hu).
      rewrite Hsr in Ht, Hs, He. by repeat split.
    + intros Hso.
      destruct (run_directories JSON_parse fs name Hm Hname Hlogo Hso Hr Hc Ha)
        as (Ht & Hs & He & Hu).
      by repeat split.
Qed.

Lemma skills_required_others_optional_witness :
  (fs_access (tree_fs Example.only_rules) [SKILLS] = false
   /\ fs_access (tree_fs Example.only_rules) [COMMANDS] = false
   /\ fs_access (tree_fs Example.only_rules) [AGENTS] = false
   /\ occurrences msg_skills_missing
        (errors (final (run Example.json (tree_fs Example.only_rules))))
      = 1%nat
   /\ checkSkills (tree_fs Example.only_rules) initial = (skills_missing, Done tt)
   /\ checkCommands (tree_fs Example.only_rules) initial
      = (touched [OpAccess [COMMANDS]], Done tt)
   /\ checkAgents (tree_fs Example.only_rules) initial
      = (touched [OpAccess [AGENTS]], Done tt))
  /\ (fs_access (tree_fs Example.bundle) [RULES] = true
      /\ fs_access (tree_fs (Example.skills_is_a_file Example.manifest)) [RULES]
         = false
      /\ checkRules (tree_fs (Example.skills_is_a_file Example.manifest)) initial
         = (touched [OpAccess [RULES]], Done tt))
  /\ (fs_readdir (tree_fs Example.skill_without_file) [SKILLS]
      = Some [lit "draft"; lit "typescript-best-practices"]
      /\ fs_access (tree_fs Example.skill_without_file)
                   [SKILLS; lit "draft"; SKILL_MD] = false
      /\ occurrences (msg_skill_no_file (lit "draft"))
           (errors (recorded (checkSkills (tree_fs Example.skill_without_file))))
         = 1%nat
      /\ OpReadFile [SKILLS; lit "draft"; SKILL_MD]
         ∉ trace (recorded (checkSkills (tree_fs Example.skill_without_file))))
  /\ (fs_access (tree_fs Cases.no_skills) [SKILLS] = false
      /\ trace (final (run Example.json (tree_fs Cases.no_skills)))
         = [OpReadFile MANIFEST; OpAccess [SKILLS];
            OpAccess [RULES]; OpReaddir [RULES];
            OpReadFile [RULES; lit "best-practices.mdc"];
            OpAccess [COMMANDS]; OpReaddir [COMMANDS];
            OpReadFile [COMMANDS; lit "audit.md"];
            OpAccess [AGENTS]; OpReaddir [AGENTS];
            OpReadFile [AGENTS; lit "planner.md"]]
      /\ errors (final (run Example.json (tree_fs Cases.no_skills)))
         = [msg_skills_missing]
      /\ lit "  Commands: 1 found"
         ∈ stdout (final (run Example.json (tree_fs Cases.no_skills)))).
Proof.
  split; [|split; [|split]].
  - destruct (skills_required_others_optional Example.json
                (tree_fs Example.only_rules))
      as (Hskills & _ & _ & Hcommands & Hagents & _).
    destruct Hskills as (Hs & _ & Hrun); [reflexivity|].
    do 3 (split; [reflexivity|]). split; [|split; [|split]].
    + exact (Hrun (lit "typescript-best-practices") eq_refl eq_refl
                  (or_introl eq_refl)).
    + rewrite (Hs initial). by rewrite extend_initial_l.
    + rewrite (Hcommands eq_refl initial). by rewrite extend_initial_l.
    + rewrite (Hagents eq_refl initial). by rewrite extend_initial_l.
  - destruct (skills_required_others_optional Example.json
                (tree_fs (Example.skills_is_a_file Example.manifest)))
      as (_ & _ & Hrules & _).
    do 2 (split; [reflexivity|]).
    rewrite (Hrules eq_refl initial). by rewrite extend_initial_l.
  - destruct (skills_required_others_optional Example.json
                (tree_fs Example.skill_without_file))
      as (_ & _ & _ & _ & _ & _ & Hloop & _).
    split; [reflexivity|]. split; [reflexivity|].
    apply (Hloop [lit "draft"; lit "typescript-best-practices"] (lit "draft"));
      try reflexivity.
    + apply (bool_decide_unpack _). vm_compute. exact I.
    + by left.
  - destruct (skills_required_others_optional Example.json
                (tree_fs Cases.no_skills))
      as (_ & _ & _ & _ & _ & _ & _ & Hlisted).
    assert (Hr : listable (tree_fs Cases.no_skills) RULES rule_file).
    { intros _. eexists. split; [reflexivity|].
      change (filter _ _) with [lit "best-practices.mdc"].
      constructor; [by eexists|constructor]. }
    assert (Hc : listable (tree_fs Cases.no_skills) COMMANDS md_file).
    { intros _. eexists. split; [reflexivity|].
      change (filter _ _) with [lit "audit.md"].
      constructor; [by eexists|constructor]. }
    assert (Ha : listable (tree_fs Cases.no_skills) AGENTS md_file).
    { intros _. eexists. split; [reflexivity|].
      change (filter _ _) with [lit "planner.md"].
      constructor; [by eexists|constructor]. }
    destruct (Hlisted Hr Hc Ha (lit "typescript-best-practices")
                eq_refl eq_refl (or_introl eq_refl)) as [Hrun _].
    destruct (Hrun eq_refl) as (Ht & Hs & He & _).
    split; [reflexivity|]. split; [|split].
    + rewrite Ht. by vm_compute.
    + rewrite He. by vm_compute.
    + rewrite Hs. right. apply elem_of_app. left. vm_compute. in_list.
Defined.

